(** * asana-ingest: the identifier resolver, the recursive ingestion engine
      and the Markdown renderer of [services/asanaService.ts]

    A shallow embedding of [extractTaskGid], [fetchAsana], [processTask] and
    [generateMarkdown], followed by the properties the specification states
    about them.

    Conventions of the embedding.
    - A JavaScript string is a [string]: the sequence of the bytes of its
      UTF-8 encoding.  Every operation the service performs on strings
      (concatenation, [trim], [startsWith], [includes], [split('/')], the two
      regular expressions, [replace(/\n/g, ...)], [repeat]) acts on ASCII
      delimiters only, so it commutes with the encoding.
    - [null] and [undefined] are [None].
    - The platform's [URL] constructor and [Date] formatting are parameters.
    - The remote service is a snapshot: a reply depends only on the request.
    - The log sink is a callback.  In [processTask] it returns, as its
      contract [(message, severity) -> void] has it: a call is a total effect
      on the sink's own state, whatever that state is.  [processTaskT] is the
      same function over a sink that may also throw, with the depth an
      integer and the indent computed on entry, as the source computes it;
      the two agree on the sinks that return and the depths [repeat] accepts.
    - An [async] function is a state-and-exception computation over a world
      holding the state of the log sink and the requests sent so far.
      Recursion over the remote tree, which nothing bounds, is given fuel;
      a computation that runs out of fuel is [Pending], and [Pending] is not
      an exception: no [catch] sees it. *)

From Stdlib Require Import String Ascii List Arith ZArith Bool Lia.
From Stdlib Require Import DecimalString.
Import ListNotations.

Open Scope list_scope.
Open Scope string_scope.

(* ================================================================== *)
(** * Strings as the service uses them *)
(* ================================================================== *)

Module Js.

(** The character [\d] of a regular expression. *)
Definition is_digit (c : ascii) : bool :=
  ((48 <=? nat_of_ascii c) && (nat_of_ascii c <=? 57))%nat.

Fixpoint all_chars (p : ascii -> bool) (s : string) : bool :=
  match s with
  | EmptyString => true
  | String c s' => p c && all_chars p s'
  end.

(** [/^\d+$/.test(s)] *)
Definition re_digits (s : string) : bool :=
  match s with
  | EmptyString => false
  | String _ _ => all_chars is_digit s
  end.

(** [s] is truthy: it is not the empty string. *)
Definition truthy (s : string) : bool :=
  match s with
  | EmptyString => false
  | String _ _ => true
  end.

(** [strip_prefix p s] is the rest of [s] after its prefix [p]. *)
Fixpoint strip_prefix (p s : string) : option string :=
  match p, s with
  | EmptyString, _ => Some s
  | String a p', String b s' =>
      if Ascii.eqb a b then strip_prefix p' s' else None
  | String _ _, EmptyString => None
  end.

(** [s.startsWith(p)] *)
Definition startsWith (p s : string) : bool :=
  match strip_prefix p s with
  | Some _ => true
  | None => false
  end.

(** [s.includes(needle)] *)
Fixpoint includes (needle s : string) : bool :=
  startsWith needle s
  || match s with
     | EmptyString => false
     | String _ s' => includes needle s'
     end.

(** [s.split(sep)] for a one-character separator. *)
Fixpoint split (sep : ascii) (s : string) : list string :=
  match s with
  | EmptyString => [EmptyString]
  | String c s' =>
      if Ascii.eqb c sep then EmptyString :: split sep s'
      else match split sep s' with
           | [] => [String c EmptyString]
           | seg :: rest => String c seg :: rest
           end
  end.

(** The longest prefix of [s] whose characters satisfy [p], and the rest. *)
Fixpoint span (p : ascii -> bool) (s : string) : string * string :=
  match s with
  | EmptyString => (EmptyString, EmptyString)
  | String c s' =>
      if p c then let (a, b) := span p s' in (String c a, b)
      else (EmptyString, s)
  end.

Fixpoint rev_string (s : string) : string :=
  match s with
  | EmptyString => EmptyString
  | String c s' => rev_string s' ++ String c EmptyString
  end.

Fixpoint of_codes (l : list nat) : string :=
  match l with
  | [] => EmptyString
  | n :: l' => String (ascii_of_nat n) (of_codes l')
  end.

(** ECMAScript's WhiteSpace and LineTerminator code points, UTF-8 encoded:
    U+0009..U+000D, U+0020, U+00A0, U+1680, U+2000..U+200A, U+2028,
    U+2029, U+202F, U+205F, U+3000, U+FEFF. *)
Definition white_space : list string :=
  map of_codes
    [ [9]; [10]; [11]; [12]; [13]; [32]; [194; 160]; [225; 154; 128];
      [226; 128; 128]; [226; 128; 129]; [226; 128; 130]; [226; 128; 131];
      [226; 128; 132]; [226; 128; 133]; [226; 128; 134]; [226; 128; 135];
      [226; 128; 136]; [226; 128; 137]; [226; 128; 138]; [226; 128; 168];
      [226; 128; 169]; [226; 128; 175]; [226; 129; 159]; [227; 128; 128];
      [239; 187; 191] ].

(** The rest of [s] after one leading token of [toks], if it has one. *)
Fixpoint strip_one (toks : list string) (s : string) : option string :=
  match toks with
  | [] => None
  | t :: toks' =>
      match strip_prefix t s with
      | Some r => Some r
      | None => strip_one toks' s
      end
  end.

Fixpoint strip_all (fuel : nat) (toks : list string) (s : string) : string :=
  match fuel with
  | O => s
  | S fuel' =>
      match strip_one toks s with
      | Some r => strip_all fuel' toks r
      | None => s
      end
  end.

Definition trimStart (s : string) : string :=
  strip_all (String.length s) white_space s.

Definition trimEnd (s : string) : string :=
  rev_string
    (strip_all (String.length s) (map rev_string white_space) (rev_string s)).

(** [s.trim()] *)
Definition trim (s : string) : string := trimEnd (trimStart s).

(** [s.repeat(n)] *)
Fixpoint repeat (s : string) (n : nat) : string :=
  match n with
  | O => EmptyString
  | S n' => s ++ repeat s n'
  end.

(** [s.replace(/\n/g, by)] *)
Fixpoint replace_newlines (by_ : string) (s : string) : string :=
  match s with
  | EmptyString => EmptyString
  | String c s' =>
      if Ascii.eqb c "010"%char then by_ ++ replace_newlines by_ s'
      else String c (replace_newlines by_ s')
  end.

(** A number interpolated in a template literal. *)
Definition decimal (n : nat) : string :=
  NilZero.string_of_uint (Nat.to_uint n).

Definition newline : string := String "010"%char EmptyString.
Definition dquote : string := String "034"%char EmptyString.

End Js.

(* ================================================================== *)
(** * The identifier resolver *)
(* ================================================================== *)

(** What the service reads of a parsed [URL]. *)
Record URL : Type := mkURL { hostname : string; pathname : string }.

(** The class [[^\/]] of the fallback pattern. *)
Definition not_slash (c : ascii) : bool := negb (Ascii.eqb c "/"%char).

(** [s.match(/asana\.com\/0\/[^\/]+\/(\d+)/)] tried at the start of [s]:
    the capture group, when the pattern matches there.  [[^\/]+] can only
    end at the next slash and [(\d+)] is greedy, so there is at most one
    way to match at a given position. *)
Definition match_here (s : string) : option string :=
  match Js.strip_prefix "asana.com/0/" s with
  | None => None
  | Some r1 =>
      let (ctx, r2) := Js.span not_slash r1 in
      if Js.truthy ctx then
        match Js.strip_prefix "/" r2 with
        | None => None
        | Some r3 =>
            let (d, _) := Js.span Js.is_digit r3 in
            if Js.truthy d then Some d else None
        end
      else None
  end.

(** The capture group of the leftmost match of the fallback pattern. *)
Fixpoint re_task_link (s : string) : option string :=
  match match_here s with
  | Some d => Some d
  | None =>
      match s with
      | EmptyString => None
      | String _ s' => re_task_link s'
      end
  end.

(** The rest left by [span] does not start with a character of the class. *)
Definition stops (p : ascii -> bool) (b : string) : Prop :=
  match b with
  | EmptyString => True
  | String c _ => p c = false
  end.

(** The pattern [asana\.com\/0\/[^\/]+\/(\d+)] matches at the start of [s]
    and captures [d]. *)
Definition MatchAt (s d : string) : Prop :=
  exists ctx rest,
    s = "asana.com/0/" ++ ctx ++ "/" ++ d ++ rest
    /\ ctx <> "" /\ Js.all_chars not_slash ctx = true
    /\ Js.re_digits d = true /\ stops Js.is_digit rest.

(** [d] is what the leftmost match of the pattern in [s] captures. *)
Definition Leftmost (s d : string) : Prop :=
  exists pre post,
    s = pre ++ post /\ MatchAt post d
    /\ forall pre' post', s = pre' ++ post' ->
         String.length pre' < String.length pre -> match_here post' = None.

(** The string handed to the [URL] constructor. *)
Definition urlStr (cleanUrl : string) : string :=
  if Js.startsWith "http" cleanUrl then cleanUrl else "https://" ++ cleanUrl.

(** How the [try] block of [extractTaskGid] ends: with a [return], or by
    reaching its end (also through [catch]). *)
Inductive TryExit : Type :=
| Return (r : option string)
| FallThrough.

Section Resolver.

(** [new URL(s)]: [None] when the constructor throws. *)
Variable new_URL : string -> option URL.

Definition numericSegments (urlObj : URL) : list string :=
  let segments := filter Js.truthy (Js.split "/"%char (pathname urlObj)) in
  filter Js.re_digits segments.

Definition parse_strategy (cleanUrl : string) : TryExit :=
  match new_URL (urlStr cleanUrl) with
  | None => FallThrough
  | Some urlObj =>
      if negb (Js.includes "asana.com" (hostname urlObj)) then Return None
      else
        let ns := numericSegments urlObj in
        if (0 <? List.length ns)%nat
        then Return (nth_error ns (List.length ns - 1))
        else FallThrough
  end.

Definition extractTaskGid (url : string) : option string :=
  if negb (Js.truthy url) then None
  else
    let cleanUrl := Js.trim url in
    if Js.re_digits cleanUrl then Some cleanUrl
    else
      match parse_strategy cleanUrl with
      | Return r => r
      | FallThrough =>
          match re_task_link cleanUrl with
          | Some m => Some m
          | None => None
          end
      end.

End Resolver.

(* ================================================================== *)
(** * The data model ([types.ts]) *)
(* ================================================================== *)

Record AsanaUser : Type := mkUser { user_gid : string; user_name : string }.

Record AsanaStory : Type := mkStory {
  story_gid : string;
  created_at : string;
  created_by : option AsanaUser;
  resource_subtype : string;
  text : string;
  story_type : string
}.

Record AsanaTask : Type := mkTask {
  gid : string;
  name : string;
  notes : string;
  assignee : option AsanaUser;
  due_on : option string;
  completed : bool;
  permalink_url : string;
  projects : option (list (string * string))
}.

(** [EnrichedTask extends AsanaTask]: the task's own fields, its comments and
    its ingested subtasks. *)
#[local] Unset Elimination Schemes.
Inductive EnrichedTask : Type :=
  mkEnriched {
    task : AsanaTask;
    stories : list AsanaStory;
    subtasks : list EnrichedTask
  }.
#[local] Set Elimination Schemes.

(** The [type] of a [LogEntry]. *)
Inductive LogType : Type := info | success | error.

(** A value thrown: an [Error] object, a [TypeError] of [fetch], ... *)
Record JsError : Type := mkError { error_name : string; message : string }.

(** [new Error(msg)] *)
Definition Error (msg : string) : JsError := mkError "Error" msg.

(** [`${error}`], which is [Error.prototype.toString]. *)
Definition error_toString (e : JsError) : string :=
  if negb (Js.truthy (error_name e)) then message e
  else if negb (Js.truthy (message e)) then error_name e
  else error_name e ++ ": " ++ message e.

(* ================================================================== *)
(** * The remote service and [fetchAsana] *)
(* ================================================================== *)

(** A [Response] as [fetchAsana] reads it: the status line, and what
    [(await response.json()).data] gives (or the error [json()] rejects
    with). *)
Record Response (T : Type) : Type := mkResponse {
  status : nat;
  statusText : string;
  body : JsError + T
}.
Arguments mkResponse {T}.
Arguments status {T}.
Arguments statusText {T}.
Arguments body {T}.

(** [response.ok] *)
Definition ok {T} (response : Response T) : bool :=
  ((200 <=? status response) && (status response <=? 299))%nat.

(** What [fetch(url, { headers })] settles to: a rejection or a response. *)
Definition Reply (T : Type) : Type := (JsError + Response T)%type.

(** The service, one field per type at which [fetchAsana<T>] is used; each
    takes the URL and the bearer token of the request. *)
Record Remote : Type := mkRemote {
  get_task : string -> string -> Reply AsanaTask;
  get_stories : string -> string -> Reply (list AsanaStory);
  get_subtasks : string -> string -> Reply (list AsanaTask)
}.

Definition ASANA_API_BASE : string := "https://app.asana.com/api/1.0".

(** What [fetchAsana] makes of the reply to its request for [path]. *)
Definition settle {T} (path : string) (reply : Reply T) : JsError + T :=
  match reply with
  | inl e => inl e
  | inr response =>
      if negb (ok response) then
        if (status response =? 401)%nat then
          inl (Error "Unauthorized: Invalid Personal Access Token.")
        else if (status response =? 404)%nat then
          inl (Error ("Not Found: Resource at " ++ path
                      ++ " does not exist or you lack access."))
        else if (status response =? 429)%nat then
          inl (Error "Rate Limit Exceeded: Please wait a moment and try again.")
        else
          inl (Error ("Asana API Error: " ++ Js.decimal (status response)
                      ++ " " ++ statusText response))
      else body response
  end.

(** What a call [fetchAsana(path, token)] settles to, [endpoint] being the
    service at the call's type. *)
Definition fetched {T} (endpoint : string -> string -> Reply T)
    (path token : string) : JsError + T :=
  settle path (endpoint (ASANA_API_BASE ++ path) token).

(* ================================================================== *)
(** * The monad of [async] computations *)
(* ================================================================== *)

Inductive Outcome (A : Type) : Type :=
| Returned (a : A)
| Thrown (e : JsError)
| Pending.
Arguments Returned {A}.
Arguments Thrown {A}.
Arguments Pending {A}.

(** The state of the caller's log sink, and the URLs fetched so far, oldest
    first. *)
Record World (S : Type) : Type := mkWorld { sink : S; issued : list string }.
Arguments mkWorld {S}.
Arguments sink {S}.
Arguments issued {S}.

Definition M (S A : Type) : Type := World S -> Outcome A * World S.

Definition ret {S A} (a : A) : M S A := fun w => (Returned a, w).

Definition bind {S A B} (m : M S A) (k : A -> M S B) : M S B :=
  fun w =>
    match m w with
    | (Returned a, w') => k a w'
    | (Thrown e, w') => (Thrown e, w')
    | (Pending, w') => (Pending, w')
    end.

Definition pending {S A} : M S A := fun w => (Pending, w).

(** [try { m } catch (e) { handler e }] *)
Definition try_catch {S A} (m : M S A) (handler : JsError -> M S A) : M S A :=
  fun w =>
    match m w with
    | (Thrown e, w') => handler e w'
    | r => r
    end.

(** [if (c) m;] *)
Definition when {S} (c : bool) (m : M S unit) : M S unit :=
  if c then m else ret tt.

Declare Scope async_scope.
Delimit Scope async_scope with async.
Notation "x <- m ;; k" := (bind m (fun x => k))
  (at level 61, m at next level, right associativity) : async_scope.
Notation "m ;; k" := (bind m (fun _ => k))
  (at level 61, right associativity) : async_scope.
Open Scope async_scope.

(** [for (const x of xs) body], the loop's mutable locals threaded as [st]. *)
Fixpoint for_of {S A St} (xs : list A) (body : A -> St -> M S St) (st : St)
  : M S St :=
  match xs with
  | [] => ret st
  | x :: xs' => st' <- body x st ;; for_of xs' body st'
  end.

(* ================================================================== *)
(** * The ingestion engine *)
(* ================================================================== *)

Definition taskFields : string :=
  "name,notes,assignee.name,due_on,completed,permalink_url".

Definition task_path (taskGid : string) : string :=
  "/tasks/" ++ taskGid ++ "?opt_fields=" ++ taskFields.

Definition stories_path (taskGid : string) : string :=
  "/tasks/" ++ taskGid
  ++ "/stories?opt_fields=text,created_at,created_by.name,resource_subtype&limit=100".

Definition subtasks_path (taskGid : string) : string :=
  "/tasks/" ++ taskGid ++ "/subtasks?opt_fields=gid,name".

(** [s.resource_subtype === 'comment_added'] *)
Definition is_comment (s : AsanaStory) : bool :=
  String.eqb (resource_subtype s) "comment_added".

Section Engine.

Context {S : Type}.
Variable remote : Remote.
(** The injected sink, [log(msg, type)], as its effect on the sink's state. *)
Variable log : string -> LogType -> S -> S.

Definition emit (msg : string) (type : LogType) : M S unit :=
  fun w => (Returned tt, mkWorld (log msg type (sink w)) (issued w)).

Definition fetchAsana {T} (endpoint : string -> string -> Reply T)
    (path token : string) : M S T :=
  fun w =>
    let url := ASANA_API_BASE ++ path in
    let w' := mkWorld (sink w) (issued w ++ [url])%list in
    match fetched endpoint path token with
    | inl e => (Thrown e, w')
    | inr data => (Returned data, w')
    end.

(** The body of the loop over [subtaskList]: [recur] is the recursive
    call, [total] is [subtaskList.length], and the loop's mutable
    [completedCount] and [enrichedSubtasks] are threaded as [locals]. *)
Definition subtask_step (recur : string -> string -> nat -> M S EnrichedTask)
    (token : string) (depth total : nat) (sub : AsanaTask)
    (locals : nat * list EnrichedTask) : M S (nat * list EnrichedTask) :=
  let '(completedCount, enrichedSubtasks) := locals in
  let indent := Js.repeat "  " depth in
  let completedCount := Datatypes.S completedCount in
  when (depth =? 0)%nat
    (emit ("Processing subtask " ++ Js.decimal completedCount ++ "/"
           ++ Js.decimal total ++ ": " ++ Js.dquote ++ name sub ++ Js.dquote)
       info) ;;
  try_catch
    (fullSubtask <- recur (gid sub) token (depth + 1) ;;
     ret (completedCount, (enrichedSubtasks ++ [fullSubtask])%list))
    (fun err =>
       emit (indent ++ "Failed to fetch subtask " ++ gid sub ++ ": "
             ++ error_toString err) error ;;
       ret (completedCount, enrichedSubtasks)).

Fixpoint processTask (fuel : nat) (taskGid token : string) (depth : nat)
  {struct fuel} : M S EnrichedTask :=
  match fuel with
  | O => pending
  | Datatypes.S fuel' =>
      when (depth =? 0)%nat
        (emit ("Fetching main task details (" ++ taskGid ++ ")...") info) ;;
      task <- fetchAsana (get_task remote) (task_path taskGid) token ;;
      stories <- fetchAsana (get_stories remote) (stories_path taskGid) token ;;
      let comments := filter is_comment stories in
      subtaskList <-
        fetchAsana (get_subtasks remote) (subtasks_path taskGid) token ;;
      enrichedSubtasks <-
        (if (0 <? List.length subtaskList)%nat then
           when (depth =? 0)%nat
             (emit ("Found " ++ Js.decimal (List.length subtaskList)
                    ++ " subtasks. Processing...") info) ;;
           locals <-
             for_of subtaskList
               (subtask_step (processTask fuel') token depth
                  (List.length subtaskList))
               (0, []) ;;
           ret (snd locals)
         else ret []) ;;
      ret (mkEnriched task comments enrichedSubtasks)
  end.

End Engine.

(** [ingest]: [processTask] with its default [depth = 0]. *)
Definition ingest {S} (remote : Remote) (log : string -> LogType -> S -> S)
    (fuel : nat) (taskGid token : string) : M S EnrichedTask :=
  processTask remote log fuel taskGid token 0.

(** The sink of [App.tsx], [addLog], less the random [id] and the clock's
    [timestamp] it attaches: the entries in emission order. *)
Definition addLog (message : string) (type : LogType)
    (logs : list (string * LogType)) : list (string * LogType) :=
  (logs ++ [(message, type)])%list.

Definition has_type (ty : LogType) (entry : string * LogType) : bool :=
  match snd entry, ty with
  | info, info | success, success | error, error => true
  | _, _ => false
  end.

(** A fresh world for [addLog]: nothing logged, nothing fetched. *)
Definition fresh : World (list (string * LogType)) := mkWorld [] [].

(** The ingestion of [taskGid] at [depth], observed from a fresh world: its
    outcome, the entries it logs and the URLs it fetches. *)
Definition run (remote : Remote) (fuel : nat) (taskGid token : string)
    (depth : nat) : Outcome EnrichedTask * World (list (string * LogType)) :=
  processTask remote addLog fuel taskGid token depth fresh.

Definition outcome_of (remote : Remote) (fuel : nat) (taskGid token : string)
    (depth : nat) : Outcome EnrichedTask :=
  fst (run remote fuel taskGid token depth).

Definition logged (remote : Remote) (fuel : nat) (taskGid token : string)
    (depth : nat) : list (string * LogType) :=
  sink (snd (run remote fuel taskGid token depth)).

Definition requested (remote : Remote) (fuel : nat) (taskGid token : string)
    (depth : nat) : list string :=
  issued (snd (run remote fuel taskGid token depth)).

(** The subtask tree the service shows below [taskGid] has fewer than [n]
    levels: every path of listed subtasks ends, within [n] nodes, at a node
    one of whose three reads fails or whose listing is empty. *)
Fixpoint settles (remote : Remote) (token : string) (n : nat)
    (taskGid : string) : bool :=
  match n with
  | O => false
  | Datatypes.S n' =>
      match fetched (get_task remote) (task_path taskGid) token,
            fetched (get_stories remote) (stories_path taskGid) token,
            fetched (get_subtasks remote) (subtasks_path taskGid) token with
      | inr _, inr _, inr subtaskList =>
          forallb (fun sub => settles remote token n' (gid sub)) subtaskList
      | _, _, _ => true
      end
  end.

(** The nodes of a tree: the root and every transitive child, in document
    order. *)
Fixpoint nodes (t : EnrichedTask) : list EnrichedTask :=
  match t with
  | mkEnriched _ _ children => t :: flat_map nodes children
  end.

(** The successes among the outcomes of the children, in order. *)
Definition successes (outs : list (Outcome EnrichedTask)) : list EnrichedTask :=
  flat_map (fun o => match o with Returned t => [t] | _ => [] end) outs.

(** The entry the [catch] of [processTask] logs for [sub] at [depth]. *)
Definition failure_entry (depth : nat) (sub : AsanaTask) (err : JsError)
  : string * LogType :=
  (Js.repeat "  " depth ++ "Failed to fetch subtask " ++ gid sub ++ ": "
   ++ error_toString err, error).

(** Two worlds, over two sinks, are related by [R] on the sinks' states and
    by [RI] on the requests sent. *)
Definition Rw {S1 S2} (R : S1 -> S2 -> Prop)
    (RI : list string -> list string -> Prop)
    (w1 : World S1) (w2 : World S2) : Prop :=
  R (sink w1) (sink w2) /\ RI (issued w1) (issued w2).

(** Two computations over two sinks end alike from related worlds, in
    related worlds. *)
Definition related {S1 S2 A} (R : S1 -> S2 -> Prop)
    (RI : list string -> list string -> Prop)
    (m1 : M S1 A) (m2 : M S2 A) : Prop :=
  forall w1 w2, Rw R RI w1 w2 ->
    fst (m1 w1) = fst (m2 w2) /\ Rw R RI (snd (m1 w1)) (snd (m2 w2)).

(** What a sink [log] becomes after the entries [entries], in order. *)
Definition replay {S} (log : string -> LogType -> S -> S)
    (entries : list (string * LogType)) (s : S) : S :=
  fold_left (fun s entry => log (fst entry) (snd entry) s) entries s.

Definition failed {A} (o : Outcome A) : bool :=
  match o with
  | Thrown _ => true
  | _ => false
  end.

Definition start_entry (taskGid : string) : string * LogType :=
  ("Fetching main task details (" ++ taskGid ++ ")...", info).

Definition found_entry (total : nat) : string * LogType :=
  ("Found " ++ Js.decimal total ++ " subtasks. Processing...", info).

Definition processing_entry (completedCount total : nat) (sub : AsanaTask)
  : string * LogType :=
  ("Processing subtask " ++ Js.decimal completedCount ++ "/"
   ++ Js.decimal total ++ ": " ++ Js.dquote ++ name sub ++ Js.dquote, info).

(** The entries of [depth]-0 narration: [entries] at the root, nothing
    below. *)
Definition narration (depth : nat) (entries : list (string * LogType))
  : list (string * LogType) :=
  if (depth =? 0)%nat then entries else [].

(** How the ingestion of the listed subtask [sub] ends, one level below
    [depth]. *)
Definition child_outcome (remote : Remote) (token : string) (fuel depth : nat)
    (sub : AsanaTask) : Outcome EnrichedTask :=
  outcome_of remote fuel (gid sub) token (depth + 1).

(** What one turn of the loop logs, for the subtask [sub] reached with
    [completedCount] turns done: the narration, the entries of the child's
    own ingestion, and the failure entry when the child failed. *)
Definition step_entries (remote : Remote) (fuel : nat) (token : string)
    (depth total completedCount : nat) (sub : AsanaTask)
  : list (string * LogType) :=
  (narration depth [processing_entry (Datatypes.S completedCount) total sub]
   ++ logged remote fuel (gid sub) token (depth + 1)
   ++ match child_outcome remote token fuel depth sub with
      | Thrown e => [failure_entry depth sub e]
      | _ => []
      end)%list.

Fixpoint loop_entries (remote : Remote) (fuel : nat) (token : string)
    (depth total completedCount : nat) (subs : list AsanaTask)
  : list (string * LogType) :=
  match subs with
  | [] => []
  | sub :: rest =>
      (step_entries remote fuel token depth total completedCount sub
       ++ loop_entries remote fuel token depth total
            (Datatypes.S completedCount) rest)%list
  end.

(** The three URLs a node's own reads fetch. *)
Definition own_requests (taskGid : string) : list string :=
  [ ASANA_API_BASE ++ task_path taskGid;
    ASANA_API_BASE ++ stories_path taskGid;
    ASANA_API_BASE ++ subtasks_path taskGid ].

(** The entries a node logs before its loop. *)
Definition preamble_entries (taskGid : string) (depth : nat)
    (subtaskList : list AsanaTask) : list (string * LogType) :=
  (narration depth [start_entry taskGid]
   ++ match subtaskList with
      | [] => []
      | _ :: _ => narration depth [found_entry (List.length subtaskList)]
      end)%list.

(** How the ingestion of a node can end, read off the service: with the
    error of the first of its three reads that fails; with its tree, when
    the reads succeed and no listed subtask is left pending; or not at all. *)
Section Endings.

Variable remote : Remote.
Variable token : string.

Inductive Ending (fuel : nat) (taskGid : string) (depth : nat)
  : Outcome EnrichedTask -> Prop :=
| Ends_task : forall e,
    fetched (get_task remote) (task_path taskGid) token = inl e ->
    Ending fuel taskGid depth (Thrown e)
| Ends_stories : forall t e,
    fetched (get_task remote) (task_path taskGid) token = inr t ->
    fetched (get_stories remote) (stories_path taskGid) token = inl e ->
    Ending fuel taskGid depth (Thrown e)
| Ends_subtasks : forall t cs e,
    fetched (get_task remote) (task_path taskGid) token = inr t ->
    fetched (get_stories remote) (stories_path taskGid) token = inr cs ->
    fetched (get_subtasks remote) (subtasks_path taskGid) token = inl e ->
    Ending fuel taskGid depth (Thrown e)
| Ends_tree : forall t cs subtaskList,
    fetched (get_task remote) (task_path taskGid) token = inr t ->
    fetched (get_stories remote) (stories_path taskGid) token = inr cs ->
    fetched (get_subtasks remote) (subtasks_path taskGid) token
      = inr subtaskList ->
    Forall (fun sub => child_outcome remote token fuel depth sub <> Pending)
      subtaskList ->
    Ending fuel taskGid depth
      (Returned (mkEnriched t (filter is_comment cs)
                   (successes
                      (map (child_outcome remote token fuel depth)
                         subtaskList))))
| Ends_pending : forall t cs subtaskList,
    fetched (get_task remote) (task_path taskGid) token = inr t ->
    fetched (get_stories remote) (stories_path taskGid) token = inr cs ->
    fetched (get_subtasks remote) (subtasks_path taskGid) token
      = inr subtaskList ->
    Exists (fun sub => child_outcome remote token fuel depth sub = Pending)
      subtaskList ->
    Ending fuel taskGid depth Pending.

End Endings.

(** [s.endsWith(suffix)] *)
Definition ends_with (suffix s : string) : bool :=
  Js.startsWith (Js.rev_string suffix) (Js.rev_string s).

(** A request for activity entries: its URL ends with the query of
    [stories_path], whose last parameter is [limit=100]. *)
Definition is_activity_request (url : string) : bool :=
  ends_with
    "/stories?opt_fields=text,created_at,created_by.name,resource_subtype&limit=100"
    url.

Definition activity_requests (urls : list string) : nat :=
  List.length (filter is_activity_request urls).

Definition errors (entries : list (string * LogType)) : list (string * LogType) :=
  filter (has_type error) entries.

(** The service holds [held g] as the activity entries of task [g] and
    honours the [limit] of a request: it answers with the first 100. *)
Definition honours_limit (remote : Remote) (token : string)
    (held : string -> list AsanaStory) : Prop :=
  forall g entries,
    fetched (get_stories remote) (stories_path g) token = inr entries ->
    entries = firstn 100 (held g).

(* ================================================================== *)
(** * The renderer *)
(* ================================================================== *)

(** The glyphs, byte for byte as the source file spells them. *)
Definition glyph_completed : string :=
  Js.of_codes [195; 162; 197; 147; 226; 128; 166].
Definition glyph_incomplete : string :=
  Js.of_codes [195; 162; 194; 173; 226; 128; 162].
Definition glyph_speaking : string :=
  Js.of_codes [195; 176; 197; 184; 226; 128; 148; 194; 163; 195; 175; 194; 184].

(** [xs.forEach((x, index) => ...)] where the callback appends to the
    enclosing [md]. *)
Fixpoint forEach {A} (callback : A -> nat -> string -> string) (xs : list A)
    (index : nat) (md : string) : string :=
  match xs with
  | [] => md
  | x :: xs' => forEach callback xs' (Datatypes.S index) (callback x index md)
  end.

(** [user?.name || dflt] *)
Definition name_or (user : option AsanaUser) (dflt : string) : string :=
  match user with
  | Some u => if Js.truthy (user_name u) then user_name u else dflt
  | None => dflt
  end.

Section Renderer.

(** [new Date(s).toLocaleDateString('en-US', { month: 'short',
    day: 'numeric', year: 'numeric' })] and [new Date(s).toLocaleString()]. *)
Variable toLocaleDateString : string -> string.
Variable toLocaleString : string -> string.

Definition formatDate (dateStr : option string) : string :=
  match dateStr with
  | None => "No Date"
  | Some d => if Js.truthy d then toLocaleDateString d else "No Date"
  end.

(** One call of the callback of [renderSubtasks]. *)
Fixpoint renderSubtask (level : nat) (sub : EnrichedTask) (index : nat)
    (md : string) {struct sub} : string :=
  match sub with
  | mkEnriched t sub_stories sub_subtasks =>
      let headerPrefix := Js.repeat "#" (level + 2) in
      let statusIcon :=
        if completed t then glyph_completed else glyph_incomplete in
      let md := md ++ headerPrefix ++ " " ++ Js.decimal (index + 1) ++ ". "
                ++ statusIcon ++ " " ++ name t ++ Js.newline ++ Js.newline in
      let md := md ++ "*Assignee: " ++ name_or (assignee t) "Unassigned"
                ++ " | Due: " ++ formatDate (due_on t) ++ "*"
                ++ Js.newline ++ Js.newline in
      let md :=
        if Js.truthy (notes t) then
          md ++ "> " ++ Js.replace_newlines (Js.newline ++ "> ") (notes t)
          ++ Js.newline ++ Js.newline
        else md in
      let md :=
        if (0 <? List.length sub_stories)%nat then
          let md := md ++ "**Comments:**" ++ Js.newline in
          let md :=
            forEach
              (fun s _ md =>
                 let a := name_or (created_by s) "Unknown" in
                 md ++ "- **" ++ a ++ "**: "
                 ++ Js.replace_newlines " " (text s) ++ Js.newline)
              sub_stories 0 md in
          md ++ Js.newline
        else md in
      let md :=
        if (0 <? List.length sub_subtasks)%nat then
          forEach (renderSubtask (level + 1)) sub_subtasks 0 md
        else md in
      md ++ Js.newline
  end.

Definition renderSubtasks (subtasks : list EnrichedTask) (level : nat)
    (md : string) : string :=
  forEach (renderSubtask level) subtasks 0 md.

Definition generateMarkdown (t : EnrichedTask) : string :=
  let md := "" in
  let md := md ++ "# " ++ name (task t) ++ Js.newline ++ Js.newline in
  let md := md ++ "**Link:** [Open in Asana](" ++ permalink_url (task t)
            ++ ")" ++ Js.newline in
  let md := md ++ "**Assignee:** "
            ++ match assignee (task t) with
               | Some a => user_name a
               | None => "Unassigned"
               end ++ " | " in
  let md := md ++ "**Due:** " ++ formatDate (due_on (task t)) ++ " | " in
  let md := md ++ "**Status:** "
            ++ (if completed (task t)
                then glyph_completed ++ " Completed"
                else glyph_incomplete ++ " Incomplete")
            ++ Js.newline ++ Js.newline in
  let md := md ++ "## Description" ++ Js.newline ++ Js.newline in
  let md :=
    if Js.truthy (notes (task t)) then
      md ++ notes (task t) ++ Js.newline ++ Js.newline
    else md ++ "_No description provided._" ++ Js.newline ++ Js.newline in
  let md :=
    if (0 <? List.length (stories t))%nat then
      let md := md ++ "## Comments" ++ Js.newline ++ Js.newline in
      forEach
        (fun story _ md =>
           let author :=
             match created_by story with
             | Some u => user_name u
             | None => "Unknown"
             end in
           let date := toLocaleString (created_at story) in
           let md := md ++ "### " ++ glyph_speaking ++ " " ++ author ++ " - "
                     ++ date ++ Js.newline in
           let md := md ++ text story ++ Js.newline ++ Js.newline in
           md ++ "---" ++ Js.newline ++ Js.newline)
        (stories t) 0 md
    else md in
  let md :=
    if (0 <? List.length (subtasks t))%nat then
      let md := md ++ "## Subtasks" ++ Js.newline ++ Js.newline in
      renderSubtasks (subtasks t) 1 md
    else md in
  md.

End Renderer.

(** ** The shape of the document *)

(** The texts [g x index] of the elements of [xs], from [index] on, one
    after the other. *)
Fixpoint blocks {A} (g : A -> nat -> string) (xs : list A) (index : nat)
  : string :=
  match xs with
  | [] => ""
  | x :: xs' => g x index ++ blocks g xs' (Datatypes.S index)
  end.

(** The heading of a subtask at markdown depth [depth], numbered [number]. *)
Definition subtask_heading (depth number : nat) (sub : EnrichedTask) : string :=
  Js.repeat "#" depth ++ " " ++ Js.decimal number ++ ". "
  ++ (if completed (task sub) then glyph_completed else glyph_incomplete)
  ++ " " ++ name (task sub) ++ Js.newline ++ Js.newline.

Section Document.

Variable toLocaleDateString : string -> string.
Variable toLocaleString : string -> string.

(** What follows the heading of a subtask, up to its own subtasks: the
    metadata line, the quoted description, the list of comments. *)
Definition subtask_details (sub : EnrichedTask) : string :=
  "*Assignee: " ++ name_or (assignee (task sub)) "Unassigned" ++ " | Due: "
  ++ formatDate toLocaleDateString (due_on (task sub)) ++ "*"
  ++ Js.newline ++ Js.newline
  ++ (if Js.truthy (notes (task sub)) then
        "> " ++ Js.replace_newlines (Js.newline ++ "> ") (notes (task sub))
        ++ Js.newline ++ Js.newline
      else "")
  ++ match stories sub with
     | [] => ""
     | _ :: _ =>
         "**Comments:**" ++ Js.newline
         ++ blocks
              (fun s _ =>
                 "- **" ++ name_or (created_by s) "Unknown" ++ "**: "
                 ++ Js.replace_newlines " " (text s) ++ Js.newline)
              (stories sub) 0
         ++ Js.newline
     end.

(** The block of a subtask at nesting level [level], at position [index]
    of its sibling list. *)
Fixpoint subtask_block (level : nat) (sub : EnrichedTask) (index : nat)
    {struct sub} : string :=
  match sub with
  | mkEnriched t ss children =>
      subtask_heading (level + 2) (index + 1) (mkEnriched t ss children)
      ++ subtask_details (mkEnriched t ss children)
      ++ blocks (subtask_block (level + 1)) children 0
      ++ Js.newline
  end.

Definition title_and_metadata (t : EnrichedTask) : string :=
  "# " ++ name (task t) ++ Js.newline ++ Js.newline
  ++ "**Link:** [Open in Asana](" ++ permalink_url (task t) ++ ")" ++ Js.newline
  ++ "**Assignee:** "
  ++ match assignee (task t) with
     | Some a => user_name a
     | None => "Unassigned"
     end ++ " | "
  ++ "**Due:** " ++ formatDate toLocaleDateString (due_on (task t)) ++ " | "
  ++ "**Status:** "
  ++ (if completed (task t)
      then glyph_completed ++ " Completed"
      else glyph_incomplete ++ " Incomplete")
  ++ Js.newline ++ Js.newline.

Definition description_section (t : EnrichedTask) : string :=
  "## Description" ++ Js.newline ++ Js.newline
  ++ (if Js.truthy (notes (task t))
      then notes (task t) ++ Js.newline ++ Js.newline
      else "_No description provided._" ++ Js.newline ++ Js.newline).

Definition comment_block (story : AsanaStory) (index : nat) : string :=
  "### " ++ glyph_speaking ++ " "
  ++ match created_by story with
     | Some u => user_name u
     | None => "Unknown"
     end
  ++ " - " ++ toLocaleString (created_at story) ++ Js.newline
  ++ text story ++ Js.newline ++ Js.newline
  ++ "---" ++ Js.newline ++ Js.newline.

Definition comments_section (t : EnrichedTask) : string :=
  match stories t with
  | [] => ""
  | _ :: _ =>
      "## Comments" ++ Js.newline ++ Js.newline
      ++ blocks comment_block (stories t) 0
  end.

Definition subtasks_section (t : EnrichedTask) : string :=
  match subtasks t with
  | [] => ""
  | _ :: _ =>
      "## Subtasks" ++ Js.newline ++ Js.newline
      ++ blocks (subtask_block 1) (subtasks t) 0
  end.

End Document.

(** Induction on a tree, with the property available for every child. *)
Fixpoint EnrichedTask_forall_ind (P : EnrichedTask -> Prop)
    (step : forall t ss children,
        Forall P children -> P (mkEnriched t ss children))
    (e : EnrichedTask) {struct e} : P e :=
  match e with
  | mkEnriched t ss children =>
      step t ss children
        ((fix all (l : list EnrichedTask) : Forall P l :=
            match l with
            | [] => Forall_nil P
            | c :: l' =>
                Forall_cons c (EnrichedTask_forall_ind P step c) (all l')
            end) children)
  end.

(* ================================================================== *)
(** * The wording of the specification, for comparison *)
(* ================================================================== *)

Definition is_alpha (c : ascii) : bool :=
  let n := nat_of_ascii c in
  (((65 <=? n) && (n <=? 90)) || ((97 <=? n) && (n <=? 122)))%nat.

Definition is_scheme_char (c : ascii) : bool :=
  is_alpha c || Js.is_digit c
  || Ascii.eqb c "+"%char || Ascii.eqb c "-"%char || Ascii.eqb c "."%char.

(** "A scheme is present": the input starts with a letter, goes on with
    letters, digits, [+], [-] or [.], and then has a colon. *)
Definition has_scheme (s : string) : bool :=
  match s with
  | EmptyString => false
  | String c _ =>
      is_alpha c
      && let (_, rest) := Js.span is_scheme_char s in Js.startsWith ":" rest
  end.

(** "The host belongs to the tracker's domain": it is [asana.com] or one of
    its subdomains. *)
Definition host_in_domain (host : string) : bool :=
  String.eqb host "asana.com"
  || Js.startsWith (Js.rev_string ".asana.com") (Js.rev_string host).

(** The resolver as the specification words it: a scheme is prefixed when
    none is present, and a host outside the tracker's domain is rejected. *)
Definition resolve_as_stated (new_URL : string -> option URL) (input : string)
  : option string :=
  let trimmed := Js.trim input in
  if Js.re_digits trimmed then Some trimmed
  else
    match new_URL (if has_scheme trimmed then trimmed
                   else "https://" ++ trimmed) with
    | None => re_task_link trimmed
    | Some parsed =>
        if host_in_domain (hostname parsed) then
          match rev (numericSegments parsed) with
          | last_numeric :: _ => Some last_numeric
          | [] => re_task_link trimmed
          end
        else None
    end.

(** [sub] is the subtask at 1-based position [number] of a sibling list at
    nesting level [level] of [forest], the subtasks of [forest] themselves
    being at level 1. *)
Inductive Nested : nat -> nat -> EnrichedTask -> list EnrichedTask -> Prop :=
| Nested_here : forall forest index sub,
    nth_error forest index = Some sub ->
    Nested 1 (Datatypes.S index) sub forest
| Nested_below : forall forest parent level number sub,
    In parent forest ->
    Nested level number sub (subtasks parent) ->
    Nested (Datatypes.S level) number sub forest.

(* ================================================================== *)
(** * Instances on which the definitions are run *)
(* ================================================================== *)

Module Sample.

(** A [URL] constructor for the plain shape
    [scheme://host:port/path?query#fragment], enough to run the resolver on
    the shapes its documentation lists.  The theorems below hold for every
    constructor. *)
Definition new_URL (s : string) : option URL :=
match s with
| EmptyString => None
| String c _ =>
    if is_alpha c then
      let (_, after_scheme) := Js.span is_scheme_char s in
      match Js.strip_prefix "://" after_scheme with
      | None => None
      | Some r =>
          let delimiter c :=
            Ascii.eqb c "/"%char || Ascii.eqb c "?"%char || Ascii.eqb c "#"%char in
          let (authority, tail) := Js.span (fun c => negb (delimiter c)) r in
          let (host, _) :=
            Js.span (fun c => negb (Ascii.eqb c ":"%char)) authority in
          let (path, _) :=
            Js.span (fun c => negb (Ascii.eqb c "?"%char || Ascii.eqb c "#"%char))
              tail in
          if Js.truthy host
          then Some (mkURL host (if Js.truthy path then path else "/"))
          else None
      end
    else None
end.

Definition respond {T} (data : T) : Reply T :=
  inr (mkResponse 200 "OK" (inr data)).

Definition refuse {T} (code : nat) (reason : string) : Reply T :=
  inr (mkResponse code reason
         (inl (mkError "SyntaxError" "Unexpected end of JSON input"))).

Definition a_task (g n : string) : AsanaTask :=
  mkTask g n "" None None false ("https://app.asana.com/0/0/" ++ g) None.

Definition a_story (g subtype body : string) : AsanaStory :=
  mkStory g "2024-01-01T00:00:00.000Z" (Some (mkUser "7" "Ada")) subtype body
    "story".

Definition url_of (path : string) : string := ASANA_API_BASE ++ path.

(** Task 100 lists 101, 102 and 103; 102 cannot be read (404); 100 has a
    comment, a system entry and a second comment. *)
Definition remote : Remote :=
  {| get_task := fun url _ =>
       if String.eqb url (url_of (task_path "100"))
       then respond (a_task "100" "Root")
       else if String.eqb url (url_of (task_path "101"))
       then respond (a_task "101" "First")
       else if String.eqb url (url_of (task_path "103"))
       then respond (a_task "103" "Third")
       else refuse 404 "Not Found";
     get_stories := fun url _ =>
       if String.eqb url (url_of (stories_path "100"))
       then respond [ a_story "1" "comment_added" "hello";
                      a_story "2" "assigned" "assigned to Ada";
                      a_story "3" "comment_added" "bye" ]
       else respond [];
     get_subtasks := fun url _ =>
       if String.eqb url (url_of (subtasks_path "100"))
       then respond [ a_task "101" "First"; a_task "102" "Second";
                      a_task "103" "Third" ]
       else respond [] |}.

(** A service none of whose tasks has subtasks. *)
Definition flat : Remote :=
  {| get_task := fun url _ => respond (a_task "1" "Only");
     get_stories := fun url _ => respond [];
     get_subtasks := fun url _ => respond [] |}.

(** A service that knows no task. *)
Definition empty : Remote :=
  {| get_task := fun url _ => refuse 404 "Not Found";
     get_stories := fun url _ => respond [];
     get_subtasks := fun url _ => respond [] |}.

(** A service holding 150 comments on every task and serving the first
    100 of them. *)
Definition held (g : string) : list AsanaStory :=
  map (fun i => a_story (Js.decimal i) "comment_added" "again") (seq 0 150).

Definition limited : Remote :=
  {| get_task := fun url _ => respond (a_task "1" "Busy");
     get_stories := fun url _ => respond (firstn 100 (held "1"));
     get_subtasks := fun url _ => respond [] |}.

Definition toLocaleDateString (s : string) : string := s.
Definition toLocaleString (s : string) : string := s.

Definition leaf (g n : string) (done : bool) : EnrichedTask :=
  mkEnriched (mkTask g n "" None None done "" None) [] [].

(** A root with two children, the second of which has one child. *)
Definition tree : EnrichedTask :=
  mkEnriched (a_task "100" "Root") []
    [ leaf "101" "First" true;
      mkEnriched (a_task "102" "Second") [] [ leaf "104" "Deep" false ] ].

End Sample.

(* ================================================================== *)
(** * The kinds of failure of [fetchAsana] *)
(* ================================================================== *)

(** The four failures [fetchAsana] tells apart for a response that is not
    [ok]. *)
Inductive FailureKind : Type :=
| Unauthorized
| NotFound
| RateLimited
| Transport.

(** The branch of [fetchAsana] a status takes. *)
Definition kind_of_status (code : nat) : FailureKind :=
  if (code =? 401)%nat then Unauthorized
  else if (code =? 404)%nat then NotFound
  else if (code =? 429)%nat then RateLimited
  else Transport.

(** The kind, read back from the message of the error thrown. *)
Definition kind_of_message (msg : string) : FailureKind :=
  if Js.startsWith "Unauthorized: " msg then Unauthorized
  else if Js.startsWith "Not Found: " msg then NotFound
  else if Js.startsWith "Rate Limit Exceeded: " msg then RateLimited
  else Transport.

(** No token of [toks] starts with [c]. *)
Definition none_starts_with (c : ascii) (toks : list string) : Prop :=
  Forall (fun tok => match tok with
                     | EmptyString => False
                     | String a _ => a <> c
                     end) toks.

(* ================================================================== *)
(** * The narration of the root *)
(* ================================================================== *)

(** The [info] entries of a root whose listing is [subtaskList]: the opening
    line and, when the listing is not empty, the count and one line per
    listed subtask, numbered from 1. *)
Definition progress_entries (taskGid : string) (subtaskList : list AsanaTask)
  : list (string * LogType) :=
  start_entry taskGid
  :: match subtaskList with
     | [] => []
     | _ :: _ =>
         found_entry (List.length subtaskList)
         :: map (fun numbered =>
                   processing_entry (fst numbered) (List.length subtaskList)
                     (snd numbered))
              (combine (seq 1 (List.length subtaskList)) subtaskList)
     end.

(** [lines.join(sep)] *)
Fixpoint join (sep : string) (parts : list string) : string :=
  match parts with
  | [] => ""
  | [part] => part
  | part :: rest => part ++ sep ++ join sep rest
  end.

(* ================================================================== *)
(** * The caller: [handleGenerate] of [App.tsx] *)
(* ================================================================== *)

(** The state of the [App] component that [handleGenerate] reads and sets.
    A [LogEntry] is kept as its message and type: [addLog] also attaches a
    random [id] and the clock's [timestamp]. *)
Record AppState : Type := mkApp {
  st_url : string;
  st_token : string;
  isLoading : bool;
  logs : list (string * LogType);
  markdown : option string;
  st_error : option string
}.

Definition setError (e : option string) (st : AppState) : AppState :=
  mkApp (st_url st) (st_token st) (isLoading st) (logs st) (markdown st) e.

Definition setMarkdown (md : option string) (st : AppState) : AppState :=
  mkApp (st_url st) (st_token st) (isLoading st) (logs st) md (st_error st).

Definition setLogs (f : list (string * LogType) -> list (string * LogType))
    (st : AppState) : AppState :=
  mkApp (st_url st) (st_token st) (isLoading st) (f (logs st)) (markdown st)
    (st_error st).

Definition setIsLoading (b : bool) (st : AppState) : AppState :=
  mkApp (st_url st) (st_token st) b (logs st) (markdown st) (st_error st).

(** [addLog(message, type)]: [setLogs(prev => [...prev, entry])]. *)
Definition app_addLog (message : string) (type : LogType) (st : AppState)
  : AppState :=
  setLogs (fun prev => prev ++ [(message, type)])%list st.

(** A state update, as a computation. *)
Definition update (f : AppState -> AppState) : M AppState unit :=
  fun w => (Returned tt, mkWorld (f (sink w)) (issued w)).

Section App.

Variable remote : Remote.
Variable new_URL : string -> option URL.
Variable toLocaleDateString : string -> string.
Variable toLocaleString : string -> string.

(** The [try] block of [handleGenerate]. *)
Definition generate (fuel : nat) (taskGid token : string) : M AppState unit :=
  emit app_addLog "Starting ingestion process..." info ;;
  emit app_addLog ("Target Task ID: " ++ taskGid) info ;;
  enrichedTask <- processTask remote app_addLog fuel taskGid token 0 ;;
  emit app_addLog "Processing complete. Generating Markdown..." success ;;
  let md := generateMarkdown toLocaleDateString toLocaleString enrichedTask in
  update (setMarkdown (Some md)).

(** The [catch] block of [handleGenerate]. *)
Definition report (err : JsError) : M AppState unit :=
  update (setError (Some (if Js.truthy (message err) then message err
                          else "An unexpected error occurred."))) ;;
  emit app_addLog ("Failed: " ++ message err) error.

Definition handleGenerate (fuel : nat) : M AppState unit :=
  fun w =>
    let url := st_url (sink w) in
    let token := st_token (sink w) in
    (update (setError None) ;;
     update (setMarkdown None) ;;
     update (setLogs (fun _ => [])) ;;
     update (setIsLoading true) ;;
     if negb (Js.truthy (Js.trim token)) then
       update (setError (Some "Please enter your Asana Personal Access Token.")) ;;
       update (setIsLoading false)
     else
       let taskGid := extractTaskGid new_URL url in
       match taskGid with
       | Some taskGid =>
           if Js.truthy taskGid then
             try_catch (generate fuel taskGid token) report ;;
             update (setIsLoading false)
           else
             update (setError (Some "Invalid Asana URL. Could not extract Task ID.")) ;;
             update (setIsLoading false)
       | None =>
           update (setError (Some "Invalid Asana URL. Could not extract Task ID.")) ;;
           update (setIsLoading false)
       end) w.

End App.

(* ================================================================== *)
(** * More instances *)
(* ================================================================== *)

Module Fixture.


(** Task 100 lists 201 and 202, neither of which can be read. *)
Definition barren : Remote :=
  {| get_task := fun url _ =>
       if String.eqb url (Sample.url_of (task_path "100"))
       then Sample.respond (Sample.a_task "100" "Root")
       else Sample.refuse 404 "Not Found";
     get_stories := fun url _ => Sample.respond [];
     get_subtasks := fun url _ =>
       if String.eqb url (Sample.url_of (subtasks_path "100"))
       then Sample.respond [ Sample.a_task "201" "Gone";
                             Sample.a_task "202" "Gone too" ]
       else Sample.respond [] |}.

(** Task 100 lists 101, which lists 102, which cannot be read. *)
Definition deep : Remote :=
  {| get_task := fun url _ =>
       if String.eqb url (Sample.url_of (task_path "100"))
       then Sample.respond (Sample.a_task "100" "Root")
       else if String.eqb url (Sample.url_of (task_path "101"))
       then Sample.respond (Sample.a_task "101" "Child")
       else Sample.refuse 404 "Not Found";
     get_stories := fun url _ => Sample.respond [];
     get_subtasks := fun url _ =>
       if String.eqb url (Sample.url_of (subtasks_path "100"))
       then Sample.respond [Sample.a_task "101" "Child"]
       else if String.eqb url (Sample.url_of (subtasks_path "101"))
       then Sample.respond [Sample.a_task "102" "Grandchild"]
       else Sample.respond [] |}.

Definition app (url token : string) : AppState :=
  mkApp url token false [("stale", info)] (Some "stale") (Some "stale").

Definition start (url token : string) : World AppState :=
  mkWorld (app url token) [].

Definition a_subtask (body : string) : EnrichedTask :=
  mkEnriched (mkTask "5" "Quoted" body None None false "" None) [] [].

End Fixture.

(* ================================================================== *)
(** * The engine over a sink that may throw *)
(* ================================================================== *)

(** [throw e] *)
Definition throw {S A} (e : JsError) : M S A := fun w => (Thrown e, w).

(** A line, or several, up to and with its newline. *)
Definition ends_line (s : string) : Prop := exists p, s = p ++ Js.newline.

Section EngineT.

Context {S : Type}.
Variable remote : Remote.
(** The injected sink, [log(msg, type)], as a callback of any behaviour: the
    state it leaves its own data in, and the exception it throws, if it
    throws. *)
Variable logT : string -> LogType -> S -> S * option JsError.
(** The platform's [String.prototype.repeat] throws a [RangeError] for a
    negative count and for a count whose result is longer than the platform
    allows: [max_count] is the largest count it accepts for a string of two
    characters, [range_error count] the error it throws otherwise. *)
Variable max_count : Z.
Variable range_error : Z -> JsError.

Definition emitT (msg : string) (type : LogType) : M S unit :=
  fun w =>
    let (s', thrown) := logT msg type (sink w) in
    match thrown with
    | Some e => (Thrown e, mkWorld s' (issued w))
    | None => (Returned tt, mkWorld s' (issued w))
    end.

(** ['  '.repeat(count)] *)
Definition repeatT (s : string) (count : Z) : JsError + string :=
  if ((count <? 0) || (max_count <? count))%Z then inl (range_error count)
  else inr (Js.repeat s (Z.to_nat count)).

(** The body of the loop over [subtaskList], as [subtask_step]; [indent] is
    the constant of the enclosing call. *)
Definition subtask_stepT (recur : string -> string -> Z -> M S EnrichedTask)
    (token : string) (depth : Z) (indent : string) (total : nat)
    (sub : AsanaTask) (locals : nat * list EnrichedTask)
  : M S (nat * list EnrichedTask) :=
  let '(completedCount, enrichedSubtasks) := locals in
  let completedCount := Datatypes.S completedCount in
  when (depth =? 0)%Z
    (emitT ("Processing subtask " ++ Js.decimal completedCount ++ "/"
            ++ Js.decimal total ++ ": " ++ Js.dquote ++ name sub ++ Js.dquote)
       info) ;;
  try_catch
    (fullSubtask <- recur (gid sub) token (depth + 1)%Z ;;
     ret (completedCount, (enrichedSubtasks ++ [fullSubtask])%list))
    (fun err =>
       emitT (indent ++ "Failed to fetch subtask " ++ gid sub ++ ": "
              ++ error_toString err) error ;;
       ret (completedCount, enrichedSubtasks)).

(** [processTask], from its first line: the indent is computed on entry,
    before anything is logged or fetched, and [repeat] throws for a depth
    it rejects.  The depth is an integer, as every call has it: [0] by
    default, [depth + 1] in the loop. *)
Fixpoint processTaskT (fuel : nat) (taskGid token : string) (depth : Z)
  {struct fuel} : M S EnrichedTask :=
  match repeatT "  " depth with
  | inl e => throw e
  | inr indent =>
      match fuel with
      | O => pending
      | Datatypes.S fuel' =>
          when (depth =? 0)%Z
            (emitT ("Fetching main task details (" ++ taskGid ++ ")...") info) ;;
          task <- fetchAsana (get_task remote) (task_path taskGid) token ;;
          stories <-
            fetchAsana (get_stories remote) (stories_path taskGid) token ;;
          let comments := filter is_comment stories in
          subtaskList <-
            fetchAsana (get_subtasks remote) (subtasks_path taskGid) token ;;
          enrichedSubtasks <-
            (if (0 <? List.length subtaskList)%nat then
               when (depth =? 0)%Z
                 (emitT ("Found " ++ Js.decimal (List.length subtaskList)
                         ++ " subtasks. Processing...") info) ;;
               locals <-
                 for_of subtaskList
                   (subtask_stepT (processTaskT fuel') token depth indent
                      (List.length subtaskList))
                   (0, []) ;;
               ret (snd locals)
             else ret []) ;;
          ret (mkEnriched task comments enrichedSubtasks)
      end
  end.

End EngineT.

(** The sink returns: no call of it throws. *)
Definition returns {S} (logT : string -> LogType -> S -> S * option JsError)
  : Prop :=
  forall msg type s, snd (logT msg type s) = None.


Module Sinks.

(** [addLog], which returns. *)
Definition recording (msg : string) (type : LogType)
    (logs : list (string * LogType))
  : list (string * LogType) * option JsError :=
  (addLog msg type logs, None).

(** A sink that throws on the first [error] entry it is given, and returns
    on every other call; its state tells whether it has thrown. *)
Definition throwing_once (msg : string) (type : LogType) (thrown : bool)
  : bool * option JsError :=
  match type with
  | error => if thrown then (true, None) else (true, Some (Error "sink failed"))
  | _ => (thrown, None)
  end.

(** A sink that throws on every [error] entry; its state counts the calls. *)
Definition throwing (msg : string) (type : LogType) (calls : nat)
  : nat * option JsError :=
  match type with
  | error => (Datatypes.S calls, Some (Error "sink failed"))
  | _ => (Datatypes.S calls, None)
  end.

(** A sink that counts the entries, and returns. *)
Definition counting (msg : string) (type : LogType) (calls : nat)
  : nat * option JsError :=
  (Datatypes.S calls, None).

(** V8's limit for a two-character string: a result of at most
    [2^29 - 24] characters. *)
Definition max_count : Z := 268435444.

Definition range_error (count : Z) : JsError :=
  if (count <? 0)%Z then
    mkError "RangeError"
      ("Invalid count value: -" ++ Js.decimal (Z.to_nat (- count)))
  else mkError "RangeError" "Invalid string length".

End Sinks.

(* ================================================================== *)
(** * Facts about strings *)
(* ================================================================== *)

Lemma append_nil_r (s : string) : s ++ "" = s.
Proof. induction s as [|c s IH]; simpl; [reflexivity | now rewrite IH]. Qed.

Lemma append_assoc (a b c : string) : (a ++ b) ++ c = a ++ (b ++ c).
Proof. induction a as [|x a IH]; simpl; [reflexivity | now rewrite IH]. Qed.

Lemma strip_prefix_Some (p s r : string) :
  Js.strip_prefix p s = Some r <-> s = p ++ r.
Proof.
  revert s; induction p as [|a p IH]; intros s; simpl.
  - split; [intros [= ->] | intros ->]; reflexivity.
  - destruct s as [|b s].
    + split; discriminate.
    + destruct (Ascii.eqb_spec a b) as [->|Hab].
      * rewrite IH. split; [intros ->; reflexivity | intros [= ->]; reflexivity].
      * split; [discriminate | intros [= E _]; congruence].
Qed.

Lemma span_append (p : ascii -> bool) (s a b : string) :
  Js.span p s = (a, b) -> s = a ++ b.
Proof.
  revert a b; induction s as [|c s IH]; simpl; intros a b.
  - intros [= <- <-]; reflexivity.
  - destruct (p c).
    + destruct (Js.span p s) as [a' b'] eqn:E.
      intros [= <- <-]. simpl. now rewrite (IH a' b' eq_refl).
    + intros [= <- <-]; reflexivity.
Qed.

Lemma span_all (p : ascii -> bool) (s a b : string) :
  Js.span p s = (a, b) -> Js.all_chars p a = true.
Proof.
  revert a b; induction s as [|c s IH]; simpl; intros a b.
  - intros [= <- <-]; reflexivity.
  - destruct (p c) eqn:Hc.
    + destruct (Js.span p s) as [a' b'] eqn:E.
      intros [= <- <-]. simpl. rewrite Hc. exact (IH a' b' eq_refl).
    + intros [= <- <-]; reflexivity.
Qed.

Lemma span_stops (p : ascii -> bool) (s a b : string) :
  Js.span p s = (a, b) -> stops p b.
Proof.
  revert a b; induction s as [|c s IH]; simpl; intros a b.
  - intros [= <- <-]; exact I.
  - destruct (p c) eqn:Hc.
    + destruct (Js.span p s) as [a' b'] eqn:E.
      intros [= <- <-]. exact (IH a' b' eq_refl).
    + intros [= <- <-]; exact Hc.
Qed.

Lemma span_unique (p : ascii -> bool) (a b : string) :
  Js.all_chars p a = true -> stops p b -> Js.span p (a ++ b) = (a, b).
Proof.
  induction a as [|c a IH]; simpl; intros Ha Hb.
  - destruct b as [|c b]; simpl in *; [reflexivity | now rewrite Hb].
  - apply andb_true_iff in Ha as [Hc Ha]. rewrite Hc, (IH Ha Hb). reflexivity.
Qed.

(** A run of the class followed by anything: [span] takes at least the run. *)
Lemma span_at_least (p : ascii -> bool) (a b : string) :
  Js.all_chars p a = true ->
  exists a' b', Js.span p (a ++ b) = (a ++ a', b') /\ b = a' ++ b'.
Proof.
  induction a as [|c a IH]; simpl; intros Ha.
  - destruct (Js.span p b) as [a' b'] eqn:E.
    exists a', b'. split; [reflexivity | exact (span_append _ _ _ _ E)].
  - apply andb_true_iff in Ha as [Hc Ha]. rewrite Hc.
    destruct (IH Ha) as (a' & b' & E & Hb). rewrite E.
    exists a', b'. split; [reflexivity | exact Hb].
Qed.

Lemma truthy_true (s : string) : Js.truthy s = true <-> s <> "".
Proof. destruct s; simpl; split; congruence. Qed.


Lemma re_digits_spec (s : string) :
  Js.re_digits s = true <-> s <> "" /\ Js.all_chars Js.is_digit s = true.
Proof.
  destruct s as [|c s]; simpl.
  - split; [discriminate | intros [H _]; congruence].
  - split; [intros H; split; [discriminate | exact H] | intros [_ H]; exact H].
Qed.

Lemma is_digit_spec (c : ascii) :
  Js.is_digit c = true <-> 48 <= nat_of_ascii c <= 57.
Proof.
  unfold Js.is_digit. rewrite andb_true_iff, !Nat.leb_le. reflexivity.
Qed.

Lemma all_chars_Forall (p : ascii -> bool) (s : string) :
  Js.all_chars p s = true <->
  Forall (fun c => p c = true) (list_ascii_of_string s).
Proof.
  induction s as [|c s IH]; simpl.
  - split; [constructor | reflexivity].
  - rewrite andb_true_iff, IH. split.
    + intros [H1 H2]; constructor; assumption.
    + intros H; inversion H; subst; split; assumption.
Qed.


(* ================================================================== *)
(** * The fallback pattern *)
(* ================================================================== *)

Lemma match_here_sound (s d : string) : match_here s = Some d -> MatchAt s d.
Proof.
  unfold match_here.
  destruct (Js.strip_prefix "asana.com/0/" s) as [r1|] eqn:E1; [|discriminate].
  fold not_slash.
  destruct (Js.span not_slash r1) as [ctx r2] eqn:E2.
  destruct (Js.truthy ctx) eqn:Hctx; [|discriminate].
  destruct (Js.strip_prefix "/" r2) as [r3|] eqn:E3; [|discriminate].
  destruct (Js.span Js.is_digit r3) as [d' rest] eqn:E4.
  destruct (Js.truthy d') eqn:Hd; [|discriminate].
  intros [= <-].
  apply strip_prefix_Some in E1, E3.
  exists ctx, rest. repeat split.
  - rewrite E1. f_equal.
    rewrite (span_append _ _ _ _ E2), E3, (span_append _ _ _ _ E4). reflexivity.
  - now apply truthy_true.
  - exact (span_all _ _ _ _ E2).
  - apply re_digits_spec. split; [now apply truthy_true | exact (span_all _ _ _ _ E4)].
  - exact (span_stops _ _ _ _ E4).
Qed.

(** Completeness does not need the capture to be the longest run of
    digits: the matcher extends it. *)
Lemma match_here_complete (ctx d rest : string) :
  ctx <> "" -> Js.all_chars not_slash ctx = true -> Js.re_digits d = true ->
  exists d', match_here ("asana.com/0/" ++ ctx ++ "/" ++ d ++ rest) = Some (d ++ d').
Proof.
  intros Hctx Hns Hd. apply re_digits_spec in Hd as [Hd0 Hd].
  unfold match_here.
  assert (E1 : Js.strip_prefix "asana.com/0/"
                 ("asana.com/0/" ++ ctx ++ "/" ++ d ++ rest)
               = Some (ctx ++ "/" ++ d ++ rest))
    by (apply strip_prefix_Some; reflexivity).
  rewrite E1. fold not_slash.
  rewrite (span_unique not_slash ctx ("/" ++ d ++ rest) Hns eq_refl).
  apply truthy_true in Hctx. rewrite Hctx.
  assert (E3 : Js.strip_prefix "/" ("/" ++ d ++ rest) = Some (d ++ rest))
    by (apply strip_prefix_Some; reflexivity).
  rewrite E3.
  destruct (span_at_least Js.is_digit d rest Hd) as (d' & b' & E4 & _).
  rewrite E4.
  assert (Ht : Js.truthy (d ++ d') = true).
  { destruct d; [congruence | reflexivity]. }
  rewrite Ht. exists d'. reflexivity.
Qed.

Lemma re_task_link_sound (s d : string) :
  re_task_link s = Some d -> Leftmost s d.
Proof.
  induction s as [|c s IH]; cbn [re_task_link].
  - destruct (match_here "") eqn:E; [vm_compute in E|]; discriminate.
  - destruct (match_here (String c s)) as [d0|] eqn:E.
    + intros [= ->]. exists "", (String c s). repeat split.
      * now apply match_here_sound.
      * intros pre' post' _ H; simpl in H; lia.
    + intros H. destruct (IH H) as (pre & post & -> & Hm & Hmin).
      exists (String c pre), post. repeat split; [exact Hm|].
      intros pre' post' Heq Hlen.
      destruct pre' as [|c' pre']; simpl in Heq.
      * subst post'. exact E.
      * injection Heq as -> Heq. apply (Hmin pre' post' Heq). simpl in Hlen. lia.
Qed.

Lemma re_task_link_complete (pre ctx d rest : string) :
  ctx <> "" -> Js.all_chars not_slash ctx = true -> Js.re_digits d = true ->
  re_task_link (pre ++ "asana.com/0/" ++ ctx ++ "/" ++ d ++ rest) <> None.
Proof.
  intros Hctx Hns Hd.
  induction pre as [|c pre IH].
  - destruct (match_here_complete ctx d rest Hctx Hns Hd) as (d' & E).
    change ("" ++ "asana.com/0/" ++ ctx ++ "/" ++ d ++ rest)
      with ("asana.com/0/" ++ ctx ++ "/" ++ d ++ rest).
    destruct ("asana.com/0/" ++ ctx ++ "/" ++ d ++ rest) eqn:Es;
      cbn [re_task_link]; rewrite E; discriminate.
  - change (String c pre ++ "asana.com/0/" ++ ctx ++ "/" ++ d ++ rest)
      with (String c (pre ++ "asana.com/0/" ++ ctx ++ "/" ++ d ++ rest)).
    cbn [re_task_link].
    destruct (match_here _); [discriminate | exact IH].
Qed.

Lemma re_task_link_digits (s d : string) :
  re_task_link s = Some d -> Js.re_digits d = true.
Proof.
  intros H. destruct (re_task_link_sound s d H) as (pre & post & _ & Hm & _).
  destruct Hm as (ctx & rest & _ & _ & _ & Hd & _). exact Hd.
Qed.

(* ================================================================== *)
(** * The identifier resolver: [extractTaskGid] *)
(* ================================================================== *)

Lemma match_here_None (s d : string) : match_here s = None -> ~ MatchAt s d.
Proof.
  intros E (ctx & rest & -> & Hctx & Hns & Hd & _).
  destruct (match_here_complete ctx d rest Hctx Hns Hd) as (d' & E').
  congruence.
Qed.

Lemma re_task_link_None (s : string) :
  re_task_link s = None ->
  forall pre post, s = pre ++ post -> match_here post = None.
Proof.
  induction s as [|c s IH]; cbn [re_task_link]; intros H pre post Heq.
  - destruct pre; [|discriminate]. simpl in Heq. subst post. reflexivity.
  - destruct (match_here (String c s)) eqn:E; [discriminate|].
    destruct pre as [|c' pre]; simpl in Heq.
    + subst post. exact E.
    + injection Heq as _ Heq. exact (IH H pre post Heq).
Qed.

Lemma numericSegments_In (urlObj : URL) (seg : string) :
  In seg (numericSegments urlObj) <->
  In seg (Js.split "/"%char (pathname urlObj)) /\ Js.re_digits seg = true.
Proof.
  unfold numericSegments. rewrite !filter_In. split.
  - intros [[H _] Hd]. split; assumption.
  - intros [H Hd]. repeat split; try assumption.
    destruct seg; [discriminate | reflexivity].
Qed.

Lemma nth_error_last {A} (l : list A) :
  nth_error l (List.length l - 1) = hd_error (rev l).
Proof.
  induction l as [|a l IH] using rev_ind; [reflexivity|].
  rewrite rev_app_distr, length_app. simpl.
  replace (List.length l + 1 - 1) with (List.length l) by lia.
  rewrite nth_error_app2, Nat.sub_diag by lia. reflexivity.
Qed.

Section ResolverFacts.

Variable new_URL : string -> option URL.

Lemma parse_strategy_Return (cleanUrl : string) (r : option string) :
  parse_strategy new_URL cleanUrl = Return r ->
  r = None \/ exists g, r = Some g /\ Js.re_digits g = true.
Proof.
  unfold parse_strategy.
  destruct (new_URL (urlStr cleanUrl)) as [urlObj|]; [|discriminate].
  destruct (Js.includes "asana.com" (hostname urlObj)); cbn [negb].
  - destruct (0 <? List.length (numericSegments urlObj))%nat; [|discriminate].
    intros [= <-].
    destruct (nth_error _ _) as [g|] eqn:E; [right | now left].
    exists g. split; [reflexivity|].
    apply nth_error_In in E. now apply numericSegments_In in E.
  - intros [= <-]. now left.
Qed.

Lemma extractTaskGid_digits (url g : string) :
  extractTaskGid new_URL url = Some g -> Js.re_digits g = true.
Proof.
  unfold extractTaskGid.
  destruct (Js.truthy url); cbn [negb]; [|discriminate].
  destruct (Js.re_digits (Js.trim url)) eqn:Hd.
  - intros [= <-]. exact Hd.
  - destruct (parse_strategy new_URL (Js.trim url)) as [r|] eqn:Hp.
    + intros ->. destruct (parse_strategy_Return _ _ Hp) as [?|(g' & [= <-] & H)];
        [discriminate | exact H].
    + destruct (re_task_link (Js.trim url)) as [m|] eqn:Hm; [|discriminate].
      intros [= <-]. exact (re_task_link_digits _ _ Hm).
Qed.

End ResolverFacts.

(** C9.  [extractTaskGid] is total: for every [URL] constructor, failing or
    not, and every input string it returns [null] or a task id, and a task
    id it returns is a non-empty string of decimal digits. *)
Theorem extractTaskGid_total_digits (new_URL : string -> option URL)
    (url : string) :
  extractTaskGid new_URL url = None
  \/ exists g,
       extractTaskGid new_URL url = Some g
       /\ g <> ""
       /\ Forall (fun c => 48 <= nat_of_ascii c <= 57) (list_ascii_of_string g).
Proof.
  destruct (extractTaskGid new_URL url) as [g|] eqn:E; [right | now left].
  exists g. split; [reflexivity|].
  apply extractTaskGid_digits, re_digits_spec in E as [Hne Hall].
  split; [exact Hne|].
  apply all_chars_Forall in Hall.
  eapply Forall_impl; [|exact Hall].
  intros c Hc. now apply is_digit_spec.
Qed.

(** C3, as the code has it.  The rules of [extractTaskGid], first match
    wins: (1) a trimmed input made of digits only (at least one) is returned
    as it is; (2) otherwise the trimmed input is handed to the [URL]
    constructor, behind ["https://"] exactly when it does not start with
    ["http"], and when the constructor throws the result is the fallback's;
    (3) when it succeeds, a hostname that does not contain ["asana.com"]
    gives [null], otherwise the last path segment made of digits only is
    returned (67890 for the paths /0/12345/67890 and /0/12345/67890/f), and
    with no such segment the result is the fallback's; (4) the fallback
    returns what the leftmost match of [asana.com/0/<segment>/<digits>] in
    the trimmed input captures; (5) and [null] when the pattern matches
    nowhere.  The empty input gives [null]. *)
Theorem extractTaskGid_rules (new_URL : string -> option URL) (url : string) :
  let cleanUrl := Js.trim url in
  let fallback := re_task_link cleanUrl in
  (Js.re_digits cleanUrl = true -> extractTaskGid new_URL url = Some cleanUrl)
  /\ (url <> "" -> Js.re_digits cleanUrl = false ->
      match new_URL (if Js.startsWith "http" cleanUrl then cleanUrl
                     else "https://" ++ cleanUrl) with
      | None => extractTaskGid new_URL url = fallback
      | Some urlObj =>
          if Js.includes "asana.com" (hostname urlObj) then
            match rev (numericSegments urlObj) with
            | last_numeric :: _ => extractTaskGid new_URL url = Some last_numeric
            | [] => extractTaskGid new_URL url = fallback
            end
          else extractTaskGid new_URL url = None
      end)
  /\ (forall urlObj seg,
        In seg (numericSegments urlObj) <->
        In seg (Js.split "/"%char (pathname urlObj)) /\ Js.re_digits seg = true)
  /\ (forall host,
        rev (numericSegments (mkURL host "/0/12345/67890"))
          = ["67890"; "12345"; "0"]
        /\ rev (numericSegments (mkURL host "/0/12345/67890/f"))
          = ["67890"; "12345"; "0"])
  /\ (forall d, fallback = Some d -> Leftmost cleanUrl d)
  /\ (fallback = None ->
      forall pre post d, cleanUrl = pre ++ post -> ~ MatchAt post d)
  /\ (url = "" -> extractTaskGid new_URL url = None).
Proof.
  intros cleanUrl fallback. repeat apply conj.
  - intros Hd. unfold extractTaskGid. fold cleanUrl.
    destruct url as [|c url]; [discriminate Hd|].
    cbn [Js.truthy negb]. now rewrite Hd.
  - intros Hne Hd. unfold extractTaskGid, parse_strategy, urlStr.
    fold cleanUrl. fold fallback.
    apply truthy_true in Hne. rewrite Hne, Hd. cbn [negb].
    destruct (new_URL _) as [urlObj|].
    + destruct (Js.includes "asana.com" (hostname urlObj)); cbn [negb];
        [|reflexivity].
      rewrite nth_error_last.
      destruct (numericSegments urlObj) as [|a l] eqn:En using rev_ind.
      * cbn. now destruct fallback.
      * rewrite rev_app_distr, length_app. cbn [rev app List.length hd_error].
        replace (0 <? List.length l + 1)%nat with true
          by (symmetry; apply Nat.ltb_lt; lia).
        reflexivity.
    + now destruct fallback.
  - apply numericSegments_In.
  - intros host. split; reflexivity.
  - intros d. apply re_task_link_sound.
  - intros Hnone pre post d Heq.
    apply match_here_None. exact (re_task_link_None _ Hnone pre post Heq).
  - intros ->. reflexivity.
Qed.

(** The rules at work on the shapes the documentation of [extractTaskGid]
    lists. *)
Lemma extractTaskGid_rules_witness :
  extractTaskGid Sample.new_URL "  67890 " = Some "67890"
  /\ extractTaskGid Sample.new_URL "https://app.asana.com/0/12345/67890/f"
     = Some "67890"
  /\ extractTaskGid Sample.new_URL "app.asana.com/0/inbox/67890" = Some "67890"
  /\ extractTaskGid Sample.new_URL "https://example.com/0/12345/67890" = None
  /\ extractTaskGid Sample.new_URL "see asana.com/0/foo/42" = Some "42"
  /\ Leftmost "see asana.com/0/foo/42" "42".
Proof.
  pose proof (extractTaskGid_rules Sample.new_URL "  67890 ") as R1.
  pose proof (extractTaskGid_rules Sample.new_URL
                "https://app.asana.com/0/12345/67890/f") as R2.
  pose proof (extractTaskGid_rules Sample.new_URL
                "app.asana.com/0/inbox/67890") as R3.
  pose proof (extractTaskGid_rules Sample.new_URL
                "https://example.com/0/12345/67890") as R4.
  pose proof (extractTaskGid_rules Sample.new_URL "see asana.com/0/foo/42")
    as R5.
  cbv zeta in R1, R2, R3, R4, R5.
  destruct R1 as (R1 & _).
  destruct R2 as (_ & R2 & _).
  destruct R3 as (_ & R3 & _).
  destruct R4 as (_ & R4 & _).
  destruct R5 as (_ & R5 & _ & _ & L5 & _).
  repeat apply conj.
  - exact (R1 eq_refl).
  - exact (R2 ltac:(discriminate) eq_refl).
  - exact (R3 ltac:(discriminate) eq_refl).
  - exact (R4 ltac:(discriminate) eq_refl).
  - exact (R5 ltac:(discriminate) eq_refl).
  - exact (L5 "42" eq_refl).
Defined.

(** C3, as stated, fails on the code.  An input with a scheme other than
    http(s) is still put behind ["https://"], and is rejected where the
    stated rules find the id; an input without a scheme that starts with
    ["http"] is not put behind one; and a host outside the tracker's domain
    whose name contains ["asana.com"] is accepted where the stated rules
    reject it. *)
Lemma extractTaskGid_scheme_host_counterexample :
  (has_scheme "ftp://app.asana.com/0/1/2" = true
   /\ urlStr "ftp://app.asana.com/0/1/2" = "https://ftp://app.asana.com/0/1/2"
   /\ extractTaskGid Sample.new_URL "ftp://app.asana.com/0/1/2" = None
   /\ resolve_as_stated Sample.new_URL "ftp://app.asana.com/0/1/2" = Some "2")
  /\ (has_scheme "http.asana.com/12345" = false
      /\ urlStr "http.asana.com/12345" = "http.asana.com/12345"
      /\ extractTaskGid Sample.new_URL "http.asana.com/12345" = None
      /\ resolve_as_stated Sample.new_URL "http.asana.com/12345" = Some "12345")
  /\ (host_in_domain "notasana.com" = false
      /\ extractTaskGid Sample.new_URL "https://notasana.com/0/1/2" = Some "2"
      /\ resolve_as_stated Sample.new_URL "https://notasana.com/0/1/2" = None).
Proof. repeat split; vm_compute; reflexivity. Qed.

(* ================================================================== *)
(** * The sink is a parameter: relational parametricity of the engine *)
(* ================================================================== *)

Section Parametricity.

Context {S1 S2 : Type}.
Variable remote : Remote.
Variable log1 : string -> LogType -> S1 -> S1.
Variable log2 : string -> LogType -> S2 -> S2.
Variable R : S1 -> S2 -> Prop.
Variable RI : list string -> list string -> Prop.
(** The types of entry the relation is kept under: the engine only needs
    [info] and [error]. *)
Variable allowed : LogType -> Prop.
Hypothesis allowed_info : allowed info.
Hypothesis allowed_error : allowed error.
Hypothesis R_log :
  forall m t s1 s2, allowed t -> R s1 s2 -> R (log1 m t s1) (log2 m t s2).
Hypothesis RI_snoc :
  forall u i1 i2, RI i1 i2 -> RI (i1 ++ [u])%list (i2 ++ [u])%list.

Local Abbreviation rel := (related R RI).

Lemma related_ret {A} (a : A) : rel (ret a) (ret a).
Proof. intros w1 w2 H. split; [reflexivity | exact H]. Qed.

Lemma related_pending {A} : rel (@pending S1 A) (@pending S2 A).
Proof. intros w1 w2 H. split; [reflexivity | exact H]. Qed.

Lemma related_bind {A B} (m1 : M S1 A) (m2 : M S2 A)
    (k1 : A -> M S1 B) (k2 : A -> M S2 B) :
  rel m1 m2 -> (forall a, rel (k1 a) (k2 a)) -> rel (bind m1 k1) (bind m2 k2).
Proof.
  intros Hm Hk w1 w2 H. unfold bind.
  destruct (Hm w1 w2 H) as [Ho Hw].
  destruct (m1 w1) as [o1 w1'], (m2 w2) as [o2 w2']. simpl in Ho, Hw.
  subst o2. destruct o1 as [a|e|].
  - exact (Hk a w1' w2' Hw).
  - split; [reflexivity | exact Hw].
  - split; [reflexivity | exact Hw].
Qed.

Lemma related_try_catch {A} (m1 : M S1 A) (m2 : M S2 A)
    (h1 : JsError -> M S1 A) (h2 : JsError -> M S2 A) :
  rel m1 m2 -> (forall e, rel (h1 e) (h2 e)) ->
  rel (try_catch m1 h1) (try_catch m2 h2).
Proof.
  intros Hm Hh w1 w2 H. unfold try_catch.
  destruct (Hm w1 w2 H) as [Ho Hw].
  destruct (m1 w1) as [o1 w1'], (m2 w2) as [o2 w2']. simpl in Ho, Hw.
  subst o2. destruct o1 as [a|e|].
  - split; [reflexivity | exact Hw].
  - exact (Hh e w1' w2' Hw).
  - split; [reflexivity | exact Hw].
Qed.

Lemma related_when (c : bool) (m1 : M S1 unit) (m2 : M S2 unit) :
  rel m1 m2 -> rel (when c m1) (when c m2).
Proof. intros Hm. destruct c; [exact Hm | apply related_ret]. Qed.

Lemma related_emit (msg : string) (type : LogType) :
  allowed type -> rel (emit log1 msg type) (emit log2 msg type).
Proof.
  intros Ht w1 w2 [Hs Hi]. split; [reflexivity|].
  split; simpl; [now apply R_log | exact Hi].
Qed.

Lemma related_fetchAsana {T} (endpoint : string -> string -> Reply T)
    (path token : string) :
  rel (fetchAsana endpoint path token) (fetchAsana endpoint path token).
Proof.
  intros w1 w2 [Hs Hi]. unfold fetchAsana.
  destruct (fetched endpoint path token); (split; [reflexivity|]);
    (split; simpl; [exact Hs | now apply RI_snoc]).
Qed.

Lemma related_for_of {A St} (b1 : A -> St -> M S1 St) (b2 : A -> St -> M S2 St) :
  (forall x st, rel (b1 x st) (b2 x st)) ->
  forall xs st, rel (for_of xs b1 st) (for_of xs b2 st).
Proof.
  intros Hb xs. induction xs as [|x xs IH]; intros st; cbn [for_of].
  - apply related_ret.
  - apply related_bind; [apply Hb | intros st'; apply IH].
Qed.

Lemma related_processTask (fuel : nat) :
  forall taskGid token depth,
    rel (processTask remote log1 fuel taskGid token depth)
        (processTask remote log2 fuel taskGid token depth).
Proof.
  induction fuel as [|fuel IH]; intros taskGid token depth; cbn [processTask].
  - apply related_pending.
  - apply related_bind; [apply related_when, related_emit, allowed_info | intros _].
    apply related_bind; [apply related_fetchAsana | intros t].
    apply related_bind; [apply related_fetchAsana | intros cs].
    apply related_bind; [apply related_fetchAsana | intros subtaskList].
    apply related_bind; [| intros children; apply related_ret].
    destruct (0 <? List.length subtaskList)%nat; [| apply related_ret].
    apply related_bind; [apply related_when, related_emit, allowed_info | intros _].
    apply related_bind; [| intros locals; apply related_ret].
    apply related_for_of. intros sub [completedCount enriched].
    unfold subtask_step.
    apply related_bind; [apply related_when, related_emit, allowed_info | intros _].
    apply related_try_catch.
    + apply related_bind; [apply IH | intros full; apply related_ret].
    + intros err.
      apply related_bind;
        [apply related_emit, allowed_error | intros _; apply related_ret].
Qed.

End Parametricity.

(** Over sinks that return, whatever their state types and the states they
    start in, [processTask] ends alike for the same fuel: with the same
    tree, the same exception or, both, not at all. *)
Lemma processTask_ignores_the_sink {S1 S2 : Type} (remote : Remote)
    (log1 : string -> LogType -> S1 -> S1) (log2 : string -> LogType -> S2 -> S2)
    (fuel : nat) (taskGid token : string) (depth : nat)
    (w1 : World S1) (w2 : World S2) :
  fst (processTask remote log1 fuel taskGid token depth w1)
  = fst (processTask remote log2 fuel taskGid token depth w2).
Proof.
  apply (related_processTask remote log1 log2 (fun _ _ => True) (fun _ _ => True)
           (fun _ => True));
    try (intros; exact I).
  split; exact I.
Qed.

(** Every run is the run from a fresh world, replayed: the outcome is the
    same, the sink receives the entries [logged], in order, and the requests
    [requested] are sent. *)
Lemma processTask_replay {S : Type} (remote : Remote)
    (log : string -> LogType -> S -> S)
    (fuel : nat) (taskGid token : string) (depth : nat) (w : World S) :
  processTask remote log fuel taskGid token depth w
  = (outcome_of remote fuel taskGid token depth,
     mkWorld (replay log (logged remote fuel taskGid token depth) (sink w))
             (issued w ++ requested remote fuel taskGid token depth)%list).
Proof.
  destruct (related_processTask remote log addLog
              (fun s l => s = replay log l (sink w))
              (fun i1 i2 => i1 = issued w ++ i2)%list (fun _ => True)) with
    (fuel := fuel) (taskGid := taskGid) (token := token) (depth := depth)
    (w1 := w) (w2 := fresh) as [Ho [Hs Hi]].
  - exact I.
  - exact I.
  - intros m t s1 s2 _ ->. unfold replay, addLog. now rewrite fold_left_app.
  - intros u i1 i2 ->. now rewrite app_assoc.
  - split; simpl; [reflexivity | now rewrite app_nil_r].
  - unfold outcome_of, logged, requested, run.
    destruct (processTask remote log fuel taskGid token depth w) as [o [s i]].
    simpl in Ho, Hs, Hi. now subst.
Qed.

Lemma replay_addLog (entries logs : list (string * LogType)) :
  replay addLog entries logs = (logs ++ entries)%list.
Proof.
  revert logs; induction entries as [|[m t] entries IH]; intros logs;
    unfold replay in *; simpl.
  - now rewrite app_nil_r.
  - rewrite IH. unfold addLog. simpl. now rewrite <- app_assoc.
Qed.

Lemma processTask_frame (remote : Remote) (fuel : nat) (taskGid token : string)
    (depth : nat) (w : World (list (string * LogType))) :
  processTask remote addLog fuel taskGid token depth w
  = (outcome_of remote fuel taskGid token depth,
     mkWorld (sink w ++ logged remote fuel taskGid token depth)%list
             (issued w ++ requested remote fuel taskGid token depth)%list).
Proof. now rewrite processTask_replay, replay_addLog. Qed.

(** The engine logs [info] and [error] entries only: never [success]. *)
Lemma never_success (remote : Remote) (fuel : nat) (taskGid token : string)
    (depth : nat) :
  filter (has_type success) (logged remote fuel taskGid token depth) = [].
Proof.
  destruct (related_processTask remote addLog addLog
              (fun l _ => filter (has_type success) l = [])
              (fun _ _ => True) (fun t => t <> success)) with
    (fuel := fuel) (taskGid := taskGid) (token := token) (depth := depth)
    (w1 := fresh) (w2 := fresh) as [_ [Hs _]].
  - discriminate.
  - discriminate.
  - intros m t s1 s2 Ht Hs. unfold addLog. rewrite filter_app, Hs.
    destruct t; try reflexivity. congruence.
  - intros; exact I.
  - split; [reflexivity | exact I].
  - exact Hs.
Qed.

(* ================================================================== *)
(** * The ingestion engine: what a run does *)
(* ================================================================== *)

Section Runs.

Variable remote : Remote.
Variable token : string.

Local Abbreviation Log := (list (string * LogType)).
Local Abbreviation child := (child_outcome remote token).

(** One turn of the loop. *)
Lemma subtask_step_run (fuel depth total : nat) (sub : AsanaTask)
    (completedCount : nat) (acc : list EnrichedTask) (w : World Log) :
  subtask_step addLog (processTask remote addLog fuel) token depth total sub
    (completedCount, acc) w
  = (match child fuel depth sub with
     | Returned t => Returned (S completedCount, (acc ++ [t])%list)
     | Thrown _ => Returned (S completedCount, acc)
     | Pending => Pending
     end,
     mkWorld
       (sink w ++ step_entries remote fuel token depth total completedCount sub)%list
       (issued w ++ requested remote fuel (gid sub) token (depth + 1))%list).
Proof.
  unfold subtask_step, step_entries, child_outcome, narration, bind,
    try_catch, when.
  destruct (depth =? 0)%nat; cbn [emit ret sink issued];
    rewrite processTask_frame; cbn [sink issued];
    destruct (outcome_of remote fuel (gid sub) token (depth + 1)) as [t|e|];
    cbn [emit ret sink issued addLog];
    unfold addLog, failure_entry, processing_entry;
    rewrite <- ?app_assoc, ?app_nil_r; reflexivity.
Qed.

(** The whole loop, when no child's ingestion is left pending. *)
Lemma loop_run (fuel depth total : nat) (subs : list AsanaTask) :
  Forall (fun sub => child fuel depth sub <> Pending) subs ->
  forall completedCount acc (w : World Log),
    for_of subs
      (subtask_step addLog (processTask remote addLog fuel) token depth total)
      (completedCount, acc) w
    = (Returned (completedCount + List.length subs,
                 (acc ++ successes (map (child fuel depth) subs))%list),
       mkWorld
         (sink w ++ loop_entries remote fuel token depth total completedCount subs)%list
         (issued w
          ++ flat_map (fun sub => requested remote fuel (gid sub) token (depth + 1))
               subs)%list).
Proof.
  induction 1 as [|sub subs Hsub _ IH]; intros completedCount acc w.
  - cbn [for_of ret List.length map successes flat_map loop_entries].
    rewrite Nat.add_0_r, !app_nil_r. now destruct w.
  - cbn [for_of]. unfold bind at 1. rewrite subtask_step_run.
    destruct (child fuel depth sub) as [t|e|] eqn:E; [| |congruence];
      rewrite IH; cbn [sink issued List.length map successes flat_map loop_entries];
      rewrite ?E, <- ?app_assoc, ?Nat.add_succ_r; reflexivity.
Qed.

(** A pending child leaves the loop pending. *)
Lemma loop_pending (fuel depth total : nat) (subs : list AsanaTask) :
  Exists (fun sub => child fuel depth sub = Pending) subs ->
  forall completedCount acc (w : World Log),
    fst (for_of subs
           (subtask_step addLog (processTask remote addLog fuel) token depth total)
           (completedCount, acc) w) = Pending.
Proof.
  induction subs as [|sub subs IH]; intros H completedCount acc w.
  - inversion H.
  - cbn [for_of]. unfold bind at 1. rewrite subtask_step_run.
    destruct (child fuel depth sub) as [t|e|] eqn:E; [| |reflexivity];
      (inversion H as [? ? H1|? ? H1]; subst; [congruence | now apply IH]).
Qed.

Lemma all_or_pending (fuel depth : nat) (subs : list AsanaTask) :
  Forall (fun sub => child fuel depth sub <> Pending) subs
  \/ Exists (fun sub => child fuel depth sub = Pending) subs.
Proof.
  induction subs as [|sub subs [IH|IH]].
  - left; constructor.
  - destruct (child fuel depth sub) eqn:E.
    + left; constructor; [congruence | exact IH].
    + left; constructor; [congruence | exact IH].
    + right; now constructor.
  - right; now constructor 2.
Qed.

(** ** The three reads of a node *)

Lemma run_task_fails (fuel : nat) (taskGid : string) (depth : nat) (e : JsError) :
  fetched (get_task remote) (task_path taskGid) token = inl e ->
  run remote (S fuel) taskGid token depth
  = (Thrown e,
     mkWorld (narration depth [start_entry taskGid])
             [ASANA_API_BASE ++ task_path taskGid]).
Proof.
  intros E. unfold run, narration. cbn [processTask].
  unfold bind, when, fetchAsana.
  destruct (depth =? 0)%nat; cbn [emit ret sink issued fresh]; rewrite E;
    reflexivity.
Qed.

Lemma run_stories_fail (fuel : nat) (taskGid : string) (depth : nat)
    (t : AsanaTask) (e : JsError) :
  fetched (get_task remote) (task_path taskGid) token = inr t ->
  fetched (get_stories remote) (stories_path taskGid) token = inl e ->
  run remote (S fuel) taskGid token depth
  = (Thrown e,
     mkWorld (narration depth [start_entry taskGid])
             [ASANA_API_BASE ++ task_path taskGid;
              ASANA_API_BASE ++ stories_path taskGid]).
Proof.
  intros E1 E2. unfold run, narration. cbn [processTask].
  unfold bind, when, fetchAsana.
  destruct (depth =? 0)%nat; cbn [emit ret sink issued fresh];
    rewrite E1; cbn [sink issued]; rewrite E2; reflexivity.
Qed.

Lemma run_subtasks_fail (fuel : nat) (taskGid : string) (depth : nat)
    (t : AsanaTask) (cs : list AsanaStory) (e : JsError) :
  fetched (get_task remote) (task_path taskGid) token = inr t ->
  fetched (get_stories remote) (stories_path taskGid) token = inr cs ->
  fetched (get_subtasks remote) (subtasks_path taskGid) token = inl e ->
  run remote (S fuel) taskGid token depth
  = (Thrown e, mkWorld (narration depth [start_entry taskGid])
                       (own_requests taskGid)).
Proof.
  intros E1 E2 E3. unfold run, narration. cbn [processTask].
  unfold bind, when, fetchAsana.
  destruct (depth =? 0)%nat; cbn [emit ret sink issued fresh];
    rewrite E1; cbn [sink issued]; rewrite E2; cbn [sink issued]; rewrite E3;
    reflexivity.
Qed.

(** The run of a node whose three reads succeed, up to its loop. *)
Lemma run_reads_ok (fuel : nat) (taskGid : string) (depth : nat)
    (t : AsanaTask) (cs : list AsanaStory) (subtaskList : list AsanaTask) :
  fetched (get_task remote) (task_path taskGid) token = inr t ->
  fetched (get_stories remote) (stories_path taskGid) token = inr cs ->
  fetched (get_subtasks remote) (subtasks_path taskGid) token = inr subtaskList ->
  run remote (S fuel) taskGid token depth
  = match subtaskList with
    | [] => (Returned (mkEnriched t (filter is_comment cs) []),
             mkWorld (narration depth [start_entry taskGid])
                     (own_requests taskGid))
    | _ :: _ =>
        match
          for_of subtaskList
            (subtask_step addLog (processTask remote addLog fuel) token depth
               (List.length subtaskList))
            (0, [])
            (mkWorld (narration depth [start_entry taskGid]
                      ++ narration depth [found_entry (List.length subtaskList)])%list
                     (own_requests taskGid))
        with
        | (Returned locals, w) =>
            (Returned (mkEnriched t (filter is_comment cs) (snd locals)), w)
        | (Thrown e, w) => (Thrown e, w)
        | (Pending, w) => (Pending, w)
        end
    end.
Proof.
  intros E1 E2 E3. unfold run, narration. cbn [processTask].
  unfold bind at 1 2 3 4, when, fetchAsana.
  destruct (depth =? 0)%nat; cbn [emit ret sink issued fresh];
    rewrite E1; cbn [sink issued]; rewrite E2; cbn [sink issued]; rewrite E3;
    cbn [sink issued];
    (destruct subtaskList as [|sub subs]; [reflexivity|]);
    cbn [List.length Nat.ltb Nat.leb];
    unfold bind at 1 2 3; cbn [emit ret sink issued app addLog];
    unfold start_entry, found_entry, own_requests;
    match goal with
    | |- context [for_of ?l ?b ?s ?w] => destruct (for_of l b s w) as [[?|?|] ?]
    end; reflexivity.
Qed.

End Runs.

Section Settling.

Variable remote : Remote.
Variable token : string.

Local Abbreviation child := (child_outcome remote token).
Local Abbreviation read_task g := (fetched (get_task remote) (task_path g) token).
Local Abbreviation read_stories g :=
  (fetched (get_stories remote) (stories_path g) token).
Local Abbreviation read_subtasks g :=
  (fetched (get_subtasks remote) (subtasks_path g) token).

(** The run of a node whose reads succeed and none of whose children is
    left pending. *)
Lemma run_settled (fuel : nat) (taskGid : string) (depth : nat)
    (t : AsanaTask) (cs : list AsanaStory) (subtaskList : list AsanaTask) :
  read_task taskGid = inr t ->
  read_stories taskGid = inr cs ->
  read_subtasks taskGid = inr subtaskList ->
  Forall (fun sub => child fuel depth sub <> Pending) subtaskList ->
  run remote (S fuel) taskGid token depth
  = (Returned (mkEnriched t (filter is_comment cs)
                 (successes (map (child fuel depth) subtaskList))),
     mkWorld
       (preamble_entries taskGid depth subtaskList
        ++ loop_entries remote fuel token depth (List.length subtaskList) 0
             subtaskList)%list
       (own_requests taskGid
        ++ flat_map (fun sub => requested remote fuel (gid sub) token (depth + 1))
             subtaskList)%list).
Proof.
  intros E1 E2 E3 Hall. rewrite (run_reads_ok _ _ _ _ _ _ _ _ E1 E2 E3).
  unfold preamble_entries.
  destruct subtaskList as [|sub subs].
  - cbn [loop_entries flat_map map successes]. now rewrite !app_nil_r.
  - rewrite (loop_run remote token fuel depth _ _ Hall). reflexivity.
Qed.

Lemma run_pending (fuel : nat) (taskGid : string) (depth : nat)
    (t : AsanaTask) (cs : list AsanaStory) (subtaskList : list AsanaTask) :
  read_task taskGid = inr t ->
  read_stories taskGid = inr cs ->
  read_subtasks taskGid = inr subtaskList ->
  Exists (fun sub => child fuel depth sub = Pending) subtaskList ->
  outcome_of remote (S fuel) taskGid token depth = Pending.
Proof.
  intros E1 E2 E3 Hex. unfold outcome_of.
  rewrite (run_reads_ok _ _ _ _ _ _ _ _ E1 E2 E3).
  destruct subtaskList as [|sub subs]; [inversion Hex|].
  pose proof (loop_pending remote token fuel depth
                (List.length (sub :: subs)) _ Hex 0 []) as Hp.
  match goal with
  | |- context [for_of ?l ?b ?s ?w] =>
      specialize (Hp w); destruct (for_of l b s w) as [[?|?|] ?]
  end; simpl in Hp; try discriminate; reflexivity.
Qed.

Lemma outcome_Ending (fuel : nat) (taskGid : string) (depth : nat) :
  Ending remote token fuel taskGid depth (outcome_of remote (S fuel) taskGid token depth).
Proof.
  destruct (read_task taskGid) as [e|t] eqn:E1.
  { unfold outcome_of. rewrite (run_task_fails _ _ _ _ _ _ E1).
    now apply Ends_task. }
  destruct (read_stories taskGid) as [e|cs] eqn:E2.
  { unfold outcome_of. rewrite (run_stories_fail _ _ _ _ _ _ _ E1 E2).
    now apply Ends_stories with t. }
  destruct (read_subtasks taskGid) as [e|subtaskList] eqn:E3.
  { unfold outcome_of. rewrite (run_subtasks_fail _ _ _ _ _ _ _ _ E1 E2 E3).
    now apply Ends_subtasks with t cs. }
  destruct (all_or_pending remote token fuel depth subtaskList) as [H|H].
  - unfold outcome_of. rewrite (run_settled _ _ _ _ _ _ E1 E2 E3 H).
    now apply Ends_tree.
  - rewrite (run_pending _ _ _ _ _ _ E1 E2 E3 H).
    now apply Ends_pending with t cs subtaskList.
Qed.

(** A node whose ingestion throws has logged no more than the root's
    opening line: below the root, nothing. *)
Lemma thrown_logged (fuel : nat) (taskGid : string) (depth : nat) (e : JsError) :
  outcome_of remote fuel taskGid token depth = Thrown e ->
  logged remote fuel taskGid token depth = narration depth [start_entry taskGid].
Proof.
  destruct fuel as [|fuel]; [discriminate|].
  intros H. unfold outcome_of in H. unfold logged.
  destruct (read_task taskGid) as [e1|t] eqn:E1.
  { now rewrite (run_task_fails _ _ _ _ _ _ E1). }
  destruct (read_stories taskGid) as [e2|cs] eqn:E2.
  { now rewrite (run_stories_fail _ _ _ _ _ _ _ E1 E2). }
  destruct (read_subtasks taskGid) as [e3|subtaskList] eqn:E3.
  { now rewrite (run_subtasks_fail _ _ _ _ _ _ _ _ E1 E2 E3). }
  destruct (all_or_pending remote token fuel depth subtaskList) as [Hs|Hp].
  - rewrite (run_settled _ _ _ _ _ _ E1 E2 E3 Hs) in H. discriminate.
  - pose proof (run_pending _ _ _ _ _ _ E1 E2 E3 Hp) as Hq.
    unfold outcome_of in Hq. congruence.
Qed.

Lemma failed_child_logs_nothing (fuel depth : nat) (sub : AsanaTask) (e : JsError) :
  child fuel depth sub = Thrown e ->
  logged remote fuel (gid sub) token (depth + 1) = [].
Proof.
  intros H. rewrite (thrown_logged _ _ _ _ H). unfold narration.
  replace (depth + 1 =? 0)%nat with false; [reflexivity|].
  symmetry. apply Nat.eqb_neq. lia.
Qed.

(** ** Termination: enough fuel for a finite tree *)

Lemma settles_not_pending (n : nat) :
  forall taskGid depth,
    settles remote token n taskGid = true ->
    outcome_of remote n taskGid token depth <> Pending.
Proof.
  induction n as [|n IH]; intros taskGid depth; cbn [settles]; [discriminate|].
  intros Hs. destruct (outcome_Ending n taskGid depth)
    as [e E1|t e E1 E2|t cs e E1 E2 E3|t cs l E1 E2 E3 H|t cs l E1 E2 E3 H];
    try discriminate.
  rewrite E1, E2, E3 in Hs. rewrite forallb_forall in Hs.
  apply Exists_exists in H as (sub & Hin & Hp).
  exfalso. exact (IH (gid sub) (depth + 1) (Hs sub Hin) Hp).
Qed.

Lemma settled_children (n depth : nat) (subtaskList : list AsanaTask) :
  (forall sub, In sub subtaskList -> settles remote token n (gid sub) = true) ->
  Forall (fun sub => child n depth sub <> Pending) subtaskList.
Proof.
  intros H. apply Forall_forall. intros sub Hin.
  apply settles_not_pending. now apply H.
Qed.

Lemma loop_entries_ext (fuel fuel' depth total : nat) (subs : list AsanaTask) :
  (forall sub, In sub subs ->
     run remote fuel' (gid sub) token (depth + 1)
     = run remote fuel (gid sub) token (depth + 1)) ->
  forall c,
    loop_entries remote fuel' token depth total c subs
    = loop_entries remote fuel token depth total c subs.
Proof.
  induction subs as [|sub subs IH]; intros H c; cbn [loop_entries];
    [reflexivity|].
  rewrite IH by (intros; apply H; now right).
  unfold step_entries, child_outcome, outcome_of, logged.
  now rewrite (H sub (or_introl eq_refl)).
Qed.

(** More fuel than a finite tree needs changes nothing. *)
Lemma run_fuel_irrelevant (n : nat) :
  forall taskGid depth k,
    settles remote token n taskGid = true ->
    run remote (n + k) taskGid token depth = run remote n taskGid token depth.
Proof.
  induction n as [|n IH]; intros taskGid depth k; cbn [settles];
    [discriminate|].
  intros Hs. cbn [Nat.add].
  destruct (read_task taskGid) as [e|t] eqn:E1.
  { now rewrite !(run_task_fails _ _ _ _ _ _ E1). }
  destruct (read_stories taskGid) as [e|cs] eqn:E2.
  { now rewrite !(run_stories_fail _ _ _ _ _ _ _ E1 E2). }
  destruct (read_subtasks taskGid) as [e|subtaskList] eqn:E3.
  { now rewrite !(run_subtasks_fail _ _ _ _ _ _ _ _ E1 E2 E3). }
  rewrite forallb_forall in Hs.
  assert (Hrun : forall sub, In sub subtaskList ->
            run remote (n + k) (gid sub) token (depth + 1)
            = run remote n (gid sub) token (depth + 1))
    by (intros sub Hin; apply IH; now apply Hs).
  assert (Hn : Forall (fun sub => child n depth sub <> Pending) subtaskList)
    by (now apply settled_children).
  assert (Hnk : Forall (fun sub => child (n + k) depth sub <> Pending) subtaskList).
  { apply Forall_forall. intros sub Hin.
    unfold child_outcome, outcome_of. rewrite (Hrun sub Hin).
    rewrite Forall_forall in Hn. exact (Hn sub Hin). }
  rewrite (run_settled _ _ _ _ _ _ E1 E2 E3 Hn),
          (run_settled _ _ _ _ _ _ E1 E2 E3 Hnk).
  rewrite (loop_entries_ext n (n + k) depth _ subtaskList Hrun).
  assert (Hc : map (child (n + k) depth) subtaskList
               = map (child n depth) subtaskList).
  { apply map_ext_in. intros sub Hin.
    unfold child_outcome, outcome_of. now rewrite (Hrun sub Hin). }
  assert (Hr : flat_map (fun sub => requested remote (n + k) (gid sub) token (depth + 1))
                 subtaskList
               = flat_map (fun sub => requested remote n (gid sub) token (depth + 1))
                   subtaskList).
  { rewrite !flat_map_concat_map. f_equal. apply map_ext_in. intros sub Hin.
    unfold requested. now rewrite (Hrun sub Hin). }
  now rewrite Hc, Hr.
Qed.

End Settling.

(* ================================================================== *)
(** * The ingestion engine: the stated properties *)
(* ================================================================== *)

Lemma In_successes (outs : list (Outcome EnrichedTask)) (c : EnrichedTask) :
  In c (successes outs) <-> In (Returned c) outs.
Proof.
  unfold successes. rewrite in_flat_map. split.
  - intros (o & Hin & Hc). destruct o as [t|e|]; simpl in Hc;
      try contradiction. destruct Hc as [->|[]]. exact Hin.
  - intros Hin. exists (Returned c). split; [exact Hin | now left].
Qed.

Lemma narration_errors (depth : nat) (m : string) :
  errors (narration depth [(m, info)]) = [].
Proof. unfold narration. now destruct (depth =? 0)%nat. Qed.

Section Accounting.

Variable remote : Remote.
Variable token : string.

Local Abbreviation child := (child_outcome remote token).

(** The error entries of a loop: for each listed subtask in turn, those
    of its own ingestion, then the one that names it if it failed. *)
Lemma loop_errors (fuel depth total : nat) (subs : list AsanaTask) :
  forall c,
    errors (loop_entries remote fuel token depth total c subs)
    = flat_map
        (fun sub =>
           errors (logged remote fuel (gid sub) token (depth + 1))
           ++ match child fuel depth sub with
              | Thrown e => [failure_entry depth sub e]
              | _ => []
              end)%list
        subs.
Proof.
  induction subs as [|sub subs IH]; intros c; cbn [loop_entries flat_map];
    [reflexivity|].
  unfold errors in *. rewrite filter_app, IH. f_equal.
  unfold step_entries. rewrite !filter_app.
  change (filter (has_type error)
            (narration depth [processing_entry (S c) total sub]))
    with (errors (narration depth
                    [("Processing subtask " ++ Js.decimal (S c) ++ "/"
                      ++ Js.decimal total ++ ": " ++ Js.dquote ++ name sub
                      ++ Js.dquote, info)])).
  rewrite narration_errors. cbn [app]. f_equal.
  now destruct (child fuel depth sub).
Qed.

Lemma preamble_errors (taskGid : string) (depth : nat) (subs : list AsanaTask) :
  errors (preamble_entries taskGid depth subs) = [].
Proof.
  unfold preamble_entries, errors. rewrite filter_app.
  change (filter (has_type error) (narration depth [start_entry taskGid]))
    with (errors (narration depth
                    [("Fetching main task details (" ++ taskGid ++ ")...", info)])).
  rewrite narration_errors. destruct subs; [reflexivity|].
  apply narration_errors.
Qed.

Lemma successes_and_failures (fuel depth : nat) (subs : list AsanaTask) :
  Forall (fun sub => child fuel depth sub <> Pending) subs ->
  List.length (successes (map (child fuel depth) subs))
  + List.length (filter (fun sub => failed (child fuel depth sub)) subs)
  = List.length subs.
Proof.
  induction 1 as [|sub subs Hsub _ IH]; [reflexivity|].
  cbn [map successes flat_map filter]. fold (successes (map (child fuel depth) subs)).
  destruct (child fuel depth sub) as [t|e|]; [| |congruence];
    cbn [failed app List.length]; lia.
Qed.

Lemma loop_error_count (fuel depth : nat) (subs : list AsanaTask) :
  List.length
    (flat_map
       (fun sub =>
          errors (logged remote fuel (gid sub) token (depth + 1))
          ++ match child fuel depth sub with
             | Thrown e => [failure_entry depth sub e]
             | _ => []
             end)%list
       subs)
  = List.length (filter (fun sub => failed (child fuel depth sub)) subs)
    + List.length
        (flat_map
           (fun sub => errors (logged remote fuel (gid sub) token (depth + 1)))
           subs).
Proof.
  induction subs as [|sub subs IH]; [reflexivity|].
  cbn [flat_map filter]. rewrite !length_app, IH.
  destruct (child fuel depth sub); cbn [failed List.length]; lia.
Qed.

End Accounting.

(** C1.  A node whose three reads succeed and below each of whose listed
    subtasks the tree is finite.  Its ingestion returns, whatever the sink:
    the children are the trees of the listed subtasks whose own ingestion
    returned, in listing order, so a subtask whose ingestion failed is
    absent and its siblings are not.  Its error entries are, for each listed
    subtask in turn, those of the subtask's own ingestion followed, when it
    failed, by exactly one entry naming it; a failed subtask logged nothing
    itself.  With three listed subtasks of which exactly one fails there are
    two children, and one error entry besides those logged inside the two
    successful ingestions.  More fuel changes nothing. *)
Theorem subtask_failure_is_contained (remote : Remote) (token : string)
    (fuel : nat) (taskGid : string) (depth : nat)
    (t : AsanaTask) (cs : list AsanaStory) (subtaskList : list AsanaTask) :
  fetched (get_task remote) (task_path taskGid) token = inr t ->
  fetched (get_stories remote) (stories_path taskGid) token = inr cs ->
  fetched (get_subtasks remote) (subtasks_path taskGid) token = inr subtaskList ->
  (forall sub, In sub subtaskList -> settles remote token fuel (gid sub) = true) ->
  let child := child_outcome remote token fuel depth in
  let children := successes (map child subtaskList) in
  let failures := filter (fun sub => failed (child sub)) subtaskList in
  let parent_log := logged remote (S fuel) taskGid token depth in
  let child_errors sub := errors (logged remote fuel (gid sub) token (depth + 1)) in
  (forall (Sk : Type) (log : string -> LogType -> Sk -> Sk) (w : World Sk),
      processTask remote log (S fuel) taskGid token depth w
      = (Returned (mkEnriched t (filter is_comment cs) children),
         mkWorld (replay log parent_log (sink w))
                 (issued w ++ requested remote (S fuel) taskGid token depth)%list))
  /\ errors parent_log
     = flat_map
         (fun sub =>
            child_errors sub
            ++ match child sub with
               | Thrown e => [failure_entry depth sub e]
               | _ => []
               end)%list
         subtaskList
  /\ (forall sub e, child sub = Thrown e ->
        logged remote fuel (gid sub) token (depth + 1) = [])
  /\ List.length children + List.length failures = List.length subtaskList
  /\ List.length (errors parent_log)
     = List.length failures + List.length (flat_map child_errors subtaskList)
  /\ (forall a b c,
        subtaskList = [a; b; c] -> List.length failures = 1 ->
        List.length children = 2
        /\ List.length (errors parent_log)
           = 1 + List.length (flat_map child_errors subtaskList))
  /\ (forall k,
        run remote (S fuel + k) taskGid token depth
        = run remote (S fuel) taskGid token depth).
Proof.
  intros E1 E2 E3 Hfin child children failures parent_log child_errors.
  pose proof (settled_children remote token fuel depth subtaskList Hfin) as Hall.
  pose proof (run_settled remote token fuel taskGid depth t cs subtaskList
                E1 E2 E3 Hall) as Hrun.
  assert (Hout : outcome_of remote (S fuel) taskGid token depth
                 = Returned (mkEnriched t (filter is_comment cs) children))
    by (unfold outcome_of; now rewrite Hrun).
  assert (Herr : errors parent_log
                 = flat_map
                     (fun sub =>
                        child_errors sub
                        ++ match child sub with
                           | Thrown e => [failure_entry depth sub e]
                           | _ => []
                           end)%list
                     subtaskList).
  { unfold parent_log, logged. rewrite Hrun. cbn [snd sink].
    unfold errors at 1. rewrite filter_app.
    fold (errors (preamble_entries taskGid depth subtaskList)).
    rewrite preamble_errors. cbn [app].
    apply (loop_errors remote token). }
  pose proof (successes_and_failures remote token fuel depth subtaskList Hall)
    as Hcount.
  assert (Hlen : List.length (errors parent_log)
                 = List.length failures
                   + List.length (flat_map child_errors subtaskList))
    by (rewrite Herr; apply (loop_error_count remote token)).
  repeat apply conj.
  - intros Sk log w. rewrite processTask_replay. now rewrite Hout.
  - exact Herr.
  - intros sub e. apply failed_child_logs_nothing.
  - exact Hcount.
  - exact Hlen.
  - intros a b c Hl H1. split.
    + fold child failures children in Hcount. rewrite H1, Hl in Hcount.
      cbn [List.length] in Hcount. lia.
    + rewrite Hlen, H1. reflexivity.
  - intros k. apply run_fuel_irrelevant. cbn [settles].
    rewrite E1, E2, E3. apply forallb_forall. exact Hfin.
Qed.

(** On the sample service, task 100 lists 101, 102 and 103 and 102 cannot be
    read: two children, 101 and 103 in that order, and one error entry. *)
Lemma subtask_failure_is_contained_witness :
  (exists t101 t103,
      outcome_of Sample.remote 2 "100" "token" 0
      = Returned (mkEnriched (Sample.a_task "100" "Root")
                    [ Sample.a_story "1" "comment_added" "hello";
                      Sample.a_story "3" "comment_added" "bye" ]
                    [t101; t103])
      /\ gid (task t101) = "101" /\ gid (task t103) = "103")
  /\ List.length (errors (logged Sample.remote 2 "100" "token" 0)) = 1.
Proof.
  destruct (subtask_failure_is_contained Sample.remote "token" 1 "100" 0
              (Sample.a_task "100" "Root")
              [ Sample.a_story "1" "comment_added" "hello";
                Sample.a_story "2" "assigned" "assigned to Ada";
                Sample.a_story "3" "comment_added" "bye" ]
              [ Sample.a_task "101" "First"; Sample.a_task "102" "Second";
                Sample.a_task "103" "Third" ]
              eq_refl eq_refl eq_refl)
    as (Hrun & _ & _ & _ & _ & Hthree & _).
  - intros sub [<-|[<-|[<-|[]]]]; reflexivity.
  - split.
    + eexists _, _. unfold outcome_of, run. rewrite (Hrun _ addLog fresh).
      cbn [fst]. split; [reflexivity | split; reflexivity].
    + destruct (Hthree _ _ _ eq_refl eq_refl) as [_ H]. exact H.
Defined.

(** C2.  When one of the three reads of the root fails, [ingest] throws the
    error of the first read that fails, whatever the sink, and returns no
    tree; the sink has received the opening [info] line and nothing else,
    so no entry of type [success]. *)
Theorem root_read_failure_propagates (remote : Remote) (token : string)
    (fuel : nat) (taskGid : string) :
  (exists e, fetched (get_task remote) (task_path taskGid) token = inl e)
  \/ (exists e, fetched (get_stories remote) (stories_path taskGid) token = inl e)
  \/ (exists e, fetched (get_subtasks remote) (subtasks_path taskGid) token = inl e) ->
  exists e,
    match fetched (get_task remote) (task_path taskGid) token with
    | inl e1 => e = e1
    | inr _ =>
        match fetched (get_stories remote) (stories_path taskGid) token with
        | inl e2 => e = e2
        | inr _ =>
            fetched (get_subtasks remote) (subtasks_path taskGid) token = inl e
        end
    end
    /\ (forall (Sk : Type) (log : string -> LogType -> Sk -> Sk) (w : World Sk),
          fst (ingest remote log (S fuel) taskGid token w) = Thrown e
          /\ sink (snd (ingest remote log (S fuel) taskGid token w))
             = log ("Fetching main task details (" ++ taskGid ++ ")...") info
                 (sink w))
    /\ logged remote (S fuel) taskGid token 0 = [start_entry taskGid]
    /\ filter (has_type success) (logged remote (S fuel) taskGid token 0) = [].
Proof.
  intros Hfail.
  assert (Hrun : exists e urls,
             match fetched (get_task remote) (task_path taskGid) token with
             | inl e1 => e = e1
             | inr _ =>
                 match fetched (get_stories remote) (stories_path taskGid) token with
                 | inl e2 => e = e2
                 | inr _ =>
                     fetched (get_subtasks remote) (subtasks_path taskGid) token
                     = inl e
                 end
             end
             /\ run remote (S fuel) taskGid token 0
                = (Thrown e, mkWorld [start_entry taskGid] urls)).
  { destruct (fetched (get_task remote) (task_path taskGid) token)
      as [e1|t] eqn:E1.
    { exists e1. eexists. split; [reflexivity|].
      exact (run_task_fails remote token fuel taskGid 0 e1 E1). }
    destruct (fetched (get_stories remote) (stories_path taskGid) token)
      as [e2|cs] eqn:E2.
    { exists e2. eexists. split; [reflexivity|].
      exact (run_stories_fail remote token fuel taskGid 0 t e2 E1 E2). }
    destruct (fetched (get_subtasks remote) (subtasks_path taskGid) token)
      as [e3|l] eqn:E3.
    { exists e3. eexists. split; [reflexivity|].
      exact (run_subtasks_fail remote token fuel taskGid 0 t cs e3 E1 E2 E3). }
    destruct Hfail as [[e H]|[[e H]|[e H]]]; discriminate. }
  destruct Hrun as (e & urls & Hfirst & Hrun).
  exists e. split; [exact Hfirst|].
  assert (Hlog : logged remote (S fuel) taskGid token 0 = [start_entry taskGid])
    by (unfold logged; now rewrite Hrun).
  repeat apply conj.
  - intros Sk log w. unfold ingest. rewrite processTask_replay.
    cbn [fst snd sink]. split.
    + unfold outcome_of. now rewrite Hrun.
    + now rewrite Hlog.
  - exact Hlog.
  - apply never_success.
Qed.

(** On a service that knows no task, the ingestion of 100 throws the
    "Not Found" error of [fetchAsana] and logs no [success] entry. *)
Lemma root_read_failure_propagates_witness :
  outcome_of Sample.empty 1 "100" "token" 0
  = Thrown (Error ("Not Found: Resource at " ++ task_path "100"
                   ++ " does not exist or you lack access."))
  /\ filter (has_type success) (logged Sample.empty 1 "100" "token" 0) = [].
Proof.
  destruct (root_read_failure_propagates Sample.empty "token" 0 "100")
    as (e & He & Hany & _ & Hnone).
  - left. eexists. reflexivity.
  - split; [|exact Hnone].
    destruct (Hany _ addLog fresh) as [Ho _].
    unfold outcome_of, run. unfold ingest in Ho. rewrite Ho.
    f_equal. exact He.
Defined.

(** C4.  A root whose three reads succeed and whose listing is empty: the
    ingestion returns the task with its comments and no children, and has
    sent exactly three requests, for the task, for its activity entries and
    for its subtasks, in that order. *)
Theorem root_without_subtasks (remote : Remote) (token : string) (fuel : nat)
    (taskGid : string) (t : AsanaTask) (cs : list AsanaStory) :
  fetched (get_task remote) (task_path taskGid) token = inr t ->
  fetched (get_stories remote) (stories_path taskGid) token = inr cs ->
  fetched (get_subtasks remote) (subtasks_path taskGid) token = inr [] ->
  forall (Sk : Type) (log : string -> LogType -> Sk -> Sk) (w : World Sk),
    fst (ingest remote log (S fuel) taskGid token w)
    = Returned (mkEnriched t (filter is_comment cs) [])
    /\ issued (snd (ingest remote log (S fuel) taskGid token w))
       = (issued w
          ++ [ (ASANA_API_BASE ++ task_path taskGid)%string;
               (ASANA_API_BASE ++ stories_path taskGid)%string;
               (ASANA_API_BASE ++ subtasks_path taskGid)%string ])%list
    /\ List.length (issued (snd (ingest remote log (S fuel) taskGid token w)))
       = List.length (issued w) + 3.
Proof.
  intros E1 E2 E3 Sk log w.
  pose proof (run_reads_ok remote token fuel taskGid 0 t cs [] E1 E2 E3) as Hrun.
  cbv iota in Hrun.
  unfold ingest. rewrite processTask_replay.
  unfold outcome_of, requested. rewrite Hrun. cbn [fst snd issued].
  repeat split. rewrite length_app. reflexivity.
Qed.

Lemma root_without_subtasks_witness :
  outcome_of Sample.flat 1 "1" "token" 0
  = Returned (mkEnriched (Sample.a_task "1" "Only") [] [])
  /\ requested Sample.flat 1 "1" "token" 0
     = [ ASANA_API_BASE ++ task_path "1";
         ASANA_API_BASE ++ stories_path "1";
         ASANA_API_BASE ++ subtasks_path "1" ].
Proof.
  destruct (root_without_subtasks Sample.flat "token" 0 "1"
              (Sample.a_task "1" "Only") [] eq_refl eq_refl eq_refl
              _ addLog fresh) as (Ho & Hi & _).
  split; [exact Ho | exact Hi].
Defined.

Section Comments.

Variable remote : Remote.
Variable token : string.

(** Every node of a returned tree carries the comments among the
    activity entries fetched for some task. *)
Lemma nodes_comments (fuel : nat) :
  forall taskGid depth tree,
    outcome_of remote fuel taskGid token depth = Returned tree ->
    forall n, In n (nodes tree) ->
      exists g entries,
        fetched (get_stories remote) (stories_path g) token = inr entries
        /\ stories n = filter is_comment entries.
Proof.
  induction fuel as [|fuel IH]; intros taskGid depth tree Hout n Hn;
    [discriminate|].
  pose proof (outcome_Ending remote token fuel taskGid depth) as Hend.
  rewrite Hout in Hend.
  inversion Hend as [| | |t cs l E1 E2 E3 Hall Htree|]; subst tree.
  cbn [nodes] in Hn. destruct Hn as [<-|Hn].
  - exists taskGid, cs. split; [exact E2 | reflexivity].
  - apply in_flat_map in Hn as (c & Hc & Hn).
    apply In_successes, in_map_iff in Hc as (sub & Hsub & _).
    exact (IH (gid sub) (depth + 1) c Hsub n Hn).
Qed.

(** Every node of a returned tree is the record fetched for a task, with
    the comments among the activity entries fetched for that same task. *)
Lemma nodes_reads (fuel : nat) :
  forall taskGid depth tree,
    outcome_of remote fuel taskGid token depth = Returned tree ->
    forall n, In n (nodes tree) ->
      exists g entries,
        fetched (get_task remote) (task_path g) token = inr (task n)
        /\ fetched (get_stories remote) (stories_path g) token = inr entries
        /\ stories n = filter is_comment entries.
Proof.
  induction fuel as [|fuel IH]; intros taskGid depth tree Hout n Hn;
    [discriminate|].
  pose proof (outcome_Ending remote token fuel taskGid depth) as Hend.
  rewrite Hout in Hend.
  inversion Hend as [| | |t cs l E1 E2 E3 Hall Htree|]; subst tree.
  cbn [nodes] in Hn. destruct Hn as [<-|Hn].
  - exists taskGid, cs. split; [exact E1|]. split; [exact E2 | reflexivity].
  - apply in_flat_map in Hn as (c & Hc & Hn).
    apply In_successes, in_map_iff in Hc as (sub & Hsub & _).
    exact (IH (gid sub) (depth + 1) c Hsub n Hn).
Qed.

End Comments.

(** C5.  Every node of the tree an ingestion returns, the root and every
    transitive child, is built from the replies to the requests for one
    task [g]: its record is the reply to the request for the details of
    [g], and its comments are the activity entries fetched for that same
    [g] whose subtype is ['comment_added'], in the order of the reply: each
    of them has that subtype, and an entry of the reply of another subtype
    is not among them. *)
Theorem comments_are_the_comment_entries (remote : Remote) (token : string)
    (Sk : Type) (log : string -> LogType -> Sk -> Sk) (w : World Sk)
    (fuel : nat) (taskGid : string) (depth : nat) (tree : EnrichedTask) :
  fst (processTask remote log fuel taskGid token depth w) = Returned tree ->
  forall n, In n (nodes tree) ->
    exists g entries,
      fetched (get_task remote) (task_path g) token = inr (task n)
      /\ fetched (get_stories remote) (stories_path g) token = inr entries
      /\ stories n
         = filter (fun s => String.eqb (resource_subtype s) "comment_added") entries
      /\ Forall (fun s => resource_subtype s = "comment_added") (stories n)
      /\ (forall s, In s entries -> resource_subtype s <> "comment_added" ->
            ~ In s (stories n)).
Proof.
  intros Hout n Hn. rewrite processTask_replay in Hout. cbn [fst] in Hout.
  destruct (nodes_reads remote token fuel taskGid depth tree Hout n Hn)
    as (g & entries & Ht & Hg & Hs).
  exists g, entries. split; [exact Ht|]. split; [exact Hg|].
  split; [exact Hs|]. split.
  - rewrite Hs. apply Forall_forall. intros s Hin.
    apply filter_In in Hin as [_ Hc]. now apply String.eqb_eq.
  - intros s _ Hne Hin. rewrite Hs in Hin.
    apply filter_In in Hin as [_ Hc]. apply String.eqb_eq in Hc. contradiction.
Qed.

(** On the sample service, the root's reply holds two comments around a
    system entry, and the replies for its subtasks hold no entry: the root
    carries the two comments, and every node the comments, and only the
    comments, of the reply for the task it is the record of. *)
Lemma comments_are_the_comment_entries_witness :
  exists tree,
    outcome_of Sample.remote 2 "100" "token" 0 = Returned tree
    /\ map text (stories tree) = ["hello"; "bye"]
    /\ map (fun n => (gid (task n), map text (stories n))) (nodes tree)
       = [("100", ["hello"; "bye"]); ("101", []); ("103", [])]
    /\ Forall (fun n =>
                 exists g entries,
                   fetched (get_task Sample.remote) (task_path g) "token"
                   = inr (task n)
                   /\ fetched (get_stories Sample.remote) (stories_path g) "token"
                      = inr entries
                   /\ stories n = filter is_comment entries
                   /\ Forall (fun s => resource_subtype s = "comment_added")
                        (stories n))
         (nodes tree).
Proof.
  destruct (outcome_of Sample.remote 2 "100" "token" 0) as [tree| |] eqn:E;
    try (vm_compute in E; discriminate).
  exists tree. split; [reflexivity|]. split; [|split].
  - vm_compute in E. injection E as <-. reflexivity.
  - vm_compute in E. injection E as <-. reflexivity.
  - apply Forall_forall. intros n Hn.
    destruct (comments_are_the_comment_entries Sample.remote "token" _ addLog
                fresh 2 "100" 0 tree E n Hn) as (g & entries & Ht & Hg & Hs & H & _).
    exists g, entries. repeat split; assumption.
Defined.

(** ** The requests for activity entries *)

Lemma rev_string_append (a b : string) :
  Js.rev_string (a ++ b) = Js.rev_string b ++ Js.rev_string a.
Proof.
  induction a as [|c a IH]; simpl.
  - now rewrite append_nil_r.
  - now rewrite IH, append_assoc.
Qed.

Lemma stories_url_is_activity (g : string) :
  is_activity_request (ASANA_API_BASE ++ stories_path g) = true.
Proof.
  unfold is_activity_request, ends_with, stories_path.
  rewrite !rev_string_append. reflexivity.
Qed.

Lemma task_url_is_not_activity (g : string) :
  is_activity_request (ASANA_API_BASE ++ task_path g) = false.
Proof.
  unfold is_activity_request, ends_with, task_path.
  rewrite !rev_string_append. reflexivity.
Qed.

Lemma subtasks_url_is_not_activity (g : string) :
  is_activity_request (ASANA_API_BASE ++ subtasks_path g) = false.
Proof.
  unfold is_activity_request, ends_with, subtasks_path.
  rewrite !rev_string_append. reflexivity.
Qed.

Lemma activity_requests_app (l1 l2 : list string) :
  activity_requests (l1 ++ l2) = activity_requests l1 + activity_requests l2.
Proof. unfold activity_requests. now rewrite filter_app, length_app. Qed.

Lemma own_activity_requests (g : string) :
  activity_requests (own_requests g) = 1.
Proof.
  unfold activity_requests, own_requests. cbn [filter].
  now rewrite task_url_is_not_activity, stories_url_is_activity,
    subtasks_url_is_not_activity.
Qed.

Section Requests.

Variable remote : Remote.
Variable token : string.

Local Abbreviation child := (child_outcome remote token).

(** A node whose ingestion throws has asked for its activity entries at
    most once. *)
Lemma thrown_activity_requests (fuel : nat) (taskGid : string) (depth : nat)
    (e : JsError) :
  outcome_of remote fuel taskGid token depth = Thrown e ->
  activity_requests (requested remote fuel taskGid token depth) <= 1.
Proof.
  destruct fuel as [|fuel]; [discriminate|].
  intros H. unfold outcome_of in H. unfold requested.
  destruct (fetched (get_task remote) (task_path taskGid) token)
    as [e1|t] eqn:E1.
  { rewrite (run_task_fails _ _ _ _ _ _ E1). cbn [snd issued].
    unfold activity_requests. cbn [filter].
    rewrite task_url_is_not_activity. cbn. lia. }
  destruct (fetched (get_stories remote) (stories_path taskGid) token)
    as [e2|cs] eqn:E2.
  { rewrite (run_stories_fail _ _ _ _ _ _ _ E1 E2). cbn [snd issued].
    unfold activity_requests. cbn [filter].
    rewrite task_url_is_not_activity, stories_url_is_activity. cbn. lia. }
  destruct (fetched (get_subtasks remote) (subtasks_path taskGid) token)
    as [e3|l] eqn:E3.
  { rewrite (run_subtasks_fail _ _ _ _ _ _ _ _ E1 E2 E3). cbn [snd issued].
    rewrite own_activity_requests. lia. }
  destruct (all_or_pending remote token fuel depth l) as [Hs|Hp].
  - rewrite (run_settled _ _ _ _ _ _ _ _ E1 E2 E3 Hs) in H. discriminate.
  - pose proof (run_pending _ _ _ _ _ _ _ _ E1 E2 E3 Hp) as Hq.
    unfold outcome_of in Hq. congruence.
Qed.

(** One request for activity entries for each node of the returned tree,
    and at most one more for each subtask that failed. *)
Lemma activity_request_count (fuel : nat) :
  forall taskGid depth tree,
    outcome_of remote fuel taskGid token depth = Returned tree ->
    List.length (nodes tree)
    <= activity_requests (requested remote fuel taskGid token depth)
    <= List.length (nodes tree)
       + List.length (errors (logged remote fuel taskGid token depth)).
Proof.
  induction fuel as [|fuel IH]; intros taskGid depth tree Hout;
    [discriminate|].
  pose proof (outcome_Ending remote token fuel taskGid depth) as Hend.
  rewrite Hout in Hend.
  inversion Hend as [| | |t cs l E1 E2 E3 Hall Htree|]; subst tree.
  unfold requested, logged.
  rewrite (run_settled _ _ _ _ _ _ _ _ E1 E2 E3 Hall). cbn [snd issued sink].
  rewrite activity_requests_app, own_activity_requests.
  unfold errors at 1. rewrite filter_app.
  fold (errors (preamble_entries taskGid depth l)).
  rewrite preamble_errors. cbn [app].
  fold (errors (loop_entries remote fuel token depth (List.length l) 0 l)).
  rewrite (loop_errors remote token). cbn [nodes List.length].
  clear E3 Hout Hend.
  induction Hall as [|sub subs Hsub _ IHsubs].
  - cbn. lia.
  - cbn [flat_map map successes].
    fold (successes (map (child fuel depth) subs)).
    rewrite activity_requests_app, !length_app.
    destruct (child fuel depth sub) as [c|e|] eqn:Ec; [| |congruence].
    + cbn [app flat_map]. rewrite !length_app.
      pose proof (IH (gid sub) (depth + 1) c Ec) as Hc.
      cbn [List.length] in *. lia.
    + cbn [app List.length].
      pose proof (thrown_activity_requests fuel (gid sub) (depth + 1) e Ec).
      rewrite (failed_child_logs_nothing remote token fuel depth sub e Ec).
      cbn [errors filter List.length app]. lia.
Qed.

End Requests.

(** C10.  An ingestion that returns a tree has sent, for every node of the
    tree, exactly one request for activity entries: the node's own requests
    are the task, its activity entries and its subtask listing, once each,
    and all other requests are those of the ingestions of the listed
    subtasks.  Such requests are one per node of the tree, and at most one
    more for each subtask that failed.  The request carries [limit=100] as
    its last parameter and nothing asks for a further page.  So, when the
    service honours the limit, the comments of a node are the comments
    among the first 100 entries the service holds for a task. *)
Theorem one_activity_request_per_node (remote : Remote) (token : string)
    (Sk : Type) (log : string -> LogType -> Sk -> Sk) (w : World Sk)
    (fuel : nat) (taskGid : string) (depth : nat) (tree : EnrichedTask) :
  fst (processTask remote log fuel taskGid token depth w) = Returned tree ->
  let sent := requested remote fuel taskGid token depth in
  issued (snd (processTask remote log fuel taskGid token depth w))
  = (issued w ++ sent)%list
  /\ (exists subtaskList,
        fetched (get_subtasks remote) (subtasks_path taskGid) token
        = inr subtaskList
        /\ sent
           = ([ (ASANA_API_BASE ++ task_path taskGid)%string;
                (ASANA_API_BASE ++ stories_path taskGid)%string;
                (ASANA_API_BASE ++ subtasks_path taskGid)%string ]
              ++ flat_map
                   (fun sub =>
                      requested remote (fuel - 1) (gid sub) token (depth + 1))
                   subtaskList)%list)
  /\ (forall g,
        stories_path g
        = "/tasks/" ++ g
          ++ "/stories?opt_fields=text,created_at,created_by.name,resource_subtype&limit=100"
        /\ is_activity_request (ASANA_API_BASE ++ stories_path g) = true
        /\ is_activity_request (ASANA_API_BASE ++ task_path g) = false
        /\ is_activity_request (ASANA_API_BASE ++ subtasks_path g) = false)
  /\ List.length (nodes tree) <= activity_requests sent
     <= List.length (nodes tree)
        + List.length (errors (logged remote fuel taskGid token depth))
  /\ (forall held,
        honours_limit remote token held ->
        forall n, In n (nodes tree) ->
          exists g,
            stories n = filter is_comment (firstn 100 (held g))
            /\ (forall s, In s (stories n) -> In s (firstn 100 (held g)))
            /\ List.length (stories n) <= 100).
Proof.
  intros Hout sent. rewrite processTask_replay in Hout |- *.
  cbn [fst snd issued] in Hout |- *.
  repeat apply conj.
  - reflexivity.
  - destruct fuel as [|fuel]; [discriminate|].
    pose proof (outcome_Ending remote token fuel taskGid depth) as Hend.
    rewrite Hout in Hend.
    inversion Hend as [| | |t cs l E1 E2 E3 Hall Htree|]; subst tree.
    exists l. split; [exact E3|].
    unfold sent, requested.
    rewrite (run_settled _ _ _ _ _ _ _ _ E1 E2 E3 Hall). cbn [snd issued].
    replace (S fuel - 1) with fuel by lia. reflexivity.
  - intros g. repeat apply conj.
    + reflexivity.
    + apply stories_url_is_activity.
    + apply task_url_is_not_activity.
    + apply subtasks_url_is_not_activity.
  - exact (proj1 (activity_request_count remote token fuel taskGid depth tree Hout)).
  - exact (proj2 (activity_request_count remote token fuel taskGid depth tree Hout)).
  - intros held Hlim n Hn.
    destruct (nodes_comments remote token fuel taskGid depth tree Hout n Hn)
      as (g & entries & Hg & Hs).
    exists g. rewrite (Hlim g entries Hg) in Hs. repeat split.
    + exact Hs.
    + intros s Hin. rewrite Hs in Hin. now apply filter_In in Hin.
    + rewrite Hs.
      etransitivity; [apply filter_length_le|].
      apply firstn_le_length.
Qed.

(** A service holding 150 comments on a task and serving the first 100:
    one request for them, and the node carries 100 comments. *)
Lemma one_activity_request_per_node_witness :
  exists tree,
    outcome_of Sample.limited 1 "1" "token" 0 = Returned tree
    /\ activity_requests (requested Sample.limited 1 "1" "token" 0) = 1
    /\ List.length (Sample.held "1") = 150
    /\ List.length (stories tree) = 100
    /\ List.length (stories tree) <= 100.
Proof.
  destruct (outcome_of Sample.limited 1 "1" "token" 0) as [tree| |] eqn:E;
    try (vm_compute in E; discriminate).
  exists tree.
  assert (Hfst : fst (processTask Sample.limited addLog 1 "1" "token" 0 fresh)
                 = Returned tree) by exact E.
  destruct (one_activity_request_per_node Sample.limited "token" _ addLog fresh
              1 "1" 0 tree Hfst) as (_ & _ & _ & _ & Hlim).
  assert (Hh : honours_limit Sample.limited "token" (fun _ => Sample.held "1")).
  { intros g entries H. vm_compute in H. injection H as <-. reflexivity. }
  destruct (Hlim _ Hh tree) as (g & _ & _ & Hle).
  { destruct tree. now left. }
  repeat split; try exact Hle; try reflexivity.
  - vm_compute in E. injection E as <-. reflexivity.
Defined.

(* ================================================================== *)
(** * The renderer: [generateMarkdown] *)
(* ================================================================== *)

Lemma forEach_blocks {A} (f : A -> nat -> string -> string)
    (g : A -> nat -> string) (xs : list A) :
  (forall x, In x xs -> forall i md, f x i md = md ++ g x i) ->
  forall i md, forEach f xs i md = md ++ blocks g xs i.
Proof.
  induction xs as [|x xs IH]; intros Hf i md; cbn [forEach blocks].
  - now rewrite append_nil_r.
  - rewrite IH by (intros; apply Hf; now right).
    rewrite (Hf x (or_introl eq_refl)). now rewrite append_assoc.
Qed.

Lemma ends_line_newline : ends_line Js.newline.
Proof. now exists "". Qed.

Lemma ends_line_app (a b : string) : ends_line b -> ends_line (a ++ b).
Proof. intros [p ->]. exists (a ++ p). now rewrite append_assoc. Qed.

(** In the texts of a list, the text of an element starts where the texts
    before it end: at the start, or after the line that ends the last of
    them. *)
Lemma blocks_nth {A} (g : A -> nat -> string) (xs : list A) (k : nat) (x : A) :
  (forall y j, ends_line (g y j)) ->
  nth_error xs k = Some x ->
  forall i, exists pre post,
    blocks g xs i = pre ++ g x (i + k) ++ post
    /\ (pre = "" \/ ends_line pre).
Proof.
  intros Hg. revert k; induction xs as [|y xs IH]; intros k Hk i.
  - destruct k; discriminate.
  - destruct k as [|k]; cbn [nth_error blocks] in *.
    + injection Hk as ->. exists "", (blocks g xs (S i)).
      rewrite Nat.add_0_r. split; [reflexivity | now left].
    + destruct (IH k Hk (S i)) as (pre & post & E & Hpre).
      exists (g y i ++ pre), post. split.
      * rewrite E, append_assoc.
        now replace (i + S k) with (S i + k) by lia.
      * right. destruct Hpre as [->|Hpre].
        -- rewrite append_nil_r. apply Hg.
        -- now apply ends_line_app.
Qed.

Lemma blocks_In {A} (g : A -> nat -> string) (xs : list A) (x : A) :
  (forall y j, ends_line (g y j)) ->
  In x xs ->
  forall i, exists k pre post,
    blocks g xs i = pre ++ g x k ++ post /\ (pre = "" \/ ends_line pre).
Proof.
  intros Hg Hin i. apply In_nth_error in Hin as (k & Hk).
  destruct (blocks_nth g xs k x Hg Hk i) as (pre & post & E & Hpre).
  now exists (i + k), pre, post.
Qed.

Lemma length_repeat_char (c : ascii) (n : nat) :
  String.length (Js.repeat (String c "") n) = n.
Proof. induction n as [|n IH]; simpl; [reflexivity | now rewrite IH]. Qed.

Section Rendering.

Variable toLocaleDateString : string -> string.
Variable toLocaleString : string -> string.

Local Abbreviation renderSubtask' := (renderSubtask toLocaleDateString).
Local Abbreviation block := (subtask_block toLocaleDateString).

(** The callback of [renderSubtasks] appends the block of its subtask. *)
Lemma renderSubtask_block (sub : EnrichedTask) :
  forall level index md,
    renderSubtask' level sub index md = md ++ block level sub index.
Proof.
  induction sub as [t ss children IH] using EnrichedTask_forall_ind.
  intros level index md. cbn [renderSubtask subtask_block].
  unfold subtask_heading, subtask_details. cbn [task stories].
  assert (Hch : forall m,
             forEach (renderSubtask' (level + 1)) children 0 m
             = m ++ blocks (block (level + 1)) children 0).
  { apply forEach_blocks. intros x Hx i m.
    rewrite Forall_forall in IH. now apply IH. }
  assert (Hcm : forall m,
             forEach
               (fun s (_ : nat) md =>
                  let a := name_or (created_by s) "Unknown" in
                  md ++ "- **" ++ a ++ "**: "
                  ++ Js.replace_newlines " " (text s) ++ Js.newline)
               ss 0 m
             = m ++ blocks
                      (fun s (_ : nat) =>
                         "- **" ++ name_or (created_by s) "Unknown" ++ "**: "
                         ++ Js.replace_newlines " " (text s) ++ Js.newline)
                      ss 0).
  { apply forEach_blocks. intros; reflexivity. }
  destruct (Js.truthy (notes t));
    destruct ss as [|s ss]; destruct children as [|c children];
    cbn [List.length Nat.ltb Nat.leb];
    rewrite ?Hch, ?Hcm; cbn [blocks];
    repeat rewrite append_assoc; cbn [append]; reflexivity.
Qed.

Lemma renderSubtasks_blocks (subs : list EnrichedTask) (level : nat)
    (md : string) :
  renderSubtasks toLocaleDateString subs level md
  = md ++ blocks (block level) subs 0.
Proof.
  unfold renderSubtasks. apply forEach_blocks.
  intros x _ i m. apply renderSubtask_block.
Qed.

(** The document is its four parts, one after the other. *)
Lemma generateMarkdown_sections (t : EnrichedTask) :
  generateMarkdown toLocaleDateString toLocaleString t
  = title_and_metadata toLocaleDateString t
    ++ description_section t
    ++ comments_section toLocaleString t
    ++ subtasks_section toLocaleDateString t.
Proof.
  unfold generateMarkdown, title_and_metadata, description_section,
    comments_section, subtasks_section.
  assert (Hcm : forall m,
             forEach
               (fun story (_ : nat) md =>
                  let author :=
                    match created_by story with
                    | Some u => user_name u
                    | None => "Unknown"
                    end in
                  let date := toLocaleString (created_at story) in
                  let md := md ++ "### " ++ glyph_speaking ++ " " ++ author
                            ++ " - " ++ date ++ Js.newline in
                  let md := md ++ text story ++ Js.newline ++ Js.newline in
                  md ++ "---" ++ Js.newline ++ Js.newline)
               (stories t) 0 m
             = m ++ blocks (comment_block toLocaleString) (stories t) 0).
  { apply forEach_blocks. intros story _ i m. unfold comment_block.
    cbv zeta. now rewrite !append_assoc. }
  cbv zeta. rewrite Hcm, renderSubtasks_blocks.
  destruct (Js.truthy (notes (task t)));
    destruct (stories t) as [|s ss]; destruct (subtasks t) as [|c children];
    cbn [List.length Nat.ltb Nat.leb];
    repeat rewrite append_assoc; cbn [append];
    rewrite ?append_nil_r; reflexivity.
Qed.

Lemma subtask_block_unfold (level : nat) (sub : EnrichedTask) (index : nat) :
  block level sub index
  = subtask_heading (level + 2) (index + 1) sub
    ++ subtask_details toLocaleDateString sub
    ++ blocks (block (level + 1)) (subtasks sub) 0
    ++ Js.newline.
Proof. destruct sub; reflexivity. Qed.

Lemma subtask_details_ends_line (sub : EnrichedTask) :
  ends_line (subtask_details toLocaleDateString sub).
Proof.
  unfold subtask_details.
  destruct (Js.truthy (notes (task sub))); destruct (stories sub) as [|s ss];
    rewrite ?append_nil_r;
    repeat first [apply ends_line_newline | apply ends_line_app].
Qed.

Lemma subtask_block_ends_line (level : nat) (sub : EnrichedTask) (index : nat) :
  ends_line (block level sub index).
Proof.
  rewrite subtask_block_unfold.
  repeat first [apply ends_line_newline | apply ends_line_app].
Qed.

(** A subtask nested [level] deep in a forest rendered from [level0] is
    headed [level0 + level + 1] deep, and its heading starts a line. *)
Lemma nested_heading (level number : nat) (sub : EnrichedTask)
    (forest : list EnrichedTask) :
  Nested level number sub forest ->
  forall level0, exists pre post,
    blocks (block level0) forest 0
    = pre ++ subtask_heading (level0 + level + 1) number sub ++ post
    /\ (pre = "" \/ ends_line pre).
Proof.
  induction 1 as [forest index sub Hnth
                 |forest parent level number sub Hin _ IH]; intros level0.
  - destruct (blocks_nth (block level0) forest index sub
                (subtask_block_ends_line level0) Hnth 0)
      as (pre & post & E & Hpre).
    rewrite E, subtask_block_unfold. cbn [Nat.add].
    exists pre. eexists. split; [|exact Hpre].
    replace (level0 + 1 + 1) with (level0 + 2) by lia.
    replace (index + 1) with (S index) by lia.
    rewrite !append_assoc. reflexivity.
  - destruct (blocks_In (block level0) forest parent
                (subtask_block_ends_line level0) Hin 0)
      as (k & pre1 & post1 & E1 & _).
    destruct (IH (level0 + 1)) as (pre2 & post2 & E2 & Hpre2).
    rewrite E1, subtask_block_unfold, E2.
    exists (pre1 ++ subtask_heading (level0 + 2) (k + 1) parent
            ++ subtask_details toLocaleDateString parent ++ pre2).
    eexists. split.
    + replace (level0 + S level + 1) with (level0 + 1 + level + 1) by lia.
      rewrite !append_assoc. reflexivity.
    + right. do 2 apply ends_line_app. destruct Hpre2 as [->|Hpre2].
      * rewrite append_nil_r. apply subtask_details_ends_line.
      * apply ends_line_app. exact Hpre2.
Qed.

End Rendering.

(** C6.  The document is the title and metadata, the description section,
    the comments section and the subtasks section, in that order.  The
    comments section is empty when the root has no comments and the subtasks
    section is empty when it has no children; otherwise each starts with its
    heading.  The description section is always there: its heading, then
    the notes as they are, or the placeholder when the notes are empty. *)
Theorem optional_sections (toLocaleDateString toLocaleString : string -> string)
    (t : EnrichedTask) :
  generateMarkdown toLocaleDateString toLocaleString t
  = title_and_metadata toLocaleDateString t
    ++ description_section t
    ++ comments_section toLocaleString t
    ++ subtasks_section toLocaleDateString t
  /\ (stories t = [] -> comments_section toLocaleString t = "")
  /\ (subtasks t = [] -> subtasks_section toLocaleDateString t = "")
  /\ (stories t <> [] ->
      exists rest,
        comments_section toLocaleString t
        = "## Comments" ++ Js.newline ++ Js.newline ++ rest)
  /\ (subtasks t <> [] ->
      exists rest,
        subtasks_section toLocaleDateString t
        = "## Subtasks" ++ Js.newline ++ Js.newline ++ rest)
  /\ (notes (task t) <> "" ->
      description_section t
      = "## Description" ++ Js.newline ++ Js.newline
        ++ notes (task t) ++ Js.newline ++ Js.newline)
  /\ (notes (task t) = "" ->
      description_section t
      = "## Description" ++ Js.newline ++ Js.newline
        ++ "_No description provided._" ++ Js.newline ++ Js.newline)
  /\ (stories t = [] -> subtasks t = [] ->
      generateMarkdown toLocaleDateString toLocaleString t
      = title_and_metadata toLocaleDateString t ++ description_section t).
Proof.
  pose proof (generateMarkdown_sections toLocaleDateString toLocaleString t)
    as Hdoc.
  repeat apply conj.
  - exact Hdoc.
  - unfold comments_section. now intros ->.
  - unfold subtasks_section. now intros ->.
  - unfold comments_section. destruct (stories t); [congruence|].
    intros _. now eexists.
  - unfold subtasks_section. destruct (subtasks t); [congruence|].
    intros _. now eexists.
  - unfold description_section. intros H. apply truthy_true in H.
    now rewrite H.
  - unfold description_section. now intros ->.
  - intros Hs Hc. rewrite Hdoc. unfold comments_section, subtasks_section.
    rewrite Hs, Hc. now rewrite !append_nil_r.
Qed.

(** A bare task renders as title, metadata and the placeholder. *)
Lemma optional_sections_witness :
  generateMarkdown Sample.toLocaleDateString Sample.toLocaleString
    (Sample.leaf "1" "Only" false)
  = "# Only" ++ Js.newline ++ Js.newline
    ++ "**Link:** [Open in Asana]()" ++ Js.newline
    ++ "**Assignee:** Unassigned | **Due:** No Date | **Status:** "
    ++ glyph_incomplete ++ " Incomplete" ++ Js.newline ++ Js.newline
    ++ "## Description" ++ Js.newline ++ Js.newline
    ++ "_No description provided._" ++ Js.newline ++ Js.newline.
Proof.
  destruct (optional_sections Sample.toLocaleDateString Sample.toLocaleString
              (Sample.leaf "1" "Only" false))
    as (_ & _ & _ & _ & _ & _ & Hnotes & Hbare).
  rewrite (Hbare eq_refl eq_refl), (Hnotes eq_refl). reflexivity.
Defined.

(** C7.  The document of a tree with subtasks ends with the section
    [## Subtasks], which is the blocks of the root's children rendered at
    level 1.  In it, the subtask at position [number] (from 1) of a sibling
    list at nesting level [level] (the root's children being at level 1) has,
    at the start of a line, the heading made of [level + 2] number signs,
    its number and its completion glyph before its name; the next level is
    one deeper.  The layout is recursive: [renderSubtasks] at a level
    appends the blocks of the subtasks, each block being the heading, the
    details, the blocks of the subtask's own subtasks one level down, and a
    blank line. *)
Theorem subtask_heading_depth
    (toLocaleDateString toLocaleString : string -> string)
    (t : EnrichedTask) (level number : nat) (sub : EnrichedTask) :
  Nested level number sub (subtasks t) ->
  generateMarkdown toLocaleDateString toLocaleString t
  = title_and_metadata toLocaleDateString t
    ++ description_section t
    ++ comments_section toLocaleString t
    ++ "## Subtasks" ++ Js.newline ++ Js.newline
    ++ blocks (subtask_block toLocaleDateString 1) (subtasks t) 0
  /\ (exists pre post,
        generateMarkdown toLocaleDateString toLocaleString t
        = pre ++ subtask_heading (level + 2) number sub ++ post
        /\ ends_line pre)
  /\ subtask_heading (level + 2) number sub
     = Js.repeat "#" (level + 2) ++ " " ++ Js.decimal number ++ ". "
       ++ (if completed (task sub) then glyph_completed else glyph_incomplete)
       ++ " " ++ name (task sub) ++ Js.newline ++ Js.newline
  /\ String.length (Js.repeat "#" (level + 2)) = level + 2
  /\ level + 2 < S level + 2
  /\ (forall subs l md,
        renderSubtasks toLocaleDateString subs l md
        = md ++ blocks (subtask_block toLocaleDateString l) subs 0)
  /\ (forall l s index,
        subtask_block toLocaleDateString l s index
        = subtask_heading (l + 2) (index + 1) s
          ++ subtask_details toLocaleDateString s
          ++ blocks (subtask_block toLocaleDateString (l + 1)) (subtasks s) 0
          ++ Js.newline).
Proof.
  intros Hn.
  assert (Hdoc :
            generateMarkdown toLocaleDateString toLocaleString t
            = title_and_metadata toLocaleDateString t
              ++ description_section t
              ++ comments_section toLocaleString t
              ++ "## Subtasks" ++ Js.newline ++ Js.newline
              ++ blocks (subtask_block toLocaleDateString 1) (subtasks t) 0).
  { rewrite generateMarkdown_sections. unfold subtasks_section.
    destruct (subtasks t) as [|c children] eqn:Ec; [|reflexivity].
    inversion Hn as [? index ? Hnth|? parent ? ? ? Hin]; subst.
    - destruct index; discriminate.
    - destruct Hin. }
  repeat apply conj.
  - exact Hdoc.
  - destruct (nested_heading toLocaleDateString level number sub (subtasks t)
                Hn 1) as (pre & post & E & Hpre).
    rewrite Hdoc, E. replace (1 + level + 1) with (level + 2) by lia.
    exists (title_and_metadata toLocaleDateString t ++ description_section t
            ++ comments_section toLocaleString t
            ++ "## Subtasks" ++ Js.newline ++ Js.newline ++ pre), post.
    split; [rewrite !append_assoc; reflexivity|].
    do 5 apply ends_line_app. destruct Hpre as [->|Hpre].
    + rewrite append_nil_r. apply ends_line_newline.
    + apply ends_line_app. exact Hpre.
  - reflexivity.
  - apply (length_repeat_char "#"%char).
  - lia.
  - intros subs l md. apply renderSubtasks_blocks.
  - intros l s index. apply subtask_block_unfold.
Qed.

(** In the sample tree the children of the root are headed three deep
    and the child of the second of them four deep, each at the start of a
    line. *)
Lemma subtask_heading_depth_witness :
  generateMarkdown Sample.toLocaleDateString Sample.toLocaleString Sample.tree
  = "# Root" ++ Js.newline ++ Js.newline
    ++ "**Link:** [Open in Asana](https://app.asana.com/0/0/100)" ++ Js.newline
    ++ "**Assignee:** Unassigned | **Due:** No Date | **Status:** "
    ++ glyph_incomplete ++ " Incomplete" ++ Js.newline ++ Js.newline
    ++ "## Description" ++ Js.newline ++ Js.newline
    ++ "_No description provided._" ++ Js.newline ++ Js.newline
    ++ "## Subtasks" ++ Js.newline ++ Js.newline
    ++ "### 1. " ++ glyph_completed ++ " First" ++ Js.newline ++ Js.newline
    ++ "*Assignee: Unassigned | Due: No Date*" ++ Js.newline ++ Js.newline
    ++ Js.newline
    ++ "### 2. " ++ glyph_incomplete ++ " Second" ++ Js.newline ++ Js.newline
    ++ "*Assignee: Unassigned | Due: No Date*" ++ Js.newline ++ Js.newline
    ++ "#### 1. " ++ glyph_incomplete ++ " Deep" ++ Js.newline ++ Js.newline
    ++ "*Assignee: Unassigned | Due: No Date*" ++ Js.newline ++ Js.newline
    ++ Js.newline
    ++ Js.newline
  /\ exists pre post,
       generateMarkdown Sample.toLocaleDateString Sample.toLocaleString
         Sample.tree
       = pre
         ++ ("#### 1. " ++ glyph_incomplete ++ " Deep" ++ Js.newline
             ++ Js.newline)
         ++ post
       /\ ends_line pre.
Proof.
  assert (Hn : Nested 2 1 (Sample.leaf "104" "Deep" false)
                 (subtasks Sample.tree)).
  { apply Nested_below
      with (parent := mkEnriched (Sample.a_task "102" "Second") []
                        [Sample.leaf "104" "Deep" false]).
    - right. left. reflexivity.
    - apply (Nested_here _ 0). reflexivity. }
  destruct (subtask_heading_depth Sample.toLocaleDateString
              Sample.toLocaleString Sample.tree 2 1 _ Hn)
    as (Hdoc & (pre & post & E & Hpre) & _).
  split.
  - rewrite Hdoc. reflexivity.
  - exists pre, post. split; [exact E | exact Hpre].
Defined.

(* ================================================================== *)
(** * [fetchAsana]: what it returns and what it throws *)
(* ================================================================== *)

(** X1.  [fetchAsana] sends exactly one request, to the API base followed by
    the path, and leaves the sink alone, however the request ends.  It
    returns data exactly when the reply is a response with a status from 200
    to 299 whose body decodes, and then it returns that body: never data
    from a response that is not [ok]. *)
Theorem fetchAsana_returns_only_ok_data {Sk T : Type}
    (endpoint : string -> string -> Reply T) (path token : string)
    (w : World Sk) :
  snd (fetchAsana endpoint path token w)
  = mkWorld (sink w) (issued w ++ [(ASANA_API_BASE ++ path)%string])%list
  /\ fst (fetchAsana endpoint path token w) <> Pending
  /\ forall data,
       fst (fetchAsana endpoint path token w) = Returned data <->
       exists response,
         endpoint (ASANA_API_BASE ++ path) token = inr response
         /\ 200 <= status response <= 299
         /\ body response = inr data.
Proof.
  unfold fetchAsana, fetched, settle.
  destruct (endpoint (ASANA_API_BASE ++ path) token) as [e|response] eqn:E.
  - cbn. repeat split; try discriminate.
    intros (r & Hr & _). discriminate.
  - unfold ok.
    destruct (200 <=? status response)%nat eqn:H1;
      destruct (status response <=? 299)%nat eqn:H2; cbn [andb negb].
    + apply Nat.leb_le in H1, H2.
      destruct (body response) as [e|d] eqn:Hb; cbn;
        (split; [reflexivity|]); (split; [discriminate|]); intros data; split.
      * discriminate.
      * intros (r & [= <-] & _ & Hd). congruence.
      * intros [= <-]. exists response. repeat split; assumption.
      * intros (r & [= <-] & _ & Hd). congruence.
    + apply Nat.leb_gt in H2.
      repeat match goal with
             | |- context [if ?c then _ else _] => destruct c
             end; cbn; (split; [reflexivity|]); (split; [discriminate|]);
        intros data; (split; [discriminate|]);
        intros (r & [= <-] & Hs & _); lia.
    + apply Nat.leb_gt in H1.
      repeat match goal with
             | |- context [if ?c then _ else _] => destruct c
             end; cbn; (split; [reflexivity|]); (split; [discriminate|]);
        intros data; (split; [discriminate|]);
        intros (r & [= <-] & Hs & _); lia.
    + apply Nat.leb_gt in H1.
      repeat match goal with
             | |- context [if ?c then _ else _] => destruct c
             end; cbn; (split; [reflexivity|]); (split; [discriminate|]);
        intros data; (split; [discriminate|]);
        intros (r & [= <-] & Hs & _); lia.
Qed.

(** X2.  For a response that is not [ok], [fetchAsana] throws an [Error]
    whose message tells the kind of failure, whatever the path and the
    status text: the kind read back from the message is the kind of the
    status (401, 404, 429, any other).  The 404 message names the path and
    the message of any other status carries the status and its text. *)
Theorem fetchAsana_failure_kinds {Sk T : Type}
    (endpoint : string -> string -> Reply T) (path token : string)
    (w : World Sk) (response : Response T) :
  endpoint (ASANA_API_BASE ++ path) token = inr response ->
  ok response = false ->
  exists msg,
    fst (fetchAsana endpoint path token w) = Thrown (Error msg)
    /\ kind_of_message msg = kind_of_status (status response)
    /\ (status response = 404 ->
        msg = "Not Found: Resource at " ++ path
              ++ " does not exist or you lack access.")
    /\ (kind_of_status (status response) = Transport ->
        msg = "Asana API Error: " ++ Js.decimal (status response) ++ " "
              ++ statusText response).
Proof.
  intros E Hok. unfold fetchAsana, fetched, settle, kind_of_status.
  rewrite E, Hok. cbn [negb].
  destruct (status response =? 401)%nat eqn:H401.
  { eexists. cbn [fst]. split; [reflexivity|]. split; [reflexivity|].
    apply Nat.eqb_eq in H401. split; [intros; lia | discriminate]. }
  destruct (status response =? 404)%nat eqn:H404.
  { eexists. cbn [fst]. split; [reflexivity|]. split; [reflexivity|].
    split; [reflexivity | discriminate]. }
  destruct (status response =? 429)%nat eqn:H429.
  { eexists. cbn [fst]. split; [reflexivity|]. split; [reflexivity|].
    apply Nat.eqb_eq in H429. split; [intros; lia | discriminate]. }
  eexists. cbn [fst]. split; [reflexivity|]. split; [reflexivity|].
  apply Nat.eqb_neq in H404. split; [intros; lia | reflexivity].
Qed.

(** A 429 and a 503 are told apart by their messages. *)
Lemma fetchAsana_failure_kinds_witness :
  (exists msg,
      fst (fetchAsana (fun _ _ => @Sample.refuse unit 429 "Too Many Requests")
             "/tasks/1" "token" fresh) = Thrown (Error msg)
      /\ kind_of_message msg = RateLimited)
  /\ (exists msg,
         fst (fetchAsana (fun _ _ => @Sample.refuse unit 503 "Service Unavailable")
                "/tasks/1" "token" fresh) = Thrown (Error msg)
         /\ msg = "Asana API Error: 503 Service Unavailable").
Proof.
  split.
  - destruct (fetchAsana_failure_kinds
                (fun _ _ => @Sample.refuse unit 429 "Too Many Requests")
                "/tasks/1" "token" fresh _ eq_refl eq_refl)
      as (msg & Hm & Hk & _).
    exists msg. split; [exact Hm | exact Hk].
  - destruct (fetchAsana_failure_kinds
                (fun _ _ => @Sample.refuse unit 503 "Service Unavailable")
                "/tasks/1" "token" fresh _ eq_refl eq_refl)
      as (msg & Hm & _ & _ & Ht).
    exists msg. split; [exact Hm | exact (Ht eq_refl)].
Defined.

(* ================================================================== *)
(** * The engine: what every run logs and requests, finished or not *)
(* ================================================================== *)

Section Shapes.

Variable remote : Remote.
Variable token : string.

Local Abbreviation Log := (list (string * LogType)).
Local Abbreviation child := (child_outcome remote token).
Local Abbreviation child_requests fuel depth :=
  (fun sub : AsanaTask => requested remote fuel (gid sub) token (depth + 1)).

(** The loop leaves the world of the turns it took: all of them, or those
    up to the first child left pending. *)
Lemma loop_world (fuel depth total : nat) (subs : list AsanaTask) :
  forall completedCount acc (w : World Log),
  exists done rest,
    subs = (done ++ rest)%list
    /\ snd (for_of subs
              (subtask_step addLog (processTask remote addLog fuel) token depth total)
              (completedCount, acc) w)
       = mkWorld
           (sink w ++ loop_entries remote fuel token depth total completedCount done)%list
           (issued w ++ flat_map (child_requests fuel depth) done)%list.
Proof.
  induction subs as [|sub subs IH]; intros c acc w.
  - exists [], []. split; [reflexivity|]. cbn. rewrite !app_nil_r.
    now destruct w.
  - cbn [for_of]. unfold bind at 1. rewrite subtask_step_run.
    destruct (child fuel depth sub) as [t|e|] eqn:E.
    + match goal with
      | |- context [for_of subs ?b ?s ?w'] =>
          destruct (IH (S c) (acc ++ [t])%list w') as (done & rest & -> & Hw)
      end.
      exists (sub :: done), rest. split; [reflexivity|].
      rewrite Hw. cbn [sink issued loop_entries flat_map].
      now rewrite <- !app_assoc.
    + match goal with
      | |- context [for_of subs ?b ?s ?w'] =>
          destruct (IH (S c) acc w') as (done & rest & -> & Hw)
      end.
      exists (sub :: done), rest. split; [reflexivity|].
      rewrite Hw. cbn [sink issued loop_entries flat_map].
      now rewrite <- !app_assoc.
    + exists [sub], subs. split; [reflexivity|].
      cbn [snd loop_entries flat_map]. now rewrite !app_nil_r.
Qed.

(** The world a run leaves: the opening line and the first one, two or
    three of the node's own requests when a read fails; otherwise the
    preamble, the own requests and what the loop did. *)
Lemma run_shape (fuel : nat) (taskGid : string) (depth : nat) :
  (exists k,
      1 <= k <= 3
      /\ snd (run remote (S fuel) taskGid token depth)
         = mkWorld (narration depth [start_entry taskGid])
                   (firstn k (own_requests taskGid)))
  \/ (exists subtaskList done rest,
         fetched (get_subtasks remote) (subtasks_path taskGid) token
         = inr subtaskList
         /\ subtaskList = (done ++ rest)%list
         /\ snd (run remote (S fuel) taskGid token depth)
            = mkWorld
                (preamble_entries taskGid depth subtaskList
                 ++ loop_entries remote fuel token depth
                      (List.length subtaskList) 0 done)%list
                (own_requests taskGid
                 ++ flat_map (child_requests fuel depth) done)%list).
Proof.
  destruct (fetched (get_task remote) (task_path taskGid) token)
    as [e1|t] eqn:E1.
  { left. exists 1. split; [lia|].
    now rewrite (run_task_fails _ _ _ _ _ _ E1). }
  destruct (fetched (get_stories remote) (stories_path taskGid) token)
    as [e2|cs] eqn:E2.
  { left. exists 2. split; [lia|].
    now rewrite (run_stories_fail _ _ _ _ _ _ _ E1 E2). }
  destruct (fetched (get_subtasks remote) (subtasks_path taskGid) token)
    as [e3|subtaskList] eqn:E3.
  { left. exists 3. split; [lia|].
    now rewrite (run_subtasks_fail _ _ _ _ _ _ _ _ E1 E2 E3). }
  right. rewrite (run_reads_ok _ _ _ _ _ _ _ _ E1 E2 E3).
  destruct subtaskList as [|sub subs].
  - exists [], [], []. repeat split. unfold preamble_entries. cbn [snd].
    cbn [loop_entries flat_map]. now rewrite !app_nil_r.
  - match goal with
    | |- context [for_of ?l ?b ?s ?w] =>
        destruct (loop_world fuel depth (List.length l) l 0 [] w)
          as (done & rest & Hl & Hw);
        exists l, done, rest; split; [reflexivity|]; split; [exact Hl|];
        destruct (for_of l b s w) as [[?|?|] w']
    end; cbn [snd] in *; rewrite Hw; reflexivity.
Qed.

(** Below the root, an ingestion logs error entries only. *)
Lemma deep_entries_are_errors (fuel : nat) :
  forall taskGid depth,
    depth <> 0 ->
    Forall (fun entry => snd entry = error)
      (logged remote fuel taskGid token depth).
Proof.
  induction fuel as [|fuel IH]; intros taskGid depth Hd; [constructor|].
  assert (Hn : forall entries, narration depth entries = []).
  { intros entries. unfold narration.
    now replace (depth =? 0)%nat with false
      by (symmetry; now apply Nat.eqb_neq). }
  unfold logged.
  destruct (run_shape fuel taskGid depth)
    as [(k & _ & ->)|(l & done & rest & _ & _ & ->)]; cbn [sink].
  - rewrite Hn. constructor.
  - unfold preamble_entries. rewrite Hn.
    replace (match l with [] => [] | _ :: _ => narration depth [found_entry (List.length l)] end)
      with (@nil (string * LogType)) by (destruct l; [reflexivity | now rewrite Hn]).
    cbn [app]. generalize 0 at 1. clear rest.
    induction done as [|sub done IHd]; intros c; cbn [loop_entries];
      [constructor|].
    apply Forall_app. split; [|apply IHd].
    unfold step_entries. rewrite Hn. cbn [app].
    apply Forall_app. split; [apply IH; lia|].
    destruct (child fuel depth sub); repeat constructor.
Qed.

(** Every request of a run is one of the three requests of some task. *)
Lemma requests_are_own (fuel : nat) :
  forall taskGid depth,
    Forall (fun url => exists g, In url (own_requests g))
      (requested remote fuel taskGid token depth).
Proof.
  induction fuel as [|fuel IH]; intros taskGid depth; [constructor|].
  assert (Hown : forall k,
             Forall (fun url => exists g, In url (own_requests g))
               (firstn k (own_requests taskGid))).
  { intros k. apply Forall_forall. intros url Hin.
    exists taskGid. rewrite <- (firstn_skipn k (own_requests taskGid)).
    apply in_or_app. now left. }
  unfold requested.
  destruct (run_shape fuel taskGid depth)
    as [(k & _ & ->)|(l & done & rest & _ & _ & ->)]; cbn [issued].
  - apply Hown.
  - apply Forall_app. split; [exact (Hown 3)|].
    apply Forall_flat_map, Forall_forall. intros sub _. apply IH.
Qed.

End Shapes.

(** X3.  Whatever the task ids and the replies, finished or not, every URL
    the engine fetches is the API base followed by [/tasks/]: the task, the
    activity entries or the subtask listing of some task.  The bearer token
    goes nowhere else. *)
Theorem requests_stay_on_the_api {Sk : Type} (remote : Remote)
    (log : string -> LogType -> Sk -> Sk) (fuel : nat)
    (taskGid token : string) (depth : nat) (w : World Sk) :
  exists sent,
    issued (snd (processTask remote log fuel taskGid token depth w))
    = (issued w ++ sent)%list
    /\ Forall (fun url =>
                 Js.startsWith "https://app.asana.com/api/1.0/tasks/" url = true
                 /\ exists g,
                      url = ASANA_API_BASE ++ task_path g
                      \/ url = ASANA_API_BASE ++ stories_path g
                      \/ url = ASANA_API_BASE ++ subtasks_path g)
         sent.
Proof.
  exists (requested remote fuel taskGid token depth).
  rewrite processTask_replay. split; [reflexivity|].
  eapply Forall_impl; [|apply requests_are_own].
  intros url (g & Hin). cbn in Hin.
  destruct Hin as [<-|[<-|[<-|[]]]]; (split; [reflexivity|]); exists g; tauto.
Qed.

(** X4.  Below the root the engine is silent but for errors: at a depth
    other than 0 every entry an ingestion logs, finished or not, has type
    [error], so the whole narration of a run comes from its root. *)
Theorem silent_below_the_root (remote : Remote) (token : string) (fuel : nat)
    (taskGid : string) (depth : nat) :
  depth <> 0 ->
  Forall (fun entry => snd entry = error)
    (logged remote fuel taskGid token depth)
  /\ filter (has_type info) (logged remote fuel taskGid token depth) = [].
Proof.
  intros Hd.
  pose proof (deep_entries_are_errors remote token fuel taskGid depth Hd) as H.
  split; [exact H|].
  induction H as [|[m ty] l Hty _ IH]; [reflexivity|].
  cbn in Hty. subst ty. cbn. exact IH.
Qed.

(** Task 101 of the deep fixture, ingested one level down, logs the failure
    of its subtask and nothing else. *)
Lemma silent_below_the_root_witness :
  logged Fixture.deep 3 "101" "token" 1
  = [ failure_entry 1 (Sample.a_task "102" "Grandchild")
        (Error ("Not Found: Resource at " ++ task_path "102"
                ++ " does not exist or you lack access.")) ]
  /\ filter (has_type info) (logged Fixture.deep 3 "101" "token" 1) = [].
Proof.
  split; [reflexivity|].
  exact (proj2 (silent_below_the_root Fixture.deep "token" 3 "101" 1
                  ltac:(discriminate))).
Defined.

Lemma only_errors_no_info (entries : list (string * LogType)) :
  Forall (fun entry => snd entry = error) entries ->
  filter (has_type info) entries = [].
Proof.
  induction 1 as [|[m ty] l Hty _ IH]; [reflexivity|].
  cbn in Hty. subst ty. cbn. exact IH.
Qed.

Section Narration.

Variable remote : Remote.
Variable token : string.

Local Abbreviation child := (child_outcome remote token).

(** The [info] entries of a loop at the root: one line per turn, numbered
    on from the count so far. *)
Lemma loop_info (fuel total : nat) (subs : list AsanaTask) :
  forall c,
    filter (has_type info) (loop_entries remote fuel token 0 total c subs)
    = map (fun numbered =>
             processing_entry (fst numbered) total (snd numbered))
        (combine (seq (S c) (List.length subs)) subs).
Proof.
  induction subs as [|sub subs IH]; intros c; [reflexivity|].
  cbn [loop_entries List.length seq combine map fst snd].
  rewrite filter_app, IH. unfold step_entries. rewrite !filter_app.
  rewrite (only_errors_no_info (logged remote fuel (gid sub) token (0 + 1)))
    by (apply deep_entries_are_errors; discriminate).
  replace (filter (has_type info)
             match child fuel 0 sub with
             | Thrown e => [failure_entry 0 sub e]
             | _ => []
             end)
    with (@nil (string * LogType)) by (now destruct (child fuel 0 sub)).
  reflexivity.
Qed.

(** A node all of whose listed subtasks fail at their first read. *)
Lemma unreadable_children (fuel depth : nat) (subs : list AsanaTask) :
  (forall sub, In sub subs ->
     exists e, fetched (get_task remote) (task_path (gid sub)) token = inl e) ->
  Forall (fun sub => child (S fuel) depth sub <> Pending) subs
  /\ successes (map (child (S fuel) depth) subs) = []
  /\ List.length (filter (fun sub => failed (child (S fuel) depth sub)) subs)
     = List.length subs.
Proof.
  induction subs as [|sub subs IH]; intros H.
  - repeat split. constructor.
  - destruct (H sub (or_introl eq_refl)) as (e & He).
    destruct IH as (IH1 & IH2 & IH3); [intros; apply H; now right|].
    assert (Hc : child (S fuel) depth sub = Thrown e).
    { unfold child_outcome, outcome_of.
      now rewrite (run_task_fails _ _ _ _ _ _ He). }
    repeat split.
    + constructor; [congruence | exact IH1].
    + cbn [map successes flat_map]. rewrite Hc. exact IH2.
    + cbn [filter]. rewrite Hc. cbn [failed List.length]. now rewrite IH3.
Qed.

(** A node whose ingestion throws has sent one, two or three requests. *)
Lemma thrown_requests (fuel : nat) (taskGid : string) (depth : nat)
    (e : JsError) :
  outcome_of remote fuel taskGid token depth = Thrown e ->
  List.length (requested remote fuel taskGid token depth) <= 3.
Proof.
  destruct fuel as [|fuel]; [discriminate|].
  intros H. unfold outcome_of in H. unfold requested.
  destruct (fetched (get_task remote) (task_path taskGid) token)
    as [e1|t] eqn:E1.
  { rewrite (run_task_fails _ _ _ _ _ _ E1). cbn. lia. }
  destruct (fetched (get_stories remote) (stories_path taskGid) token)
    as [e2|cs] eqn:E2.
  { rewrite (run_stories_fail _ _ _ _ _ _ _ E1 E2). cbn. lia. }
  destruct (fetched (get_subtasks remote) (subtasks_path taskGid) token)
    as [e3|l] eqn:E3.
  { rewrite (run_subtasks_fail _ _ _ _ _ _ _ _ E1 E2 E3). cbn. lia. }
  destruct (all_or_pending remote token fuel depth l) as [Hs|Hp].
  - rewrite (run_settled _ _ _ _ _ _ _ _ E1 E2 E3 Hs) in H. discriminate.
  - pose proof (run_pending _ _ _ _ _ _ _ _ E1 E2 E3 Hp) as Hq.
    unfold outcome_of in Hq. congruence.
Qed.

(** Three requests for each node of the returned tree, and at most three
    more for each subtask that failed. *)
Lemma request_count (fuel : nat) :
  forall taskGid depth tree,
    outcome_of remote fuel taskGid token depth = Returned tree ->
    3 * List.length (nodes tree)
    <= List.length (requested remote fuel taskGid token depth)
    <= 3 * List.length (nodes tree)
       + 3 * List.length (errors (logged remote fuel taskGid token depth)).
Proof.
  induction fuel as [|fuel IH]; intros taskGid depth tree Hout;
    [discriminate|].
  pose proof (outcome_Ending remote token fuel taskGid depth) as Hend.
  rewrite Hout in Hend.
  inversion Hend as [| | |t cs l E1 E2 E3 Hall Htree|]; subst tree.
  unfold requested, logged.
  rewrite (run_settled _ _ _ _ _ _ _ _ E1 E2 E3 Hall). cbn [snd issued sink].
  rewrite length_app. cbn [own_requests List.length].
  unfold errors at 1. rewrite filter_app.
  fold (errors (preamble_entries taskGid depth l)).
  rewrite preamble_errors. cbn [app].
  fold (errors (loop_entries remote fuel token depth (List.length l) 0 l)).
  rewrite (loop_errors remote token). cbn [nodes List.length].
  clear E3 Hout Hend.
  induction Hall as [|sub subs Hsub _ IHsubs].
  - cbn. lia.
  - cbn [flat_map map successes].
    fold (successes (map (child fuel depth) subs)).
    rewrite !length_app.
    destruct (child fuel depth sub) as [c|e|] eqn:Ec; [| |congruence].
    + cbn [app flat_map]. rewrite !length_app.
      pose proof (IH (gid sub) (depth + 1) c Ec) as Hc.
      cbn [List.length] in *. lia.
    + cbn [app List.length].
      pose proof (thrown_requests fuel (gid sub) (depth + 1) e Ec).
      rewrite (failed_child_logs_nothing remote token fuel depth sub e Ec).
      cbn [errors filter List.length app]. lia.
Qed.


End Narration.

(** X5.  The narration of a root whose three reads succeed and whose listed
    subtasks have finite subtrees.  Its [info] entries are, in order: the
    opening line; and, when the listing is not empty, the number of listed
    subtasks and one "Processing subtask i/n" line per listed subtask, i
    running from 1 to n, whether the subtask is then ingested or fails.
    Nothing below the root adds to them. *)
Theorem root_narration (remote : Remote) (token : string) (fuel : nat)
    (taskGid : string) (t : AsanaTask) (cs : list AsanaStory)
    (subtaskList : list AsanaTask) :
  fetched (get_task remote) (task_path taskGid) token = inr t ->
  fetched (get_stories remote) (stories_path taskGid) token = inr cs ->
  fetched (get_subtasks remote) (subtasks_path taskGid) token = inr subtaskList ->
  (forall sub, In sub subtaskList -> settles remote token fuel (gid sub) = true) ->
  filter (has_type info) (logged remote (S fuel) taskGid token 0)
  = progress_entries taskGid subtaskList
  /\ List.length (filter (has_type info) (logged remote (S fuel) taskGid token 0))
     = match subtaskList with
       | [] => 1
       | _ :: _ => 2 + List.length subtaskList
       end.
Proof.
  intros E1 E2 E3 Hfin.
  pose proof (settled_children remote token fuel 0 subtaskList Hfin) as Hall.
  assert (H : filter (has_type info) (logged remote (S fuel) taskGid token 0)
              = progress_entries taskGid subtaskList).
  { unfold logged.
    rewrite (run_settled remote token fuel taskGid 0 t cs subtaskList
               E1 E2 E3 Hall).
    cbn [snd sink]. rewrite filter_app, loop_info.
    unfold preamble_entries, progress_entries, narration.
    cbn [Nat.eqb]. now destruct subtaskList. }
  split; [exact H|]. rewrite H. unfold progress_entries.
  destruct subtaskList as [|sub subs]; [reflexivity|].
  cbn [List.length]. rewrite length_map, length_combine, length_seq.
  cbn [List.length]. lia.
Qed.

(** On the sample service: the opening line, the count, and three numbered
    lines, the second for the subtask that fails. *)
Lemma root_narration_witness :
  map fst (filter (has_type info) (logged Sample.remote 2 "100" "token" 0))
  = [ "Fetching main task details (100)...";
      "Found 3 subtasks. Processing...";
      "Processing subtask 1/3: " ++ Js.dquote ++ "First" ++ Js.dquote;
      "Processing subtask 2/3: " ++ Js.dquote ++ "Second" ++ Js.dquote;
      "Processing subtask 3/3: " ++ Js.dquote ++ "Third" ++ Js.dquote ].
Proof.
  destruct (root_narration Sample.remote "token" 1 "100"
              (Sample.a_task "100" "Root")
              [ Sample.a_story "1" "comment_added" "hello";
                Sample.a_story "2" "assigned" "assigned to Ada";
                Sample.a_story "3" "comment_added" "bye" ]
              [ Sample.a_task "101" "First"; Sample.a_task "102" "Second";
                Sample.a_task "103" "Third" ]
              eq_refl eq_refl eq_refl) as [H _].
  - intros sub [<-|[<-|[<-|[]]]]; reflexivity.
  - rewrite H. reflexivity.
Defined.

(** X6.  When every listed subtask fails at its first read, the ingestion
    still returns, and the tree it returns has no children: it is the tree
    of a task with an empty listing.  Only the log tells the two apart, by
    one error entry per listed subtask. *)
Theorem all_failed_looks_childless (remote : Remote) (token : string)
    (fuel : nat) (taskGid : string) (depth : nat) (t : AsanaTask)
    (cs : list AsanaStory) (subtaskList : list AsanaTask) :
  fetched (get_task remote) (task_path taskGid) token = inr t ->
  fetched (get_stories remote) (stories_path taskGid) token = inr cs ->
  fetched (get_subtasks remote) (subtasks_path taskGid) token = inr subtaskList ->
  (forall sub, In sub subtaskList ->
     exists e, fetched (get_task remote) (task_path (gid sub)) token = inl e) ->
  outcome_of remote (S (S fuel)) taskGid token depth
  = Returned (mkEnriched t (filter is_comment cs) [])
  /\ List.length (errors (logged remote (S (S fuel)) taskGid token depth))
     = List.length subtaskList.
Proof.
  intros E1 E2 E3 Hbad.
  destruct (unreadable_children remote token fuel depth subtaskList Hbad)
    as (Hall & Hnone & Hcount).
  pose proof (run_settled remote token (S fuel) taskGid depth t cs subtaskList
                E1 E2 E3 Hall) as Hrun.
  split.
  - unfold outcome_of. rewrite Hrun. cbn [fst]. now rewrite Hnone.
  - unfold logged. rewrite Hrun. cbn [snd sink].
    unfold errors at 1. rewrite filter_app.
    fold (errors (preamble_entries taskGid depth subtaskList)).
    rewrite preamble_errors. cbn [app].
    fold (errors (loop_entries remote (S fuel) token depth
                    (List.length subtaskList) 0 subtaskList)).
    rewrite (loop_errors remote token), (loop_error_count remote token), Hcount.
    replace (flat_map
               (fun sub => errors (logged remote (S fuel) (gid sub) token (depth + 1)))
               subtaskList)
      with (@nil (string * LogType)); [cbn; lia|].
    symmetry. clear -Hbad. induction subtaskList as [|sub subs IH];
      [reflexivity|].
    cbn [flat_map]. rewrite IH by (intros; apply Hbad; now right).
    destruct (Hbad sub (or_introl eq_refl)) as (e & He).
    rewrite (failed_child_logs_nothing remote token (S fuel) depth sub e);
      [reflexivity|].
    unfold child_outcome, outcome_of.
    now rewrite (run_task_fails _ _ _ _ _ _ He).
Qed.

(** Task 100 of the barren fixture lists two subtasks, neither readable:
    no children, two error entries. *)
Lemma all_failed_looks_childless_witness :
  outcome_of Fixture.barren 2 "100" "token" 0
  = Returned (mkEnriched (Sample.a_task "100" "Root") [] [])
  /\ List.length (errors (logged Fixture.barren 2 "100" "token" 0)) = 2.
Proof.
  apply (all_failed_looks_childless Fixture.barren "token" 0 "100" 0
           (Sample.a_task "100" "Root") []
           [Sample.a_task "201" "Gone"; Sample.a_task "202" "Gone too"]
           eq_refl eq_refl eq_refl).
  intros sub [<-|[<-|[]]]; eexists; reflexivity.
Defined.

(** X7.  The ingestion of a finite tree terminates: when every path of
    listed subtasks below a task ends within [n] nodes, [processTask] with
    fuel [n] returns or throws, under every sink, and with more fuel it
    does the same and leaves the same world. *)
Theorem finite_tree_terminates {Sk : Type} (remote : Remote)
    (log : string -> LogType -> Sk -> Sk) (n : nat) (taskGid token : string)
    (depth : nat) (w : World Sk) :
  settles remote token n taskGid = true ->
  fst (processTask remote log n taskGid token depth w) <> Pending
  /\ forall k,
       processTask remote log (n + k) taskGid token depth w
       = processTask remote log n taskGid token depth w.
Proof.
  intros Hs. split.
  - rewrite processTask_replay. cbn [fst].
    now apply settles_not_pending.
  - intros k. rewrite !processTask_replay.
    unfold outcome_of, logged, requested.
    now rewrite (run_fuel_irrelevant remote token n taskGid depth k Hs).
Qed.

(** The sample tree is two levels deep: fuel 2 is enough, and 2 + 5 gives
    the same. *)
Lemma finite_tree_terminates_witness :
  outcome_of Sample.remote 2 "100" "token" 0 <> Pending
  /\ run Sample.remote (2 + 5) "100" "token" 0 = run Sample.remote 2 "100" "token" 0.
Proof.
  destruct (finite_tree_terminates Sample.remote addLog 2 "100" "token" 0 fresh
              eq_refl) as [H1 H2].
  split; [exact H1 | exact (H2 5)].
Defined.



(** X9.  An ingestion that returns a tree has sent three requests for each
    node of the tree and at most three more for each subtask that failed:
    with no error entry logged, exactly three times the number of nodes. *)
Theorem three_reads_per_node {Sk : Type} (remote : Remote)
    (log : string -> LogType -> Sk -> Sk) (fuel : nat)
    (taskGid token : string) (depth : nat) (w : World Sk)
    (tree : EnrichedTask) :
  fst (processTask remote log fuel taskGid token depth w) = Returned tree ->
  let sent := requested remote fuel taskGid token depth in
  let failures := errors (logged remote fuel taskGid token depth) in
  issued (snd (processTask remote log fuel taskGid token depth w))
  = (issued w ++ sent)%list
  /\ 3 * List.length (nodes tree) <= List.length sent
     <= 3 * List.length (nodes tree) + 3 * List.length failures
  /\ (failures = [] -> List.length sent = 3 * List.length (nodes tree)).
Proof.
  intros Hout sent failures. rewrite processTask_replay in Hout |- *.
  cbn [fst snd issued] in Hout |- *.
  pose proof (request_count remote token fuel taskGid depth tree Hout) as H.
  fold sent failures in H.
  split; [reflexivity|]. split; [exact H|].
  intros Hnone. rewrite Hnone in H. cbn [List.length] in H. lia.
Qed.

(** On the sample service the tree has three nodes and one subtask failed
    at its first read: ten requests. *)
Lemma three_reads_per_node_witness :
  exists tree,
    outcome_of Sample.remote 2 "100" "token" 0 = Returned tree
    /\ List.length (nodes tree) = 3
    /\ List.length (requested Sample.remote 2 "100" "token" 0) = 10
    /\ 9 <= List.length (requested Sample.remote 2 "100" "token" 0) <= 9 + 3.
Proof.
  destruct (outcome_of Sample.remote 2 "100" "token" 0) as [tree| |] eqn:E;
    try (vm_compute in E; discriminate).
  exists tree. split; [reflexivity|].
  assert (Hn : List.length (nodes tree) = 3)
    by (vm_compute in E; injection E as <-; reflexivity).
  destruct (three_reads_per_node Sample.remote addLog 2 "100" "token" 0 fresh
              tree E) as (_ & H & _).
  rewrite Hn in H. repeat split; try exact Hn; try reflexivity; apply H.
Defined.

Section Depth.

Variable remote : Remote.
Variable token : string.


End Depth.

(* ================================================================== *)
(** * The resolver on its own results *)
(* ================================================================== *)

Lemma strip_prefix_other (tok s : string) (a c : ascii) :
  a <> c -> Js.strip_prefix (String a tok) (String c s) = None.
Proof.
  intros H. cbn. destruct (Ascii.eqb_spec a c); [contradiction | reflexivity].
Qed.

Lemma strip_one_other (toks : list string) (c : ascii) (s : string) :
  none_starts_with c toks -> Js.strip_one toks (String c s) = None.
Proof.
  induction 1 as [|tok toks Htok _ IH]; [reflexivity|].
  cbn [Js.strip_one]. destruct tok as [|a tok]; [contradiction|].
  now rewrite (strip_prefix_other tok s a c Htok).
Qed.

Lemma strip_all_other (fuel : nat) (toks : list string) (c : ascii) (s : string) :
  none_starts_with c toks -> Js.strip_all fuel toks (String c s) = String c s.
Proof.
  intros H. destruct fuel; [reflexivity|].
  cbn [Js.strip_all]. now rewrite (strip_one_other toks c s H).
Qed.

(** No white space starts, or ends, with the byte of a digit. *)
Lemma white_space_not_digit (c : ascii) :
  Js.is_digit c = true ->
  none_starts_with c Js.white_space
  /\ none_starts_with c (map Js.rev_string Js.white_space).
Proof.
  intros Hc. split; unfold none_starts_with; vm_compute;
    repeat (constructor; [intros E; subst c; vm_compute in Hc; discriminate|]);
    constructor.
Qed.

Lemma rev_string_all (p : ascii -> bool) (s : string) :
  Js.all_chars p s = true -> Js.all_chars p (Js.rev_string s) = true.
Proof.
  induction s as [|c s IH]; [reflexivity|]. cbn [Js.all_chars Js.rev_string].
  intros H. apply andb_true_iff in H as [Hc Hs].
  specialize (IH Hs). revert IH.
  generalize (Js.rev_string s). intros r. induction r as [|d r IHr]; cbn.
  - now rewrite Hc.
  - intros H. apply andb_true_iff in H as [Hd Hr]. now rewrite Hd, IHr.
Qed.

Lemma rev_string_involutive (s : string) : Js.rev_string (Js.rev_string s) = s.
Proof.
  induction s as [|c s IH]; [reflexivity|].
  cbn [Js.rev_string]. now rewrite rev_string_append, IH.
Qed.

(** [trim] leaves a string of digits as it is. *)
Lemma trim_digits (s : string) : Js.re_digits s = true -> Js.trim s = s.
Proof.
  intros H. apply re_digits_spec in H as [Hne Hall].
  destruct s as [|c s]; [congruence|].
  pose proof Hall as Hc. cbn [Js.all_chars] in Hc.
  apply andb_true_iff in Hc as [Hc _].
  unfold Js.trim, Js.trimStart.
  rewrite (strip_all_other _ _ c s (proj1 (white_space_not_digit c Hc))).
  unfold Js.trimEnd.
  pose proof (rev_string_all _ _ Hall) as Hrev.
  destruct (Js.rev_string (String c s)) as [|d r] eqn:Er.
  - apply (f_equal Js.rev_string) in Er.
    rewrite rev_string_involutive in Er. discriminate.
  - cbn [Js.all_chars] in Hrev. apply andb_true_iff in Hrev as [Hd _].
    rewrite (strip_all_other _ _ d r (proj2 (white_space_not_digit d Hd))).
    rewrite <- Er. apply rev_string_involutive.
Qed.

(** X10.  A string of decimal digits resolves to itself, unchanged, whatever
    the [URL] constructor does; so the resolver is idempotent: an id it
    returns for any input resolves to itself again. *)
Theorem extractTaskGid_fixes_ids (new_URL : string -> option URL)
    (url : string) :
  (Js.re_digits url = true -> extractTaskGid new_URL url = Some url)
  /\ (forall g,
        extractTaskGid new_URL url = Some g ->
        extractTaskGid new_URL g = Some g).
Proof.
  assert (H : forall s, Js.re_digits s = true ->
                        extractTaskGid new_URL s = Some s).
  { intros s Hs. unfold extractTaskGid. rewrite (trim_digits s Hs), Hs.
    destruct s; [discriminate | reflexivity]. }
  split; [apply H|].
  intros g Hg. apply H. exact (extractTaskGid_digits new_URL url g Hg).
Qed.

(** The id found in a focused-view link resolves to itself. *)
Lemma extractTaskGid_fixes_ids_witness :
  extractTaskGid Sample.new_URL "https://app.asana.com/0/12345/67890/f"
  = Some "67890"
  /\ extractTaskGid Sample.new_URL "67890" = Some "67890".
Proof.
  split; [reflexivity|].
  exact (proj2 (extractTaskGid_fixes_ids Sample.new_URL
                  "https://app.asana.com/0/12345/67890/f")
           "67890" eq_refl).
Defined.

(* ================================================================== *)
(** * The renderer: quoted descriptions and one-line comments *)
(* ================================================================== *)

Lemma join_cons (sep part : string) (rest : list string) :
  rest <> [] -> join sep (part :: rest) = part ++ sep ++ join sep rest.
Proof. destruct rest; [congruence | reflexivity]. Qed.

(** Replacing each newline by a newline and a mark is marking each line. *)
Lemma mark_lines (mark : string) (s : string) :
  forall pre,
  exists seg rest,
    Js.split "010"%char s = seg :: rest
    /\ pre ++ Js.replace_newlines (Js.newline ++ mark) s
       = join Js.newline ((pre ++ seg) :: map (append mark) rest).
Proof.
  induction s as [|c s IH]; intros pre.
  - exists "", []. split; reflexivity.
  - cbn [Js.split Js.replace_newlines].
    destruct (Ascii.eqb c "010"%char) eqn:Ec.
    + destruct (IH mark) as (seg & rest & E & H).
      exists "", (Js.split "010"%char s). split; [reflexivity|].
      rewrite join_cons by (rewrite E; discriminate).
      rewrite E. cbn [map]. rewrite <- H.
      now rewrite append_nil_r, !append_assoc.
    + destruct (IH (pre ++ String c "")) as (seg & rest & E & H).
      rewrite E. exists (String c seg), rest. split; [reflexivity|].
      rewrite append_assoc in H. cbn [append] in H. rewrite H.
      now rewrite append_assoc.
Qed.

Lemma quoted_lines (s : string) :
  "> " ++ Js.replace_newlines (Js.newline ++ "> ") s
  = join Js.newline (map (append "> ") (Js.split "010"%char s)).
Proof.
  destruct (mark_lines "> " s "> ") as (seg & rest & E & H).
  rewrite H, E. reflexivity.
Qed.

(** X11.  The description of a subtask is block-quoted line by line: after
    the heading and the metadata line, [renderSubtasks] writes the lines of
    the notes, each behind ["> "], joined by newlines, then a blank line;
    so a description of several lines stays inside the quote. *)
Theorem description_is_quoted_by_line (toLocaleDateString : string -> string)
    (level : nat) (sub : EnrichedTask) (index : nat) (md : string) :
  notes (task sub) <> "" ->
  exists rest,
    renderSubtask toLocaleDateString level sub index md
    = md ++ subtask_heading (level + 2) (index + 1) sub
      ++ "*Assignee: " ++ name_or (assignee (task sub)) "Unassigned"
      ++ " | Due: " ++ formatDate toLocaleDateString (due_on (task sub))
      ++ "*" ++ Js.newline ++ Js.newline
      ++ join Js.newline
           (map (append "> ") (Js.split "010"%char (notes (task sub))))
      ++ Js.newline ++ Js.newline ++ rest.
Proof.
  intros Hn. apply truthy_true in Hn.
  rewrite renderSubtask_block, subtask_block_unfold.
  unfold subtask_details. rewrite Hn, <- quoted_lines.
  eexists. repeat rewrite append_assoc. reflexivity.
Qed.

(** A description of two lines gives two quoted lines. *)
Lemma description_is_quoted_by_line_witness :
  exists rest,
    renderSubtask Sample.toLocaleDateString 1
      (Fixture.a_subtask ("first" ++ Js.newline ++ "second")) 0 ""
    = "### 1. " ++ glyph_incomplete ++ " Quoted" ++ Js.newline ++ Js.newline
      ++ "*Assignee: Unassigned | Due: No Date*" ++ Js.newline ++ Js.newline
      ++ "> first" ++ Js.newline ++ "> second" ++ Js.newline ++ Js.newline
      ++ rest.
Proof.
  destruct (description_is_quoted_by_line Sample.toLocaleDateString 1
              (Fixture.a_subtask ("first" ++ Js.newline ++ "second")) 0 ""
              ltac:(discriminate)) as (rest & E).
  exists rest. rewrite E. reflexivity.
Defined.

Lemma split_one_line (s : string) :
  Js.all_chars (fun c => negb (Ascii.eqb c "010"%char)) s = true ->
  Js.split "010"%char s = [s].
Proof.
  induction s as [|c s IH]; [reflexivity|]. cbn [Js.all_chars Js.split].
  intros H. apply andb_true_iff in H as [Hc Hs].
  apply negb_true_iff in Hc. now rewrite Hc, (IH Hs).
Qed.

Lemma all_chars_app (p : ascii -> bool) (a b : string) :
  Js.all_chars p (a ++ b) = Js.all_chars p a && Js.all_chars p b.
Proof.
  induction a as [|c a IH]; cbn; [reflexivity|].
  now rewrite IH, andb_assoc.
Qed.

Lemma collapsed_newlines (s : string) :
  Js.all_chars (fun c => negb (Ascii.eqb c "010"%char))
    (Js.replace_newlines " " s) = true
  /\ String.length (Js.replace_newlines " " s) = String.length s.
Proof.
  induction s as [|c s [IH1 IH2]]; [split; reflexivity|].
  cbn [Js.replace_newlines].
  destruct (Ascii.eqb c "010"%char) eqn:Ec; cbn; rewrite ?Ec, IH1, IH2;
    split; reflexivity.
Qed.

(** X12.  A comment of a subtask takes one line of the list: its body is
    written with every newline replaced by a space, at the same length, so
    the bullet, author in bold then body, holds no line break as long as
    the author's name holds none. *)
Theorem comment_bullet_is_one_line (s : AsanaStory) :
  let author := name_or (created_by s) "Unknown" in
  let bullet := "- **" ++ author ++ "**: " ++ Js.replace_newlines " " (text s) in
  Js.all_chars (fun c => negb (Ascii.eqb c "010"%char)) author = true ->
  Js.split "010"%char bullet = [bullet]
  /\ String.length (Js.replace_newlines " " (text s)) = String.length (text s).
Proof.
  intros author bullet Ha. split; [|apply collapsed_newlines].
  apply split_one_line. unfold bullet.
  rewrite !all_chars_app, Ha, (proj1 (collapsed_newlines (text s))).
  reflexivity.
Qed.

Lemma comment_bullet_is_one_line_witness :
  Js.split "010"%char
    ("- **Ada**: "
     ++ Js.replace_newlines " " ("one" ++ Js.newline ++ "two"))
  = ["- **Ada**: one two"].
Proof.
  exact (proj1 (comment_bullet_is_one_line
                  (Sample.a_story "1" "comment_added"
                     ("one" ++ Js.newline ++ "two"))
                  eq_refl)).
Defined.

(* ================================================================== *)
(** * The caller: [handleGenerate] *)
(* ================================================================== *)

Lemma replay_app_addLog (entries : list (string * LogType)) (st : AppState) :
  replay app_addLog entries st = setLogs (fun prev => prev ++ entries)%list st.
Proof.
  revert st; induction entries as [|[m ty] entries IH]; intros st;
    unfold replay in *; cbn [fold_left].
  - destruct st. unfold setLogs. cbn. now rewrite app_nil_r.
  - rewrite IH. destruct st. unfold app_addLog, setLogs. cbn.
    now rewrite <- app_assoc.
Qed.

Lemma truthy_false_iff (s : string) : s = "" <-> Js.truthy s = false.
Proof. destruct s; cbn; split; congruence. Qed.

Lemma resolved_is_truthy (new_URL : string -> option URL) (url g : string) :
  extractTaskGid new_URL url = Some g -> Js.truthy g = true.
Proof.
  intros H. apply extractTaskGid_digits, re_digits_spec in H as [Hne _].
  now apply truthy_true.
Qed.

Section Handler.

Variable remote : Remote.
Variable new_URL : string -> option URL.
Variable toLocaleDateString : string -> string.
Variable toLocaleString : string -> string.

Local Abbreviation handle :=
  (handleGenerate remote new_URL toLocaleDateString toLocaleString).
Local Abbreviation render :=
  (generateMarkdown toLocaleDateString toLocaleString).

(** The handler with a blank token. *)
Lemma handle_blank_token (fuel : nat) (w : World AppState) :
  Js.truthy (Js.trim (st_token (sink w))) = false ->
  handle fuel w
  = (Returned tt,
     mkWorld (mkApp (st_url (sink w)) (st_token (sink w)) false [] None
                (Some "Please enter your Asana Personal Access Token."))
             (issued w)).
Proof.
  intros H. unfold handleGenerate. rewrite H. reflexivity.
Qed.

(** The handler with a token and an input that does not resolve. *)
Lemma handle_unresolved (fuel : nat) (w : World AppState) :
  Js.truthy (Js.trim (st_token (sink w))) = true ->
  extractTaskGid new_URL (st_url (sink w)) = None ->
  handle fuel w
  = (Returned tt,
     mkWorld (mkApp (st_url (sink w)) (st_token (sink w)) false [] None
                (Some "Invalid Asana URL. Could not extract Task ID."))
             (issued w)).
Proof.
  intros H1 H2. unfold handleGenerate. rewrite H1, H2. reflexivity.
Qed.

(** The handler with a token and an input that resolves to [g]: what it
    leaves depends on how the ingestion of [g] ends. *)
Lemma handle_resolved (fuel : nat) (w : World AppState) (g : string) :
  Js.truthy (Js.trim (st_token (sink w))) = true ->
  extractTaskGid new_URL (st_url (sink w)) = Some g ->
  let url := st_url (sink w) in
  let token := st_token (sink w) in
  let opening := [ ("Starting ingestion process...", info);
                   ("Target Task ID: " ++ g, info) ] in
  let entries := (opening ++ logged remote fuel g token 0)%list in
  let sent := (issued w ++ requested remote fuel g token 0)%list in
  handle fuel w
  = match outcome_of remote fuel g token 0 with
    | Returned tree =>
        (Returned tt,
         mkWorld
           (mkApp url token false
              (entries
               ++ [("Processing complete. Generating Markdown...", success)])
              (Some (render tree)) None)
           sent)
    | Thrown e =>
        (Returned tt,
         mkWorld
           (mkApp url token false
              (entries ++ [("Failed: " ++ message e, error)])
              None
              (Some (if Js.truthy (message e) then message e
                     else "An unexpected error occurred.")))
           sent)
    | Pending =>
        (Pending, mkWorld (mkApp url token true entries None None) sent)
    end.
Proof.
  destruct w as [[u tk busy old md err] sent0].
  cbn [sink issued st_url st_token]. intros H1 H2.
  unfold handleGenerate. cbn [sink issued st_url st_token].
  rewrite H1, H2, (resolved_is_truthy _ _ _ H2). cbn [negb].
  unfold generate, report, bind, try_catch, update, emit, ret.
  cbn [sink issued]. rewrite processTask_replay, replay_app_addLog.
  cbn [sink issued].
  destruct (outcome_of remote fuel g tk 0) as [tree|e|];
    cbv beta iota delta [setLogs setError setMarkdown setIsLoading app_addLog
                         st_url st_token isLoading logs markdown st_error
                         sink issued];
    cbn [app]; rewrite <- ?app_assoc; reflexivity.
Qed.

(** The three ways through the handler. *)
Lemma handle_cases (fuel : nat) (w : World AppState) :
  Js.truthy (Js.trim (st_token (sink w))) = false
  \/ (Js.truthy (Js.trim (st_token (sink w))) = true
      /\ extractTaskGid new_URL (st_url (sink w)) = None)
  \/ (Js.truthy (Js.trim (st_token (sink w))) = true
      /\ exists g, extractTaskGid new_URL (st_url (sink w)) = Some g).
Proof.
  destruct (Js.truthy (Js.trim (st_token (sink w)))); [|now left].
  destruct (extractTaskGid new_URL (st_url (sink w))) as [g|].
  - right. right. split; [reflexivity | now exists g].
  - right. left. now split.
Qed.

End Handler.

(** X13.  [handleGenerate] validates before it fetches.  With a token that
    is blank after trimming, or an input that does not resolve to a task
    id, it sends no request and logs nothing: it ends with the matching
    error message, no document and an empty log, whatever the state held
    before.  So a request is only ever sent for a non-blank token and an
    input that resolves. *)
Theorem handleGenerate_validates_first (remote : Remote)
    (new_URL : string -> option URL)
    (toLocaleDateString toLocaleString : string -> string)
    (fuel : nat) (w : World AppState) :
  let after :=
    handleGenerate remote new_URL toLocaleDateString toLocaleString fuel w in
  let rejected msg :=
    after = (Returned tt,
             mkWorld (mkApp (st_url (sink w)) (st_token (sink w)) false []
                        None (Some msg))
                     (issued w)) in
  (Js.trim (st_token (sink w)) = "" ->
   rejected "Please enter your Asana Personal Access Token.")
  /\ (Js.trim (st_token (sink w)) <> "" ->
      extractTaskGid new_URL (st_url (sink w)) = None ->
      rejected "Invalid Asana URL. Could not extract Task ID.")
  /\ (issued (snd after) <> issued w ->
      Js.trim (st_token (sink w)) <> ""
      /\ exists g, extractTaskGid new_URL (st_url (sink w)) = Some g).
Proof.
  intros after rejected. repeat apply conj.
  - intros H. apply truthy_false_iff in H.
    exact (handle_blank_token remote new_URL _ _ fuel w H).
  - intros H1 H2. apply truthy_true in H1.
    exact (handle_unresolved remote new_URL _ _ fuel w H1 H2).
  - intros Hsent.
    destruct (handle_cases new_URL fuel w) as [H|[[H1 H2]|[H1 H2]]].
    + exfalso. apply Hsent. unfold after.
      now rewrite (handle_blank_token remote new_URL _ _ fuel w H).
    + exfalso. apply Hsent. unfold after.
      now rewrite (handle_unresolved remote new_URL _ _ fuel w H1 H2).
    + split; [now apply truthy_true | exact H2].
Qed.

(** A blank token, then a link to another site: no request either time. *)
Lemma handleGenerate_validates_first_witness :
  issued (snd (handleGenerate Sample.remote Sample.new_URL
                 Sample.toLocaleDateString Sample.toLocaleString 3
                 (Fixture.start "https://app.asana.com/0/1/100" "   "))) = []
  /\ handleGenerate Sample.remote Sample.new_URL
       Sample.toLocaleDateString Sample.toLocaleString 3
       (Fixture.start "https://example.com/0/1/100" "token")
     = (Returned tt,
        mkWorld (mkApp "https://example.com/0/1/100" "token" false [] None
                   (Some "Invalid Asana URL. Could not extract Task ID."))
                []).
Proof.
  split.
  - destruct (handleGenerate_validates_first Sample.remote Sample.new_URL
                Sample.toLocaleDateString Sample.toLocaleString 3
                (Fixture.start "https://app.asana.com/0/1/100" "   "))
      as (H & _).
    cbv zeta in H. rewrite (H eq_refl). reflexivity.
  - destruct (handleGenerate_validates_first Sample.remote Sample.new_URL
                Sample.toLocaleDateString Sample.toLocaleString 3
                (Fixture.start "https://example.com/0/1/100" "token"))
      as (_ & H & _).
    exact (H ltac:(discriminate) eq_refl).
Defined.

(** X14.  However [handleGenerate] goes, it never throws, and it leaves the
    input and the token as they were.  When it finishes, the spinner is off
    and exactly one of the document and the error message is set; while the
    ingestion is pending, the spinner is on and neither is set. *)
Theorem handleGenerate_document_or_error (remote : Remote)
    (new_URL : string -> option URL)
    (toLocaleDateString toLocaleString : string -> string)
    (fuel : nat) (w : World AppState) :
  let after :=
    handleGenerate remote new_URL toLocaleDateString toLocaleString fuel w in
  let st := sink (snd after) in
  st_url st = st_url (sink w) /\ st_token st = st_token (sink w)
  /\ ((fst after = Returned tt /\ isLoading st = false
       /\ ((exists md, markdown st = Some md /\ st_error st = None)
           \/ (exists msg, markdown st = None /\ st_error st = Some msg)))
      \/ (fst after = Pending /\ isLoading st = true
          /\ markdown st = None /\ st_error st = None)).
Proof.
  intros after st. unfold st, after.
  destruct (handle_cases new_URL fuel w) as [H|[[H1 H2]|[H1 (g & H2)]]].
  - rewrite (handle_blank_token remote new_URL _ _ fuel w H).
    cbn. repeat split. left. repeat split. right. now eexists.
  - rewrite (handle_unresolved remote new_URL _ _ fuel w H1 H2).
    cbn. repeat split. left. repeat split. right. now eexists.
  - rewrite (handle_resolved remote new_URL _ _ fuel w g H1 H2). cbv zeta.
    destruct (outcome_of remote fuel g (st_token (sink w)) 0) as [tree|e|];
      cbn [fst snd sink st_url st_token isLoading markdown st_error];
      repeat split.
    + left. repeat split. left. now eexists.
    + left. repeat split. right. now eexists.
    + right. repeat split.
Qed.

(** X15.  When the token is not blank, the input resolves to [g] and the
    ingestion of [g] returns a tree, [handleGenerate] finishes with the
    rendering of that tree as the document and no error.  The log is the two
    opening lines, the engine's entries, and one [success] entry, the last
    and the only one of that type. *)
Theorem handleGenerate_success (remote : Remote)
    (new_URL : string -> option URL)
    (toLocaleDateString toLocaleString : string -> string)
    (fuel : nat) (w : World AppState) (g : string) (tree : EnrichedTask) :
  Js.trim (st_token (sink w)) <> "" ->
  extractTaskGid new_URL (st_url (sink w)) = Some g ->
  outcome_of remote fuel g (st_token (sink w)) 0 = Returned tree ->
  let after :=
    handleGenerate remote new_URL toLocaleDateString toLocaleString fuel w in
  let st := sink (snd after) in
  fst after = Returned tt
  /\ markdown st = Some (generateMarkdown toLocaleDateString toLocaleString tree)
  /\ st_error st = None
  /\ isLoading st = false
  /\ logs st
     = ([ ("Starting ingestion process...", info);
          (("Target Task ID: " ++ g)%string, info) ]
        ++ logged remote fuel g (st_token (sink w)) 0
        ++ [("Processing complete. Generating Markdown...", success)])%list
  /\ filter (has_type success) (logs st)
     = [("Processing complete. Generating Markdown...", success)].
Proof.
  intros H1 H2 Hout after st. apply truthy_true in H1.
  unfold st, after.
  rewrite (handle_resolved remote new_URL _ _ fuel w g H1 H2). cbv zeta.
  rewrite Hout. cbn [fst snd sink markdown st_error isLoading logs].
  repeat split.
  rewrite !filter_app, never_success. reflexivity.
Qed.

(** X16.  When the token is not blank, the input resolves to [g] and the
    ingestion of [g] throws, [handleGenerate] catches the error: it
    finishes with no document, with the error's message as the error
    message (a fixed text when the message is empty), and with one more log
    entry, of type [error], quoting the message.  No [success] entry is
    logged. *)
Theorem handleGenerate_failure (remote : Remote)
    (new_URL : string -> option URL)
    (toLocaleDateString toLocaleString : string -> string)
    (fuel : nat) (w : World AppState) (g : string) (e : JsError) :
  Js.trim (st_token (sink w)) <> "" ->
  extractTaskGid new_URL (st_url (sink w)) = Some g ->
  outcome_of remote fuel g (st_token (sink w)) 0 = Thrown e ->
  let after :=
    handleGenerate remote new_URL toLocaleDateString toLocaleString fuel w in
  let st := sink (snd after) in
  fst after = Returned tt
  /\ markdown st = None
  /\ st_error st
     = Some (if Js.truthy (message e) then message e
             else "An unexpected error occurred.")
  /\ isLoading st = false
  /\ logs st
     = [ ("Starting ingestion process...", info);
         ("Target Task ID: " ++ g, info);
         start_entry g;
         ("Failed: " ++ message e, error) ]
  /\ filter (has_type success) (logs st) = [].
Proof.
  intros H1 H2 Hout after st. apply truthy_true in H1.
  unfold st, after.
  rewrite (handle_resolved remote new_URL _ _ fuel w g H1 H2). cbv zeta.
  rewrite Hout. cbn [fst snd sink markdown st_error isLoading logs].
  rewrite (thrown_logged remote _ fuel g 0 e Hout).
  repeat split.
Qed.

(** The sample service, through the handler: a document, no error, and the
    [success] entry last. *)
Lemma handleGenerate_success_witness :
  let st :=
    sink (snd (handleGenerate Sample.remote Sample.new_URL
                 Sample.toLocaleDateString Sample.toLocaleString 3
                 (Fixture.start "https://app.asana.com/0/1/100" "token"))) in
  (exists md, markdown st = Some md) /\ st_error st = None
  /\ filter (has_type success) (logs st)
     = [("Processing complete. Generating Markdown...", success)].
Proof.
  destruct (outcome_of Sample.remote 3 "100" "token" 0) as [tree| |] eqn:E;
    try (vm_compute in E; discriminate).
  destruct (handleGenerate_success Sample.remote Sample.new_URL
              Sample.toLocaleDateString Sample.toLocaleString 3
              (Fixture.start "https://app.asana.com/0/1/100" "token")
              "100" tree ltac:(discriminate) eq_refl E)
    as (_ & Hmd & Herr & _ & _ & Hsucc).
  cbv zeta. split; [eexists; exact Hmd | split; [exact Herr | exact Hsucc]].
Defined.

(** A service that knows no task, through the handler: the "Not Found"
    message as the error, no document. *)
Lemma handleGenerate_failure_witness :
  let st :=
    sink (snd (handleGenerate Sample.empty Sample.new_URL
                 Sample.toLocaleDateString Sample.toLocaleString 3
                 (Fixture.start "https://app.asana.com/0/1/100" "token"))) in
  markdown st = None
  /\ st_error st
     = Some ("Not Found: Resource at " ++ task_path "100"
             ++ " does not exist or you lack access.")
  /\ List.length (logs st) = 4.
Proof.
  destruct (handleGenerate_failure Sample.empty Sample.new_URL
              Sample.toLocaleDateString Sample.toLocaleString 3
              (Fixture.start "https://app.asana.com/0/1/100" "token")
              "100"
              (Error ("Not Found: Resource at " ++ task_path "100"
                      ++ " does not exist or you lack access."))
              ltac:(discriminate) eq_refl eq_refl)
    as (_ & Hmd & Herr & _ & Hlogs & _).
  cbv zeta. split; [exact Hmd | split; [exact Herr | now rewrite Hlogs]].
Defined.
(* ================================================================== *)
(** * Sinks that return, sinks that throw, and the depth *)
(* ================================================================== *)


Lemma repeatT_rejects (max_count : Z) (range_error : Z -> JsError)
    (s : string) (count : Z) :
  (count < 0 \/ max_count < count)%Z ->
  repeatT max_count range_error s count = inl (range_error count).
Proof.
  intros H. unfold repeatT.
  destruct (Z.ltb_spec count 0); [reflexivity|].
  destruct (Z.ltb_spec max_count count); [reflexivity | lia].
Qed.

Lemma processTaskT_unfold {S : Type} (remote : Remote)
    (logT : string -> LogType -> S -> S * option JsError)
    (max_count : Z) (range_error : Z -> JsError)
    (fuel : nat) (taskGid token : string) (depth : Z) :
  processTaskT remote logT max_count range_error fuel taskGid token depth
  = match repeatT max_count range_error "  " depth with
    | inl e => throw e
    | inr indent =>
        match fuel with
        | O => pending
        | Datatypes.S fuel' =>
            (when (depth =? 0)%Z
               (emitT logT ("Fetching main task details (" ++ taskGid ++ ")...")
                  info) ;;
             task <- fetchAsana (get_task remote) (task_path taskGid) token ;;
             stories <-
               fetchAsana (get_stories remote) (stories_path taskGid) token ;;
             subtaskList <-
               fetchAsana (get_subtasks remote) (subtasks_path taskGid) token ;;
             enrichedSubtasks <-
               (if (0 <? List.length subtaskList)%nat then
                  when (depth =? 0)%Z
                    (emitT logT
                       ("Found " ++ Js.decimal (List.length subtaskList)
                        ++ " subtasks. Processing...") info) ;;
                  locals <-
                    for_of subtaskList
                      (subtask_stepT logT
                         (processTaskT remote logT max_count range_error fuel')
                         token depth indent (List.length subtaskList))
                      (0, []) ;;
                  ret (snd locals)
                else ret []) ;;
             ret (mkEnriched task (filter is_comment stories)
                    enrichedSubtasks))%async
        end
    end.
Proof. destruct fuel; reflexivity. Qed.

Section SinksThatReturn.

Context {S1 S2 : Type}.
Variable remote : Remote.
Variable logT1 : string -> LogType -> S1 -> S1 * option JsError.
Variable logT2 : string -> LogType -> S2 -> S2 * option JsError.
Variable max_count : Z.
Variable range_error : Z -> JsError.
Hypothesis returns1 : returns logT1.
Hypothesis returns2 : returns logT2.

Local Abbreviation whatever := (fun _ _ => True).
Local Abbreviation rel := (related (S1 := S1) (S2 := S2) whatever whatever).

Lemma alike_emitT (msg : string) (type : LogType) :
  rel (emitT logT1 msg type) (emitT logT2 msg type).
Proof.
  intros w1 w2 _. unfold emitT.
  pose proof (returns1 msg type (sink w1)) as H1.
  pose proof (returns2 msg type (sink w2)) as H2.
  destruct (logT1 msg type (sink w1)) as [s1 t1].
  destruct (logT2 msg type (sink w2)) as [s2 t2].
  simpl in H1, H2. subst t1 t2. split; [reflexivity | split; exact I].
Qed.

Lemma alike_fetchAsana {T} (endpoint : string -> string -> Reply T)
    (path token : string) :
  rel (fetchAsana endpoint path token) (fetchAsana endpoint path token).
Proof. apply related_fetchAsana. intros; exact I. Qed.

Lemma alike_throw {A} (e : JsError) : rel (@throw S1 A e) (@throw S2 A e).
Proof. intros w1 w2 H. split; [reflexivity | exact H]. Qed.

Lemma alike_processTaskT (fuel : nat) :
  forall taskGid token depth,
    rel (processTaskT remote logT1 max_count range_error fuel taskGid token depth)
        (processTaskT remote logT2 max_count range_error fuel taskGid token depth).
Proof.
  induction fuel as [|fuel IH]; intros taskGid token depth;
    rewrite !processTaskT_unfold;
    destruct (repeatT max_count range_error "  " depth) as [e|indent];
    try apply alike_throw.
  - apply related_pending.
  - apply related_bind; [apply related_when, alike_emitT | intros _].
    apply related_bind; [apply alike_fetchAsana | intros t].
    apply related_bind; [apply alike_fetchAsana | intros cs].
    apply related_bind; [apply alike_fetchAsana | intros subtaskList].
    apply related_bind; [| intros children; apply related_ret].
    destruct (0 <? List.length subtaskList)%nat; [| apply related_ret].
    apply related_bind; [apply related_when, alike_emitT | intros _].
    apply related_bind; [| intros locals; apply related_ret].
    apply related_for_of. intros sub [completedCount enriched].
    unfold subtask_stepT.
    apply related_bind; [apply related_when, alike_emitT | intros _].
    apply related_try_catch.
    + apply related_bind; [apply IH | intros full; apply related_ret].
    + intros err.
      apply related_bind; [apply alike_emitT | intros _; apply related_ret].
Qed.

End SinksThatReturn.

Section Agreement.

Context {S : Type}.
Variable remote : Remote.
Variable logT : string -> LogType -> S -> S * option JsError.
Variable max_count : Z.
Variable range_error : Z -> JsError.
Hypothesis logT_returns : returns logT.

Local Abbreviation same := (related (S1 := S) (S2 := S) eq eq).





End Agreement.

(** C8, as the code has it.  For every service, root id, credential and depth,
    and every two log sinks that return from every call (of any two state
    types, started in any two states), [processTask] ends alike for the
    same fuel: with the same tree, the same exception or, both, not at all.
    The entries such sinks are given, and what they do with them, never
    reach the control flow. *)
Theorem processTask_ignores_returning_sinks {S1 S2 : Type} (remote : Remote)
    (logT1 : string -> LogType -> S1 -> S1 * option JsError)
    (logT2 : string -> LogType -> S2 -> S2 * option JsError)
    (max_count : Z) (range_error : Z -> JsError)
    (fuel : nat) (taskGid token : string) (depth : Z)
    (w1 : World S1) (w2 : World S2) :
  returns logT1 -> returns logT2 ->
  fst (processTaskT remote logT1 max_count range_error fuel taskGid token depth w1)
  = fst (processTaskT remote logT2 max_count range_error fuel taskGid token depth w2).
Proof.
  intros H1 H2.
  apply (alike_processTaskT remote logT1 logT2 max_count range_error H1 H2).
  split; exact I.
Qed.

Lemma processTask_ignores_returning_sinks_witness :
  returns Sinks.recording /\ returns Sinks.counting
  /\ fst (processTaskT Fixture.deep Sinks.recording Sinks.max_count
            Sinks.range_error 3 "100" "token" 0 fresh)
     = fst (processTaskT Fixture.deep Sinks.counting Sinks.max_count
              Sinks.range_error 3 "100" "token" 0 (mkWorld 7 ["earlier"]))
  /\ fst (processTaskT Fixture.deep Sinks.counting Sinks.max_count
            Sinks.range_error 3 "100" "token" 0 (mkWorld 7 ["earlier"]))
     = Returned (mkEnriched (Sample.a_task "100" "Root") []
                   [mkEnriched (Sample.a_task "101" "Child") [] []]).
Proof.
  assert (H1 : returns Sinks.recording) by (intros m t s; reflexivity).
  assert (H2 : returns Sinks.counting) by (intros m t s; reflexivity).
  repeat apply conj; try assumption.
  - exact (processTask_ignores_returning_sinks Fixture.deep Sinks.recording
             Sinks.counting Sinks.max_count Sinks.range_error 3 "100" "token" 0
             fresh (mkWorld 7 ["earlier"]) H1 H2).
  - vm_compute. reflexivity.
Defined.

(** C8, as stated, fails on the code.  On a service where task 100 lists 101, which
    lists 102, which cannot be read: with [addLog] as the sink the tree of
    100 holds 101; with a sink that throws on the first [error] entry it is
    given, the [catch] of 101's call throws, 101's call rejects, and the
    tree of 100 holds no subtask. *)
Lemma a_throwing_sink_changes_the_tree :
  fst (processTaskT Fixture.deep Sinks.recording Sinks.max_count
         Sinks.range_error 3 "100" "token" 0 fresh)
  = Returned (mkEnriched (Sample.a_task "100" "Root") []
                [mkEnriched (Sample.a_task "101" "Child") [] []])
  /\ fst (processTaskT Fixture.deep Sinks.throwing_once Sinks.max_count
            Sinks.range_error 3 "100" "token" 0 (mkWorld false []))
     = Returned (mkEnriched (Sample.a_task "100" "Root") [] [])
  /\ fst (processTaskT Fixture.deep Sinks.recording Sinks.max_count
            Sinks.range_error 3 "100" "token" 0 fresh)
     <> fst (processTaskT Fixture.deep Sinks.throwing_once Sinks.max_count
               Sinks.range_error 3 "100" "token" 0 (mkWorld false []))
  /\ fst (processTaskT Fixture.deep Sinks.throwing Sinks.max_count
            Sinks.range_error 3 "100" "token" 0 (mkWorld 0 []))
     = Thrown (Error "sink failed")
  /\ fst (processTask Fixture.deep addLog 3 "100" "token" 0 fresh)
     = fst (processTaskT Fixture.deep Sinks.recording Sinks.max_count
              Sinks.range_error 3 "100" "token" 0 fresh).
Proof.
  repeat apply conj; try (vm_compute; reflexivity).
  vm_compute. discriminate.
Qed.



(** X18.  A depth [repeat] rejects, a negative one or one past the
    platform's limit, ends [processTask] on its first line: the call rejects
    with the [RangeError], no entry is logged and no request is sent. *)
Theorem rejected_depth_throws_at_once {Sk : Type} (remote : Remote)
    (logT : string -> LogType -> Sk -> Sk * option JsError)
    (max_count : Z) (range_error : Z -> JsError)
    (fuel : nat) (taskGid token : string) (depth : Z) (w : World Sk) :
  (depth < 0 \/ max_count < depth)%Z ->
  processTaskT remote logT max_count range_error fuel taskGid token depth w
  = (Thrown (range_error depth), w).
Proof.
  intros H. now rewrite processTaskT_unfold, repeatT_rejects.
Qed.

Lemma rejected_depth_throws_at_once_witness :
  processTaskT Sample.remote Sinks.recording Sinks.max_count Sinks.range_error
    2 "100" "token" (-1) fresh
  = (Thrown (mkError "RangeError" "Invalid count value: -1"), fresh).
Proof.
  apply (rejected_depth_throws_at_once Sample.remote Sinks.recording
           Sinks.max_count Sinks.range_error 2 "100" "token" (-1) fresh).
  left. reflexivity.
Defined.
